(** * HTTP-upgrade dialer: a shallow embedding of [dialer.go]

    The file follows the Go package [httpupgrade] (one source file,
    [dialer.go]).  The package's own functions ([ConnRF.Read],
    [dialhttpUpgrade], [AddHeader], [Dial]) are embedded at top level under
    their Go names.  The functions of the Go standard library that they call
    are embedded in modules named after their packages ([strings], [url],
    [net], [bufio], [textproto], [http]), at the level of detail the dialer
    observes: bytes consumed from the connection, parse results, map keys.

    Go strings and byte slices are Rocq [string]s (sequences of 8-bit
    [ascii] values); Go maps with string keys are [gmap string _]. *)

From Stdlib Require Import String Ascii List Arith Bool NArith ZArith Lia.
From stdpp Require Import gmap strings.
Import ListNotations.
Local Open Scope string_scope.
Local Open Scope nat_scope.

(** ** Errors *)

(** Error values produced by the standard library and by the transport. *)
Inductive liberr : Type :=
| io_EOF
| io_ErrUnexpectedEOF
| io_ErrNoProgress
| bufio_ErrBufferFull
| net_OpError (code : nat)
| tls_HandshakeError (code : nat)
| url_EscapeError (s : string)
| textproto_ProtocolError (msg : string)
| textproto_errMessageTooLarge
| http_badStringError (what str : string)
| http_transferError (code : nat)
| http_writeError (code : nat)
| errors_errorString (msg : string).

(** Go's [error] values as the package sees them: a library error passed
    through unchanged, an error made by [errors.New(msg)], or such an error
    with an inner error attached by [.Base(err)]. *)
Inductive error : Type :=
| StdErr (e : liberr)
| NewErr (msg : string)
| NewErrBase (msg : string) (base : error).

(** ** Bytes *)

Definition byteval (c : ascii) : nat := nat_of_ascii c.

Definition between (lo hi : nat) (c : ascii) : bool :=
  (lo <=? byteval c) && (byteval c <=? hi).

Definition isUpper (c : ascii) : bool := between 65 90 c.
Definition isLower (c : ascii) : bool := between 97 122 c.
Definition isDigit (c : ascii) : bool := between 48 57 c.
Definition isASCIILetter (c : ascii) : bool := isUpper c || isLower c.

(** ['a' - 'A'] *)
Definition toLower : nat := 32.

Definition lowerASCII (c : ascii) : ascii :=
  if isUpper c then ascii_of_nat (byteval c + toLower) else c.

Definition upperASCII (c : ascii) : ascii :=
  if isLower c then ascii_of_nat (byteval c - toLower) else c.

Definition CR : ascii := ascii_of_nat 13.
Definition LF : ascii := ascii_of_nat 10.
Definition TAB : ascii := ascii_of_nat 9.
Definition SP : ascii := ascii_of_nat 32.
Definition CRLF : string := String CR (String LF EmptyString).

Fixpoint mem (c : ascii) (set : string) : bool :=
  match set with
  | EmptyString => false
  | String d set' => Ascii.eqb c d || mem c set'
  end.

(** [s[:n]] and [s[n:]] (for [n] within the string). *)
Fixpoint slice_to (n : nat) (s : string) : string :=
  match n, s with
  | S n', String c s' => String c (slice_to n' s')
  | _, _ => EmptyString
  end.

Fixpoint slice_from (n : nat) (s : string) : string :=
  match n, s with
  | S n', String _ s' => slice_from n' s'
  | _, _ => s
  end.

(** ** Package [strings] *)
Module strings.

Definition HasPrefix (s pre : string) : bool := String.prefix pre s.

(** [strings.Index]: byte offset of the first occurrence of [sep]. *)
Fixpoint Index (s sep : string) : option nat :=
  if String.prefix sep s then Some 0
  else match s with
       | EmptyString => None
       | String _ s' => option_map S (Index s' sep)
       end.

Fixpoint IndexByte (s : string) (c : ascii) : option nat :=
  match s with
  | EmptyString => None
  | String d s' => if Ascii.eqb d c then Some 0 else option_map S (IndexByte s' c)
  end.

(** [strings.Cut(s, sep)] returns [(before, after, found)]. *)
Definition Cut (s sep : string) : string * string * bool :=
  match Index s sep with
  | Some i => (slice_to i s, slice_from (i + String.length sep) s, true)
  | None => (s, EmptyString, false)
  end.

Definition TrimPrefix (s pre : string) : string :=
  if HasPrefix s pre then slice_from (String.length pre) s else s.

(** [strings.TrimLeft] with a cutset of ASCII bytes. *)
Fixpoint TrimLeft (s cutset : string) : string :=
  match s with
  | String c s' => if mem c cutset then TrimLeft s' cutset else s
  | EmptyString => s
  end.

Fixpoint Replace_loop (fuel : nat) (s old new : string) (n : nat) : string :=
  match fuel, n with
  | S fuel', S n' =>
      match Index s old with
      | Some m =>
          slice_to m s ++ new ++
          Replace_loop fuel' (slice_from (m + String.length old) s) old new n'
      | None => s
      end
  | _, _ => s
  end.

(** [strings.Replace(s, old, new, n)] for a non-empty [old] (the only use
    in this package has [old = " "]): the first [n] non-overlapping
    occurrences are replaced, all of them when [n < 0]. *)
Definition Replace (s old new : string) (n : Z) : string :=
  if String.eqb old new || (n =? 0)%Z then s
  else Replace_loop (S (String.length s)) s old new
         (if (n <? 0)%Z then S (String.length s) else Z.to_nat n).

Fixpoint Split_loop (fuel : nat) (s sep : string) : list string :=
  match fuel with
  | S fuel' =>
      match Index s sep with
      | Some m => slice_to m s :: Split_loop fuel' (slice_from (m + String.length sep) s) sep
      | None => [s]
      end
  | 0 => [s]
  end.

(** [strings.Split(s, sep)] for a non-empty [sep] (the only use in this
    package has [sep = ":"]). *)
Definition Split (s sep : string) : list string :=
  Split_loop (S (String.length s)) s sep.

Fixpoint isASCII (s : string) : bool :=
  match s with
  | EmptyString => true
  | String c s' => (byteval c <? 128) && isASCII s'
  end.

Fixpoint mapBytes (f : ascii -> ascii) (s : string) : string :=
  match s with
  | EmptyString => EmptyString
  | String c s' => String (f c) (mapBytes f s')
  end.

(** [strings.ToLower].  An all-ASCII string is lowered byte by byte (Go's
    fast path).  A string with a byte of 0x80 or more goes through
    [strings.Map(unicode.ToLower, s)]; the Unicode case tables are not part
    of this development, so that mapping is the parameter [unicodeLower]. *)
Definition ToLower (unicodeLower : string -> string) (s : string) : string :=
  if isASCII s then mapBytes lowerASCII s else unicodeLower s.

End strings.

(** ** Package [net/url] *)
Module url.

Record URL : Type := mkURL
  { Scheme : string; Opaque : string; Host : string; Path : string }.

Definition ishex (c : ascii) : bool :=
  isDigit c || between 97 102 c || between 65 70 c.

Definition unhex (c : ascii) : nat :=
  if isDigit c then byteval c - 48
  else if between 97 102 c then byteval c - 97 + 10
  else if between 65 70 c then byteval c - 65 + 10
  else 0.

(** First pass of [unescape]: the malformed escape, if there is one
    ([s[i:]] cut to three bytes at the first bad ["%"]). *)
Fixpoint badEscape (s : string) : option string :=
  match s with
  | EmptyString => None
  | String c s1 =>
      if Ascii.eqb c "%" then
        match s1 with
        | String a (String b s3) =>
            if ishex a && ishex b then badEscape s3 else Some (slice_to 3 s)
        | _ => Some (slice_to 3 s)
        end
      else badEscape s1
  end.

(** Second pass of [unescape] in query mode: ["%XY"] becomes one byte and
    ["+"] becomes a space. *)
Fixpoint decode (s : string) : string :=
  match s with
  | EmptyString => EmptyString
  | String c s1 =>
      if Ascii.eqb c "%" then
        match s1 with
        | String a (String b s3) =>
            String (ascii_of_nat (unhex a * 16 + unhex b)) (decode s3)
        | _ => String c (decode s1)
        end
      else if Ascii.eqb c "+" then String SP (decode s1)
      else String c (decode s1)
  end.

(** [url.QueryUnescape]: on a malformed escape the string result is empty
    and the error is an [EscapeError]. *)
Definition QueryUnescape (s : string) : string * option liberr :=
  match badEscape s with
  | Some bad => (EmptyString, Some (url_EscapeError bad))
  | None => (decode s, None)
  end.

(** [shouldEscape(c, encodePath)]: letters, digits, the marks and every
    reserved byte but ["?"] are kept. *)
Definition shouldEscape (c : ascii) : bool :=
  if isASCIILetter c || isDigit c then false
  else if mem c "-_.~" then false
  else if mem c "$&+,/:;=?@" then Ascii.eqb c "?"
  else true.

(** [upperhex[n]] for [n] below 16. *)
Definition upperhex (n : nat) : ascii :=
  match String.get n "0123456789ABCDEF" with Some c => c | None => "0"%char end.

(** [escape(s, encodePath)]: a byte to escape becomes ["%XY"]. *)
Fixpoint escape (s : string) : string :=
  match s with
  | EmptyString => EmptyString
  | String c s' =>
      if shouldEscape c
      then String "%" (String (upperhex (byteval c / 16))
                         (String (upperhex (byteval c mod 16)) (escape s')))
      else String c (escape s')
  end.

(** [u.EscapedPath()] for a URL whose [RawPath] is empty, as every URL of
    [dialer.go] is. *)
Definition EscapedPath (u : URL) : string :=
  if String.eqb (Path u) "*" then "*" else escape (Path u).

(** [u.RequestURI()] for a URL with no query ([RawQuery] empty and
    [ForceQuery] false, as [dialer.go] leaves them). *)
Definition RequestURI (u : URL) : string :=
  match Opaque u with
  | EmptyString =>
      match EscapedPath u with
      | EmptyString => "/"
      | result => result
      end
  | result =>
      if strings.HasPrefix result "//" then Scheme u ++ ":" ++ result else result
  end.

End url.

(** ** A state monad for code that reads through a buffered reader

    [Done a s] is a normal return with the new state; [Panicked] is a Go
    run-time panic; [OutOfFuel] marks a loop of the model that was cut off
    (the loops are given bounds that they never reach, see
    [ReadResponse_total]). *)
Inductive result (S A : Type) : Type :=
| Done (a : A) (s : S)
| Panicked (msg : string)
| OutOfFuel.
Arguments Done {S A} a s.
Arguments Panicked {S A} msg.
Arguments OutOfFuel {S A}.

Definition M (S A : Type) : Type := S -> result S A.

Definition ret {S A : Type} (a : A) : M S A := fun s => Done a s.

Definition bind {S A B : Type} (m : M S A) (k : A -> M S B) : M S B :=
  fun s =>
    match m s with
    | Done a s' => k a s'
    | Panicked msg => Panicked msg
    | OutOfFuel => OutOfFuel
    end.

Notation "x <- c1 ;; c2" := (bind c1 (fun x => c2))
  (at level 100, c1 at next level, right associativity).
Notation "c1 ;;; c2" := (bind c1 (fun _ => c2))
  (at level 100, right associativity).

(** ** Package [net]: the connection under the dialer

    A connection is modelled by what its peer will deliver: a script of
    events consumed by successive [Read] calls, followed by end of file.  A
    segment is delivered in pieces when the caller's buffer is shorter.
    [trace] logs the calls made on the connection, most recent first. *)
Module net.

Inductive event : Type :=
| Seg (data : string)
| Failure (code : nat).

Inductive op : Type :=
| OpRead (n : nat)
| OpWrite.

Record Conn : Type := mkConn
  { incoming : list event;
    werr : option liberr;
    trace : list op }.

Definition logged (o : op) (c : Conn) : Conn :=
  mkConn (incoming c) (werr c) (o :: trace c).

(** [c.Read(p)] with [len(p) = n]: the bytes stored into [p] and the error.
    A zero-length read returns at once. *)
Definition Read (c : Conn) (n : nat) : string * option liberr * Conn :=
  let c := logged (OpRead n) c in
  if n =? 0 then (EmptyString, None, c)
  else
    match incoming c with
    | [] => (EmptyString, Some io_EOF, c)
    | Seg d :: rest =>
        let k := Nat.min n (String.length d) in
        let left := slice_from k d in
        (slice_to k d, None,
         mkConn (match left with EmptyString => rest | _ => Seg left :: rest end)
                (werr c) (trace c))
    | Failure code :: rest =>
        (EmptyString, Some (net_OpError code), mkConn rest (werr c) (trace c))
    end.

Definition isRead (o : op) : bool :=
  match o with OpRead _ => true | OpWrite => false end.

(** Number of [Read] calls made on the connection so far. *)
Definition nreads (c : Conn) : nat := List.length (List.filter isRead (trace c)).

(** What the script still holds: its bytes plus one per event. *)
Fixpoint avail (evs : list event) : nat :=
  match evs with
  | [] => 0
  | Seg d :: rest => S (String.length d) + avail rest
  | Failure _ :: rest => 1 + avail rest
  end.

End net.

(** ** Package [bufio] *)
Module bufio.

Definition minReadBufferSize : nat := 16.
Definition maxConsecutiveEmptyReads : nat := 100.

(** A [bufio.Reader]: [buf] holds the unread bytes [b.buf[b.r:b.w]], [size]
    is [len(b.buf)], [rd] the connection it reads from. *)
Record Reader : Type := mkReader
  { rd : net.Conn;
    buf : string;
    size : nat;
    err : option liberr }.

Definition NewReaderSize (rd : net.Conn) (size : nat) : Reader :=
  mkReader rd EmptyString (Nat.max size minReadBufferSize) None.

Definition Buffered (b : Reader) : nat := String.length (buf b).

Definition setBuf (s : string) (b : Reader) : Reader :=
  mkReader (rd b) s (size b) (err b).

Definition setErr (e : option liberr) (b : Reader) : Reader :=
  mkReader (rd b) (buf b) (size b) e.

(** Bytes still to come through this reader: buffered plus scripted. *)
Definition budget (b : Reader) : nat :=
  Buffered b + net.avail (net.incoming (rd b)).

Definition readErr : M Reader (option liberr) :=
  fun b => Done (err b) (setErr None b).

(** The read loop of [fill]: up to [maxConsecutiveEmptyReads] reads into
    the free space [b.buf[b.w:]] after the unread bytes were slid to the
    front. *)
Fixpoint fill_loop (i : nat) (b : Reader) : Reader :=
  match i with
  | 0 => setErr (Some io_ErrNoProgress) b
  | S i' =>
      let '(data, e, c) := net.Read (rd b) (size b - Buffered b) in
      let b' := mkReader c (buf b ++ data) (size b) (err b) in
      match e with
      | Some e => setErr (Some e) b'
      | None => if 0 <? String.length data then b' else fill_loop i' b'
      end
  end.

Definition fill : M Reader unit :=
  fun b =>
    if size b <=? Buffered b then Panicked "bufio: tried to fill full buffer"
    else Done tt (fill_loop maxConsecutiveEmptyReads b).

(** [ReadSlice]: [s] is the offset from which the buffer is still to be
    searched. *)
Fixpoint ReadSlice_loop (fuel : nat) (delim : ascii) (s : nat)
  : M Reader (string * option liberr) :=
  fun b =>
    match strings.IndexByte (slice_from s (buf b)) delim with
    | Some i =>
        let i := i + s in
        Done (slice_to (i + 1) (buf b), None) (setBuf (slice_from (i + 1) (buf b)) b)
    | None =>
        match err b with
        | Some e => Done (buf b, Some e) (setErr None (setBuf EmptyString b))
        | None =>
            if size b <=? Buffered b
            then Done (buf b, Some bufio_ErrBufferFull) (setBuf EmptyString b)
            else
              match fuel with
              | 0 => OutOfFuel
              | S fuel' => (fill ;;; ReadSlice_loop fuel' delim (Buffered b)) b
              end
        end
    end.

Definition ReadSlice (delim : ascii) : M Reader (string * option liberr) :=
  fun b => ReadSlice_loop (S (size b)) delim 0 b.

Fixpoint lastByte (s : string) : option ascii :=
  match s with
  | EmptyString => None
  | String c EmptyString => Some c
  | String _ s' => lastByte s'
  end.

Definition dropLast (n : nat) (s : string) : string :=
  slice_to (String.length s - n) s.

Definition endsWith (c : ascii) (s : string) : bool :=
  match lastByte s with Some d => Ascii.eqb c d | None => false end.

(** [ReadLine] returns [(line, isPrefix, err)]. *)
Definition ReadLine : M Reader (string * bool * option liberr) :=
  r <- ReadSlice LF ;;
  let '(line, e) := r in
  match e with
  | Some bufio_ErrBufferFull =>
      if endsWith CR line
      then fun b => Done (dropLast 1 line, true, None) (setBuf (String CR (buf b)) b)
      else ret (line, true, None)
  | _ =>
      match line with
      | EmptyString => ret (EmptyString, false, e)
      | _ =>
          if endsWith LF line
          then ret (dropLast (if endsWith CR (dropLast 1 line) then 2 else 1) line,
                    false, None)
          else ret (line, false, None)
      end
  end.

Fixpoint ReadByte_loop (fuel : nat) : M Reader (ascii + liberr) :=
  fun b =>
    match buf b with
    | String c rest => Done (inl c) (setBuf rest b)
    | EmptyString =>
        match err b with
        | Some e => Done (inr e) (setErr None b)
        | None =>
            match fuel with
            | 0 => OutOfFuel
            | S fuel' => (fill ;;; ReadByte_loop fuel') b
            end
        end
    end.

(** After one [fill] the buffer is non-empty or an error is pending, so
    the loop of [ReadByte] runs at most twice. *)
Definition ReadByte : M Reader (ascii + liberr) := ReadByte_loop 2.

(** [UnreadByte] straight after a successful [ReadByte] of [c]: [b.r > 0]
    and [b.lastByte = c] there, so the call steps back over [c]. *)
Definition UnreadByte (c : ascii) : M Reader unit :=
  fun b => Done tt (setBuf (String c (buf b)) b).

Definition isNone {A : Type} (o : option A) : bool :=
  match o with None => true | Some _ => false end.

Fixpoint Peek_loop (fuel : nat) (n : nat) : M Reader unit :=
  fun b =>
    if (Buffered b <? n) && (Buffered b <? size b) && isNone (err b)
    then match fuel with
         | 0 => OutOfFuel
         | S fuel' => (fill ;;; Peek_loop fuel' n) b
         end
    else Done tt b.

Definition Peek (n : nat) : M Reader (string * option liberr) :=
  (fun b => Peek_loop (S (size b)) n b) ;;;
  fun b =>
    if size b <? n then Done (buf b, Some bufio_ErrBufferFull) b
    else if Buffered b <? n
         then Done (buf b,
                    Some (match err b with Some e => e | None => bufio_ErrBufferFull end))
                   (setErr None b)
         else Done (slice_to n (buf b), None) b.

(** [b.Read(p)] with [len(p) = n]. *)
Definition Read (n : nat) : M Reader (string * option liberr) :=
  fun b =>
    if n =? 0 then
      if 0 <? Buffered b then Done (EmptyString, None) b
      else Done (EmptyString, err b) (setErr None b)
    else
      match buf b with
      | EmptyString =>
          match err b with
          | Some e => Done (EmptyString, Some e) (setErr None b)
          | None =>
              if size b <=? n then
                let '(data, e, c) := net.Read (rd b) n in
                Done (data, e) (mkReader c (buf b) (size b) None)
              else
                let '(data, e, c) := net.Read (rd b) (size b) in
                match data with
                | EmptyString => Done (EmptyString, e) (mkReader c (buf b) (size b) None)
                | _ => Done (slice_to n data, None) (mkReader c (slice_from n data) (size b) e)
                end
          end
      | _ => Done (slice_to n (buf b), None) (setBuf (slice_from n (buf b)) b)
      end.

End bufio.

(** ** Package [net/textproto] *)
Module textproto.

Definition MIMEHeader : Type := gmap string (list string).

(** Go's [h[key]]: the nil slice when the key is absent. *)
Definition values (h : gmap string (list string)) (key : string) : list string :=
  match h !! key with Some vs => vs | None => [] end.

(** RFC 7230 token bytes. *)
Definition validHeaderFieldByte (c : ascii) : bool :=
  isASCIILetter c || isDigit c || mem c "!#$%&'*+-.^_`|~".

(** Field-value bytes: HTAB, SP, the visible ASCII range, and obs-text. *)
Definition validHeaderValueByte (c : ascii) : bool :=
  (byteval c =? 9) || between 32 126 c || (128 <=? byteval c).

Fixpoint allBytes (p : ascii -> bool) (s : string) : bool :=
  match s with
  | EmptyString => true
  | String c s' => p c && allBytes p s'
  end.

(** The byte loop of [canonicalMIMEHeaderKey]: upper case at the start and
    after each ["-"], lower case elsewhere. *)
Fixpoint canonicalize (upper : bool) (a : string) : string :=
  match a with
  | EmptyString => EmptyString
  | String c a' =>
      let c' := if upper && isLower c then upperASCII c
                else if negb upper && isUpper c then lowerASCII c
                else c in
      String c' (canonicalize (Ascii.eqb c' "-") a')
  end.

(** [canonicalMIMEHeaderKey(a)] returns the key and whether it is
    acceptable.  A byte that is neither a token byte nor a space refuses
    the key; a space keeps it as it is. *)
Definition canonicalMIMEHeaderKey (a : string) : string * bool :=
  if negb (allBytes (fun c => validHeaderFieldByte c || Ascii.eqb c SP) a)
  then (a, false)
  else if negb (allBytes validHeaderFieldByte a) then (a, true)
  else (canonicalize true a, true).

(** The scan of [CanonicalMIMEHeaderKey]: [Some true] when a byte calls for
    the slow path, [Some false] when an invalid byte is met first, [None]
    when the key is already canonical. *)
Fixpoint needsCanon (upper : bool) (s : string) : option bool :=
  match s with
  | EmptyString => None
  | String c s' =>
      if negb (validHeaderFieldByte c) then Some false
      else if upper && isLower c then Some true
      else if negb upper && isUpper c then Some true
      else needsCanon (Ascii.eqb c "-") s'
  end.

Definition CanonicalMIMEHeaderKey (s : string) : string :=
  match needsCanon true s with
  | Some true => fst (canonicalMIMEHeaderKey s)
  | _ => s
  end.

(** [MIMEHeader.Add], [Set], [Get], [Del]: every one goes through
    [CanonicalMIMEHeaderKey].  Go's [Set] is written [Set_] here, [Set]
    being a sort. *)
Definition Add (h : MIMEHeader) (key value : string) : MIMEHeader :=
  let key := CanonicalMIMEHeaderKey key in
  <[key := (values h key ++ [value])%list]> h.

Definition Set_ (h : MIMEHeader) (key value : string) : MIMEHeader :=
  <[CanonicalMIMEHeaderKey key := [value]]> h.

Definition Get (h : MIMEHeader) (key : string) : string :=
  match values h (CanonicalMIMEHeaderKey key) with
  | [] => EmptyString
  | v :: _ => v
  end.

Definition Del (h : MIMEHeader) (key : string) : MIMEHeader :=
  delete (CanonicalMIMEHeaderKey key) h.

Definition isSpaceOrTab (c : ascii) : bool := Ascii.eqb c SP || Ascii.eqb c TAB.

Fixpoint trimLeft (s : string) : string :=
  match s with
  | String c s' => if isSpaceOrTab c then trimLeft s' else s
  | EmptyString => s
  end.

Fixpoint trimRight (s : string) : string :=
  match s with
  | EmptyString => EmptyString
  | String c s' =>
      match trimRight s' with
      | EmptyString => if isSpaceOrTab c then EmptyString else String c EmptyString
      | t => String c t
      end
  end.

(** [trim]: leading and trailing spaces and tabs removed. *)
Definition trim (s : string) : string := trimRight (trimLeft s).

Definition overLimit (lim : option nat) (n : nat) : bool :=
  match lim with Some l => l <? n | None => false end.

(** [readLineSlice(lim)]: [bufio.ReadLine] repeated while the line is longer
    than the buffer; [lim = None] stands for no limit. *)
Fixpoint readLineSlice_loop (fuel : nat) (lim : option nat) (line : string)
  : M bufio.Reader (string * option liberr) :=
  match fuel with
  | 0 => fun _ => OutOfFuel
  | S fuel' =>
      r <- bufio.ReadLine ;;
      let '(l, more, e) := r in
      match e with
      | Some e => ret (EmptyString, Some e)
      | None =>
          if overLimit lim (String.length line + String.length l)
          then ret (EmptyString, Some textproto_errMessageTooLarge)
          else if more then readLineSlice_loop fuel' lim (line ++ l)
               else ret (line ++ l, None)
      end
  end.

Definition readLineSlice (lim : option nat) : M bufio.Reader (string * option liberr) :=
  fun b => readLineSlice_loop (S (bufio.budget b)) lim EmptyString b.

Definition ReadLine : M bufio.Reader (string * option liberr) := readLineSlice None.

(** [skipSpace]: the number of leading spaces and tabs consumed. *)
Fixpoint skipSpace_loop (fuel : nat) (n : nat) : M bufio.Reader nat :=
  match fuel with
  | 0 => fun _ => OutOfFuel
  | S fuel' =>
      r <- bufio.ReadByte ;;
      match r with
      | inr _ => ret n
      | inl c =>
          if isSpaceOrTab c then skipSpace_loop fuel' (S n)
          else bufio.UnreadByte c ;;; ret n
      end
  end.

Definition skipSpace : M bufio.Reader nat :=
  fun b => skipSpace_loop (S (bufio.budget b)) 0 b.

Definition mustHaveFieldNameColon (line : string) : option liberr :=
  match strings.IndexByte line ":" with
  | Some _ => None
  | None => Some (textproto_ProtocolError "malformed MIME header: missing colon")
  end.

(** The look-ahead of [readContinuedLineSlice]: the next line is already
    buffered and starts a new header key or is blank. *)
Definition nextLineIsNotContinuation (peek : string) : bool :=
  match peek with
  | EmptyString => false
  | String c0 rest =>
      isASCIILetter c0 || Ascii.eqb c0 LF ||
      match rest with
      | String c1 EmptyString => Ascii.eqb c0 CR && Ascii.eqb c1 LF
      | _ => false
      end
  end.

Fixpoint continuation_loop (fuel : nat) (acc : string)
  : M bufio.Reader (string * option liberr) :=
  match fuel with
  | 0 => fun _ => OutOfFuel
  | S fuel' =>
      n <- skipSpace ;;
      if 0 <? n then
        r <- readLineSlice None ;;
        let '(line, e) := r in
        match e with
        | Some _ => ret (acc ++ String SP EmptyString, None)
        | None => continuation_loop fuel' (acc ++ String SP EmptyString ++ trim line)
        end
      else ret (acc, None)
  end.

(** [readContinuedLineSlice(lim, mustHaveFieldNameColon)] as
    [readMIMEHeader] calls it; the memory limit there is [math.MaxInt64]
    and is left out. *)
Definition readContinuedLineSlice : M bufio.Reader (string * option liberr) :=
  r <- readLineSlice None ;;
  let '(line, e) := r in
  match e with
  | Some e => ret (EmptyString, Some e)
  | None =>
      match line with
      | EmptyString => ret (EmptyString, None)
      | _ =>
          match mustHaveFieldNameColon line with
          | Some e => ret (EmptyString, Some e)
          | None =>
              fun b =>
                let slow :=
                  fun b => continuation_loop (S (bufio.budget b)) (trim line) b in
                if 1 <? bufio.Buffered b then
                  (p <- bufio.Peek 2 ;;
                   if nextLineIsNotContinuation (fst p) then ret (trim line, None)
                   else slow) b
                else slow b
          end
      end
  end.

(** [upcomingHeaderKeys]: only its [Peek(1)], which loads an empty buffer,
    is visible; the count it returns sizes an allocation. *)
Definition upcomingHeaderKeys : M bufio.Reader unit :=
  bufio.Peek 1 ;;; ret tt.

Definition malformedLine : liberr :=
  textproto_ProtocolError "malformed MIME header line".

Fixpoint readMIMEHeader_loop (fuel : nat) (m : MIMEHeader)
  : M bufio.Reader (MIMEHeader * option liberr) :=
  match fuel with
  | 0 => fun _ => OutOfFuel
  | S fuel' =>
      r <- readContinuedLineSlice ;;
      let '(kv, e) := r in
      match kv with
      | EmptyString => ret (m, e)
      | _ =>
          let '(k, v, ok) := strings.Cut kv ":" in
          if negb ok then ret (m, Some malformedLine)
          else
            let '(key, ok) := canonicalMIMEHeaderKey k in
            if negb ok then ret (m, Some malformedLine)
            else if negb (allBytes validHeaderValueByte v) then ret (m, Some malformedLine)
            else
              match key with
              | EmptyString => readMIMEHeader_loop fuel' m
              | _ =>
                  let value := trimLeft v in
                  let m := <[key := (values m key ++ [value])%list]> m in
                  match e with
                  | Some e => ret (m, Some e)
                  | None => readMIMEHeader_loop fuel' m
                  end
              end
      end
  end.

(** [ReadMIMEHeader] (limits [math.MaxInt64], left out). *)
Definition ReadMIMEHeader : M bufio.Reader (MIMEHeader * option liberr) :=
  upcomingHeaderKeys ;;;
  p <- bufio.Peek 1 ;;
  match p with
  | (String c _, None) =>
      if isSpaceOrTab c then
        r <- readLineSlice (Some 80) ;;
        match snd r with
        | Some e => ret (∅, Some e)
        | None => ret (∅, Some (textproto_ProtocolError "malformed MIME header initial line"))
        end
      else fun b => readMIMEHeader_loop (S (bufio.budget b)) ∅ b
  | _ => fun b => readMIMEHeader_loop (S (bufio.budget b)) ∅ b
  end.

End textproto.

(** ** Package [net/http] *)
Module http.

Definition MethodGet : string := "GET".

(** [http.Header] is [map[string][]string]. *)
Definition Header : Type := gmap string (list string).

(** The fields of [Request] and [Response] that this package touches.
    Both have a field [Header] in Go; the projections are told apart as
    [ReqHeader] and [RespHeader]. *)
Record Request : Type := mkRequest
  { Method : string;
    URL : url.URL;
    Host : string;
    ReqHeader : gmap string (list string) }.

Record Response : Type := mkResponse
  { Status : string;
    StatusCode : Z;
    Proto : string;
    ProtoMajor : nat;
    ProtoMinor : nat;
    RespHeader : gmap string (list string) }.

Definition digitVal (c : ascii) : option nat :=
  if isDigit c then Some (byteval c - 48) else None.

Fixpoint digits (acc : nat) (s : string) : option nat :=
  match s with
  | EmptyString => Some acc
  | String c s' =>
      match digitVal c with
      | Some d => digits (10 * acc + d) s'
      | None => None
      end
  end.

(** [strconv.Atoi] on a short string: an optional sign, then one or more
    decimal digits. *)
Definition Atoi (s : string) : option Z :=
  match s with
  | EmptyString => None
  | String c s' =>
      if Ascii.eqb c "+" then
        match s' with
        | EmptyString => None
        | _ => option_map Z.of_nat (digits 0 s')
        end
      else if Ascii.eqb c "-" then
        match s' with
        | EmptyString => None
        | _ => option_map (fun n => (- Z.of_nat n)%Z) (digits 0 s')
        end
      else option_map Z.of_nat (digits 0 s)
  end.

(** [ParseHTTPVersion]: ["HTTP/X.Y"] with one digit each. *)
Definition ParseHTTPVersion (vers : string) : option (nat * nat) :=
  match vers with
  | String h (String t1 (String t2 (String p (String sl
      (String x (String dot (String y EmptyString))))))) =>
      if String.eqb (slice_to 5 vers) "HTTP/" && Ascii.eqb dot "." then
        match digitVal x, digitVal y with
        | Some major, Some minor => Some (major, minor)
        | _, _ => None
        end
      else None
  | _ => None
  end.

Definition fixPragmaCacheControl (h : gmap string (list string))
  : gmap string (list string) :=
  match h !! "Pragma" with
  | Some (v :: _) =>
      if String.eqb v "no-cache" && bufio.isNone (h !! "Cache-Control")
      then <["Cache-Control" := ["no-cache"]]> h
      else h
  | _ => h
  end.

(** [httpguts.tokenEqual]: ASCII case-insensitive, no byte above 0x7F. *)
Fixpoint tokenEqual (t1 t2 : string) : bool :=
  match t1, t2 with
  | EmptyString, EmptyString => true
  | String a t1', String b t2' =>
      (byteval a <? 128) && Ascii.eqb (lowerASCII a) (lowerASCII b) && tokenEqual t1' t2'
  | _, _ => false
  end.

Fixpoint headerValueContainsToken_loop (fuel : nat) (v token : string) : bool :=
  match fuel with
  | 0 => false
  | S fuel' =>
      match strings.IndexByte v "," with
      | Some comma =>
          tokenEqual (textproto.trim (slice_to comma v)) token
          || headerValueContainsToken_loop fuel' (slice_from (comma + 1) v) token
      | None => tokenEqual (textproto.trim v) token
      end
  end.

Definition HeaderValuesContainsToken (vs : list string) (token : string) : bool :=
  existsb (fun v => headerValueContainsToken_loop (S (String.length v)) v token) vs.

(** [shouldClose(major, minor, header, true)] as [readTransfer] runs it on
    a response: from HTTP/1.1 on, a [Connection] header with the token
    ["close"] is removed from the header map. *)
Definition shouldClose_header (major minor : nat) (h : gmap string (list string))
  : gmap string (list string) :=
  if major <? 1 then h
  else if (major =? 1) && (minor =? 0) then h
  else if HeaderValuesContainsToken (textproto.values h "Connection") "close"
       then textproto.Del h "Connection"
       else h.

(** The rest of [readTransfer] interprets [Transfer-Encoding],
    [Content-Length] and [Trailer].  It reads nothing from the connection.
    With none of the three present it returns nil and leaves the response
    as it is; otherwise its outcome (an error, or the response with those
    header entries edited) is the parameter [framing]. *)
Definition Framing : Type := Response -> Request -> liberr + Response.

Definition hasFramingHeader (h : gmap string (list string)) : bool :=
  negb (bufio.isNone (h !! "Transfer-Encoding"))
  || negb (bufio.isNone (h !! "Content-Length"))
  || negb (bufio.isNone (h !! "Trailer")).

Definition readTransfer (framing : Framing) (resp : Response) (req : Request)
  : liberr + Response :=
  let resp :=
    mkResponse (Status resp) (StatusCode resp) (Proto resp) (ProtoMajor resp)
      (ProtoMinor resp)
      (shouldClose_header (ProtoMajor resp) (ProtoMinor resp) (RespHeader resp)) in
  if hasFramingHeader (RespHeader resp) then framing resp req else inr resp.

Definition eofToUnexpected (e : liberr) : liberr :=
  match e with io_EOF => io_ErrUnexpectedEOF | _ => e end.

(** [http.ReadResponse(r, req)]. *)
Definition ReadResponse (framing : Framing) (req : Request)
  : M bufio.Reader (liberr + Response) :=
  r <- textproto.ReadLine ;;
  let '(line, e) := r in
  match e with
  | Some e => ret (inl (eofToUnexpected e))
  | None =>
      let '(proto, status, ok) := strings.Cut line " " in
      if negb ok then ret (inl (http_badStringError "malformed HTTP response" line))
      else
        let status := strings.TrimLeft status " " in
        let '(statusCode, _, _) := strings.Cut status " " in
        if negb (String.length statusCode =? 3)
        then ret (inl (http_badStringError "malformed HTTP status code" statusCode))
        else
          match Atoi statusCode with
          | None => ret (inl (http_badStringError "malformed HTTP status code" statusCode))
          | Some code =>
              if (code <? 0)%Z
              then ret (inl (http_badStringError "malformed HTTP status code" statusCode))
              else
                match ParseHTTPVersion proto with
                | None => ret (inl (http_badStringError "malformed HTTP version" proto))
                | Some (major, minor) =>
                    r <- textproto.ReadMIMEHeader ;;
                    let '(mimeHeader, e) := r in
                    match e with
                    | Some e => ret (inl (eofToUnexpected e))
                    | None =>
                        let resp :=
                          mkResponse status code proto major minor
                            (fixPragmaCacheControl mimeHeader) in
                        ret (readTransfer framing resp req)
                    end
                end
          end
  end.

(** [stringContainsCTLByte]: a byte below 0x20, or 0x7F. *)
Fixpoint stringContainsCTLByte (s : string) : bool :=
  match s with
  | EmptyString => false
  | String c s' => (byteval c <? 32) || (byteval c =? 127) || stringContainsCTLByte s'
  end.

Definition errControlCharacter : liberr :=
  errors_errorString "net/http: can't write control character in Request.URL".

(** What [req.Write] checks before it writes anything, for a request
    without a body whose method is not [CONNECT] (the dialer's is [GET]).
    The host is [r.Host], or the URL's host when that is empty;
    [httpguts.PunycodeHostPort] returns an all-ASCII host as it is and
    can fail on another one, which is the parameter [punycode].  A host
    that is not a valid header value is sent empty, without an error.  The
    request target is [r.URL.RequestURI()]; a control byte in it is
    refused. *)
Definition requestError (punycode : string -> option liberr) (req : Request)
  : option liberr :=
  let host := if String.eqb (Host req) EmptyString then url.Host (URL req) else Host req in
  match (if strings.isASCII host then None else punycode host) with
  | Some e => Some e
  | None =>
      if stringContainsCTLByte (url.RequestURI (URL req))
      then Some errControlCharacter
      else None
  end.

(** [req.Write(w)].  A request that [requestError] refuses is not written:
    the error is returned and the connection is not touched.  Otherwise
    the request line and the header block are written to the connection;
    the bytes are not modelled: the call is logged on the connection, and
    it fails when the connection's [werr] says so. *)
Definition Write (punycode : string -> option liberr) (req : Request) (c : net.Conn)
  : option liberr * net.Conn :=
  match requestError punycode req with
  | Some e => (Some e, c)
  | None => (net.werr c, net.logged net.OpWrite c)
  end.

End http.

(** ** Package [httpupgrade]: [dialer.go] *)

(** The parts of the standard library that are taken as parameters:
    Unicode lowering of non-ASCII strings, the framing step of
    [http.ReadResponse], and the error, if any, of
    [httpguts.PunycodeHostPort] on a host that is not all ASCII. *)
Record GoLib : Type := mkGoLib
  { unicodeLower : string -> string;
    framing : http.Framing;
    punycode : string -> option liberr }.

(** What a Go call returns: its value and error, or a panic.  [NoFuel]
    carries [OutOfFuel] of the reader monad upwards. *)
Inductive outcome (A : Type) : Type :=
| Return (a : A) (err : option error)
| Panic (msg : string)
| NoFuel.
Arguments Return {A} a err.
Arguments Panic {A} msg.
Arguments NoFuel {A}.

(** A byte slice as far as reading into it goes: its length and capacity. *)
Record ByteSlice : Type := mkSlice { len : nat; cap : nat }.

(** [[]byte{}] *)
Definition emptySlice : ByteSlice := mkSlice 0 0.

(** The fields of [Config] that the dialer reads.  [GetNormalizedPath] is
    the value of the method of that name, which is declared outside
    [dialer.go].  [Header] lists the entries of the Go map in the order in
    which the [range] loop of this dial visits them. *)
Record Config : Type := mkConfig
  { Host : string;
    GetNormalizedPath : string;
    Header : list (string * string);
    Ed : N }.

(** [type ConnRF struct { net.Conn; Req *http.Request; First bool }] *)
Record ConnRF : Type := mkConnRF
  { Conn : net.Conn;
    Req : http.Request;
    First : bool }.

Definition unrecognizedReply : error := NewErr "unrecognized reply".

Definition liftErr (e : option liberr) : option error := option_map StdErr e.

(** The handshake check of [Read] (lines 34-36): [true] when the reply is
    not the expected one. *)
Definition replyMismatch (L : GoLib) (resp : http.Response) : bool :=
  negb (String.eqb (http.Status resp) "101 Switching Protocols")
  || negb (String.eqb
             (strings.ToLower (unicodeLower L)
                (textproto.Get (http.RespHeader resp) "Upgrade"))
             "websocket")
  || negb (String.eqb
             (strings.ToLower (unicodeLower L)
                (textproto.Get (http.RespHeader resp) "Connection"))
             "upgrade").

(** [func (c *ConnRF) Read(b []byte) (int, error)].  The result holds the
    bytes stored into [b] (their number is the returned count) and the
    connection object after the call. *)
Definition Read (L : GoLib) (c : ConnRF) (b : ByteSlice) : outcome string * ConnRF :=
  if First c then
    let after := fun conn => mkConnRF conn (Req c) false in
    let reader := bufio.NewReaderSize (Conn c) (len b) in
    match http.ReadResponse (framing L) (Req c) reader with
    | Done (inl err) reader => (Return EmptyString (Some (StdErr err)), after (bufio.rd reader))
    | Done (inr resp) reader =>
        if replyMismatch L resp
        then (Return EmptyString (Some unrecognizedReply), after (bufio.rd reader))
        else if bufio.Buffered reader <=? cap b
             then
               match bufio.Read (bufio.Buffered reader) reader with
               | Done (data, e) reader => (Return data (liftErr e), after (bufio.rd reader))
               | Panicked msg => (Panic msg, after (bufio.rd reader))
               | OutOfFuel => (NoFuel, after (bufio.rd reader))
               end
             else (Panic "slice bounds out of range", after (bufio.rd reader))
    | Panicked msg => (Panic msg, after (Conn c))
    | OutOfFuel => (NoFuel, after (Conn c))
    end
  else
    let '(data, e, conn) := net.Read (Conn c) (len b) in
    (Return data (liftErr e), mkConnRF conn (Req c) (First c)).

(** [AddHeader]: plain map assignment, the key is stored as written. *)
Definition AddHeader (header : gmap string (list string)) (key value : string)
  : gmap string (list string) :=
  <[key := (textproto.values header key ++ [value])%list]> header.

(** Lines 78-84 of [dialhttpUpgrade]: the header map of the request. *)
Definition requestHeader (transportConfiguration : Config) : gmap string (list string) :=
  let header :=
    fold_left (fun h kv => textproto.Add h (fst kv) (snd kv))
      (Header transportConfiguration) ∅ in
  let header := textproto.Set_ header "Connection" "upgrade" in
  textproto.Set_ header "Upgrade" "websocket".

(** Lines 86-99 of [dialhttpUpgrade]: the path and opaque fields of the
    request URL. *)
Definition encodePath (requestURL : url.URL) : url.URL :=
  let requestURL :=
    if String.eqb (url.Path requestURL) EmptyString
    then url.mkURL (url.Scheme requestURL) (url.Opaque requestURL) (url.Host requestURL) "GET"
    else requestURL in
  let pathUnescape := fst (url.QueryUnescape (url.Path requestURL)) in
  let pathTrimmed := strings.TrimPrefix pathUnescape "/" in
  let pathReplace := strings.Replace pathTrimmed " " ":" 1 in
  let pathSplited := strings.Split pathReplace ":" in
  let pathLen := List.length pathSplited in
  if pathLen =? 2 then
    url.mkURL (url.Scheme requestURL) pathTrimmed (url.Host requestURL) (url.Path requestURL)
  else if pathLen =? 3 then
    url.mkURL (url.Scheme requestURL)
      (nth 1 pathSplited EmptyString ++ ":" ++ nth 2 pathSplited EmptyString)
      (url.Host requestURL)
      (nth 0 pathSplited EmptyString)
  else requestURL.

(** Lines 72-99: the request that is written and kept in the [ConnRF]. *)
Definition buildRequest (scheme dest : string) (transportConfiguration : Config)
  : http.Request :=
  http.mkRequest http.MethodGet
    (encodePath (url.mkURL scheme EmptyString dest (GetNormalizedPath transportConfiguration)))
    (Host transportConfiguration)
    (requestHeader transportConfiguration).

(** The TLS settings of a stream: whether a client fingerprint is
    configured and, for that case, what [WebsocketHandshakeContext]
    returns.  The wrapped connection is modelled by the same script, read
    as plaintext. *)
Record TLSConfig : Type := mkTLS
  { Fingerprint : bool;
    WebsocketHandshakeContext : option liberr }.

Record MemoryStreamConfig : Type := mkStream
  { ProtocolSettings : Config;
    SecuritySettings : option TLSConfig }.

(** [dialhttpUpgrade(ctx, dest, streamSettings)].  [DialSystem] is the
    result of [internet.DialSystem]; [dest] is [dest.NetAddr()]. *)
Definition dialhttpUpgrade (L : GoLib) (DialSystem : liberr + net.Conn) (dest : string)
    (streamSettings : MemoryStreamConfig) : outcome (option ConnRF) :=
  let transportConfiguration := ProtocolSettings streamSettings in
  match DialSystem with
  | inl err => Return None (Some (StdErr err))
  | inr pconn =>
      let tlsResult :=
        match SecuritySettings streamSettings with
        | Some config =>
            if Fingerprint config then
              match WebsocketHandshakeContext config with
              | Some err => inl err
              | None => inr (pconn, "https")
              end
            else inr (pconn, "https")
        | None => inr (pconn, "http")
        end in
      match tlsResult with
      | inl err => Return None (Some (StdErr err))
      | inr (conn, scheme) =>
          let req := buildRequest scheme dest transportConfiguration in
          let '(err, conn) := http.Write (punycode L) req conn in
          match err with
          | Some err => Return None (Some (StdErr err))
          | None =>
              let connRF := mkConnRF conn req true in
              if (Ed transportConfiguration =? 0)%N then
                match Read L connRF emptySlice with
                | (Return _ (Some err), _) => Return None (Some err)
                | (Return _ None, connRF) => Return (Some connRF) None
                | (Panic msg, _) => Panic msg
                | (NoFuel, _) => NoFuel
                end
              else Return (Some connRF) None
          end
      end
  end.

(** [net.Destination] as [Dial] uses it.  [NetAddr] is the value of
    [dest.NetAddr()], which line 72 makes the host of the request URL.
    [String_] is the value of [dest.String()], the text that [errors.New]
    puts into a message for the destination (line 134); Go's name
    [String] is taken by the constructor of strings.  Both methods are
    declared outside [dialer.go]. *)
Record Destination : Type := mkDestination
  { NetAddr : string;
    String_ : string }.

(** [Dial(ctx, dest, streamSettings)] *)
Definition Dial (L : GoLib) (DialSystem : liberr + net.Conn) (dest : Destination)
    (streamSettings : MemoryStreamConfig) : outcome (option ConnRF) :=
  match dialhttpUpgrade L DialSystem (NetAddr dest) streamSettings with
  | Return _ (Some err) =>
      Return None (Some (NewErrBase ("failed to dial request to " ++ String_ dest) err))
  | r => r
  end.

(** *** Sample data *)

(** An instance of the parameters for traffic that never consults them
    (ASCII header values, no framing headers, ASCII hosts). *)
Definition plainLib : GoLib :=
  mkGoLib (fun s => s) (fun resp _ => inr resp) (fun _ => None).

Definition line (s : string) : string := s ++ CRLF.

(** The reply of a cooperating server. *)
Definition switchingProtocols : string :=
  line "HTTP/1.1 101 Switching Protocols" ++
  line "Upgrade: websocket" ++
  line "Connection: upgrade" ++
  CRLF.

Definition scripted (evs : list net.event) : net.Conn := net.mkConn evs None [].

Definition sampleRequest : http.Request :=
  buildRequest "http" "example.com:80" (mkConfig "example.com" "/" [] 0%N).

Definition pending (evs : list net.event) : ConnRF :=
  mkConnRF (scripted evs) sampleRequest true.

(** *** Sequences of reads *)

(** The reads [bs], issued one after the other on the [ConnRF]. *)
Fixpoint reads (L : GoLib) (c : ConnRF) (bs : list ByteSlice)
  : list (outcome string) * ConnRF :=
  match bs with
  | [] => ([], c)
  | b :: bs' =>
      let '(r, c1) := Read L c b in
      let '(rs, c2) := reads L c1 bs' in
      (r :: rs, c2)
  end.

(** The same reads issued on the bare connection. *)
Fixpoint rawReads (conn : net.Conn) (bs : list ByteSlice)
  : list (outcome string) * net.Conn :=
  match bs with
  | [] => ([], conn)
  | b :: bs' =>
      let '(data, e, conn1) := net.Read conn (len b) in
      let '(rs, conn2) := rawReads conn1 bs' in
      (Return data (liftErr e) :: rs, conn2)
  end.

(** *** The path steps as the specification words them

    The specification says of step 2 that a decoding failure is ignored
    and the later steps work on the undecoded string.  [encodePath_tolerant]
    is that reading, for comparison with [encodePath]. *)
Definition encodePath_tolerant (requestURL : url.URL) : url.URL :=
  let requestURL :=
    if String.eqb (url.Path requestURL) EmptyString
    then url.mkURL (url.Scheme requestURL) (url.Opaque requestURL) (url.Host requestURL) "GET"
    else requestURL in
  let pathUnescape :=
    match url.QueryUnescape (url.Path requestURL) with
    | (_, Some _) => url.Path requestURL
    | (s, None) => s
    end in
  let pathTrimmed := strings.TrimPrefix pathUnescape "/" in
  let pathReplace := strings.Replace pathTrimmed " " ":" 1 in
  let pathSplited := strings.Split pathReplace ":" in
  let pathLen := List.length pathSplited in
  if pathLen =? 2 then
    url.mkURL (url.Scheme requestURL) pathTrimmed (url.Host requestURL) (url.Path requestURL)
  else if pathLen =? 3 then
    url.mkURL (url.Scheme requestURL)
      (nth 1 pathSplited EmptyString ++ ":" ++ nth 2 pathSplited EmptyString)
      (url.Host requestURL)
      (nth 0 pathSplited EmptyString)
  else requestURL.

(** The split count of steps 2-5 for a path. *)
Definition splitCount (path : string) : nat :=
  List.length
    (strings.Split
       (strings.Replace (strings.TrimPrefix (fst (url.QueryUnescape path)) "/") " " ":" 1)
       ":").

(** *** The connection set-up of [dialhttpUpgrade] *)

(** The error of the TLS branch (lines 56-65), if it has one. *)
Definition handshakeError (streamSettings : MemoryStreamConfig) : option liberr :=
  match SecuritySettings streamSettings with
  | Some config => if Fingerprint config then WebsocketHandshakeContext config else None
  | None => None
  end.

(** [requestURL.Scheme] (lines 66 and 69). *)
Definition schemeOf (streamSettings : MemoryStreamConfig) : string :=
  match SecuritySettings streamSettings with
  | Some _ => "https"
  | None => "http"
  end.

(** The [ConnRF] of line 106: the request has been written, nothing has
    been read. *)
Definition written (pconn : net.Conn) (dest : string) (streamSettings : MemoryStreamConfig)
  : ConnRF :=
  mkConnRF (net.logged net.OpWrite pconn)
    (buildRequest (schemeOf streamSettings) dest (ProtocolSettings streamSettings))
    true.

(** The error, if any, of writing the request of this dial to [pconn]
    (line 101). *)
Definition writeError (L : GoLib) (pconn : net.Conn) (dest : string)
    (streamSettings : MemoryStreamConfig) : option liberr :=
  fst (http.Write (punycode L)
         (buildRequest (schemeOf streamSettings) dest (ProtocolSettings streamSettings))
         pconn).

(** The parse that the first read of [c] into [b] runs (lines 29-30). *)
Definition firstParse (L : GoLib) (c : ConnRF) (b : ByteSlice)
  : result bufio.Reader (liberr + http.Response) :=
  http.ReadResponse (framing L) (Req c) (bufio.NewReaderSize (Conn c) (len b)).

(** *** Invariants of the buffered reader *)

(** The bytes a script still holds. *)
Fixpoint scriptBytes (evs : list net.event) : string :=
  match evs with
  | [] => EmptyString
  | net.Seg d :: rest => d ++ scriptBytes rest
  | net.Failure _ :: rest => scriptBytes rest
  end.

(** The bytes still to be consumed through a reader, in order. *)
Definition stream (b : bufio.Reader) : string :=
  bufio.buf b ++ scriptBytes (net.incoming (bufio.rd b)).

(** A reader between two calls: no error is pending and the unread bytes
    fit the buffer. *)
Definition ok (b : bufio.Reader) : Prop :=
  bufio.err b = None /\ bufio.Buffered b <= bufio.size b /\ 2 <= bufio.size b.

(** [later b b']: [b'] is a state that reading from [b] can lead to.  The
    buffer size is kept, bytes are only consumed from the front of the
    stream, and the connection has only been read, if it was touched at
    all. *)
Definition later (b b' : bufio.Reader) : Prop :=
  bufio.size b' = bufio.size b
  /\ bufio.budget b' <= bufio.budget b
  /\ (exists pre, stream b = pre ++ stream b')
  /\ net.werr (bufio.rd b') = net.werr (bufio.rd b)
  /\ exists t,
       net.trace (bufio.rd b') = (t ++ net.trace (bufio.rd b))%list
       /\ forallb net.isRead t = true
       /\ (t = [] -> bufio.rd b' = bufio.rd b).

(** [returns m b Q]: run from [b], [m] returns normally with a value and
    a state that satisfy [Q]. *)
Definition returns {A : Type} (m : M bufio.Reader A) (b : bufio.Reader)
    (Q : A -> bufio.Reader -> Prop) : Prop :=
  exists a b', m b = Done a b' /\ Q a b'.

(** The connection after the first read of a reader of [n] bytes (at least
    [bufio]'s minimum) has taken the whole first segment. *)
Definition afterFirstRead (conn : net.Conn) (n : nat) (rest : list net.event) : net.Conn :=
  net.mkConn rest (net.werr conn)
    (net.OpRead (Nat.max n bufio.minReadBufferSize) :: net.trace conn).

(** *** A reply and what lies behind it *)

(** The reader [b] with the bytes [p] behind its unread bytes. *)
Definition pad (p : string) (b : bufio.Reader) : bufio.Reader :=
  bufio.setBuf (bufio.buf b ++ p) b.

(** [head] is a complete reply for a reader of [size] bytes over [conn]:
    a parse that starts with exactly [head] in the buffer takes all of it
    and returns the response [resp] without reading the connection. *)
Definition completeReply (L : GoLib) (req : http.Request) (conn : net.Conn) (size : nat)
    (head : string) (resp : http.Response) : Prop :=
  http.ReadResponse (framing L) req (bufio.mkReader conn head size None)
  = Done (inr resp) (bufio.mkReader conn EmptyString size None).

(** *** Vocabulary for the request that [dialhttpUpgrade] builds *)

(** The values that the configured headers give to the canonical key
    [key], in the order in which the loop of line 80 visits them. *)
Definition configuredValues (transportConfiguration : Config) (key : string)
  : list string :=
  List.map snd
    (List.filter
       (fun kv => String.eqb (textproto.CanonicalMIMEHeaderKey (fst kv)) key)
       (Header transportConfiguration)).

(** A piece of a path that the steps of lines 89-92 pass over: it has no
    escape (["%"], ["+"]), no space and no colon. *)
Definition plain (s : string) : bool :=
  negb (mem "%" s || mem "+" s || mem " " s || mem ":" s).

(** The bytes that a run of reads returned, when every one of them
    returned without error. *)
Fixpoint payloads (rs : list (outcome string)) : option string :=
  match rs with
  | [] => Some EmptyString
  | Return data None :: rs' => option_map (String.append data) (payloads rs')
  | _ => None
  end.

(** ** Strings as byte sequences *)

#[local] Arguments String.append !s1 s2 : simpl nomatch.

Lemma append_nil_r (s : string) : s ++ EmptyString = s.
Proof. induction s as [| c s IH]; simpl; [| rewrite IH]; reflexivity. Qed.

Lemma append_assoc (a b c : string) : (a ++ b) ++ c = a ++ (b ++ c).
Proof. induction a as [| x a IH]; simpl; [| rewrite IH]; reflexivity. Qed.

Lemma length_append (a b : string) :
  String.length (a ++ b) = String.length a + String.length b.
Proof. induction a as [| x a IH]; simpl; [| rewrite IH]; reflexivity. Qed.

Lemma length_zero (s : string) : String.length s = 0 -> s = EmptyString.
Proof. destruct s; simpl; [reflexivity | discriminate]. Qed.

Lemma append_inv_tail (c : string) : forall a b : string, a ++ c = b ++ c -> a = b.
Proof.
  induction a as [| x a IH]; intros [| y b] H; simpl in H.
  - reflexivity.
  - exfalso. apply (f_equal String.length) in H. simpl in H.
    rewrite length_append in H. lia.
  - exfalso. apply (f_equal String.length) in H. simpl in H.
    rewrite length_append in H. lia.
  - injection H as -> H. f_equal. apply IH. exact H.
Qed.

Lemma slice_to_from (n : nat) : forall s : string, slice_to n s ++ slice_from n s = s.
Proof.
  induction n as [| n IH]; intros [| c s]; simpl; try reflexivity.
  rewrite IH. reflexivity.
Qed.

Lemma length_slice_to (n : nat) :
  forall s : string, String.length (slice_to n s) = Nat.min n (String.length s).
Proof.
  induction n as [| n IH]; intros [| c s]; simpl; try reflexivity.
  rewrite IH. reflexivity.
Qed.

Lemma length_slice_from (n : nat) :
  forall s : string, String.length (slice_from n s) = String.length s - n.
Proof.
  induction n as [| n IH]; intros [| c s]; simpl; try reflexivity.
  apply IH.
Qed.

Lemma slice_to_all (n : nat) (s : string) : String.length s <= n -> slice_to n s = s.
Proof.
  revert s. induction n as [| n IH]; intros [| c s] H; simpl in *; try reflexivity.
  - lia.
  - rewrite IH by lia. reflexivity.
Qed.

Lemma slice_from_0 (s : string) : slice_from 0 s = s.
Proof. destruct s; reflexivity. Qed.

Lemma slice_from_all (n : nat) (s : string) :
  String.length s <= n -> slice_from n s = EmptyString.
Proof.
  intros H. apply length_zero. rewrite length_slice_from. lia.
Qed.

Lemma IndexByte_bound (c : ascii) :
  forall (s : string) (i : nat), strings.IndexByte s c = Some i -> i < String.length s.
Proof.
  induction s as [| d s IH]; intros i H; simpl in H; [discriminate |].
  destruct (Ascii.eqb d c).
  - injection H as <-. simpl. lia.
  - destruct (strings.IndexByte s c) as [j |]; [| discriminate].
    injection H as <-. specialize (IH j eq_refl). simpl. lia.
Qed.

Lemma lastByte_split (s : string) (c : ascii) :
  bufio.lastByte s = Some c -> s = bufio.dropLast 1 s ++ String c EmptyString.
Proof.
  unfold bufio.dropLast.
  induction s as [| d s IH]; intros H; [discriminate |].
  destruct s as [| d' s'].
  - simpl in H. injection H as ->. reflexivity.
  - specialize (IH H).
    change (String.length (String d (String d' s')) - 1) with (S (String.length s')).
    change (String.length (String d' s') - 1) with (String.length s' - 0) in IH.
    rewrite Nat.sub_0_r in IH.
    simpl. f_equal. exact IH.
Qed.

Lemma endsWith_split (s : string) (c : ascii) :
  bufio.endsWith c s = true -> s = bufio.dropLast 1 s ++ String c EmptyString.
Proof.
  unfold bufio.endsWith. intros H.
  destruct (bufio.lastByte s) as [d |] eqn:HL; [| discriminate].
  apply Ascii.eqb_eq in H. subst d. apply lastByte_split. exact HL.
Qed.

(** ** The connection script *)

Lemma scriptBytes_app (xs ys : list net.event) :
  scriptBytes (xs ++ ys) = scriptBytes xs ++ scriptBytes ys.
Proof.
  induction xs as [| [d | code] xs IH]; simpl; try exact IH; try reflexivity.
  rewrite IH, append_assoc. reflexivity.
Qed.

(** One read of the connection: it is logged, it takes bytes from the
    front of the script, and never more than asked for. *)
Lemma net_Read_spec (c : net.Conn) (n : nat) :
  forall data e c', net.Read c n = (data, e, c') ->
    net.werr c' = net.werr c
    /\ net.trace c' = net.OpRead n :: net.trace c
    /\ scriptBytes (net.incoming c) = data ++ scriptBytes (net.incoming c')
    /\ String.length data + net.avail (net.incoming c') <= net.avail (net.incoming c)
    /\ String.length data <= n
    /\ (e <> None -> data = EmptyString)
    /\ e <> Some bufio_ErrBufferFull.
Proof.
  intros data e c'. unfold net.Read, net.logged. simpl.
  destruct (n =? 0) eqn:Hn.
  { intros H. injection H as <- <- <-. simpl. repeat split; auto; try lia; discriminate. }
  destruct (net.incoming c) as [| [d | code] rest] eqn:Hin.
  - intros H. injection H as <- <- <-. simpl. repeat split; auto; try lia; discriminate.
  - intros H. injection H as <- <- <-. simpl.
    pose proof (slice_to_from (Nat.min n (String.length d)) d) as Hsplit.
    pose proof (length_slice_to (Nat.min n (String.length d)) d) as Hlt.
    pose proof (length_slice_from (Nat.min n (String.length d)) d) as Hlf.
    assert (Hlen : String.length d
                   = String.length (slice_to (Nat.min n (String.length d)) d)
                     + String.length (slice_from (Nat.min n (String.length d)) d)).
    { rewrite <- length_append, Hsplit. reflexivity. }
    destruct (slice_from (Nat.min n (String.length d)) d) as [| x left] eqn:Hleft.
    + rewrite append_nil_r in Hsplit. rewrite Hsplit. simpl in *.
      repeat split; auto; try lia; try discriminate. intros Hn0. contradiction.
    + cbn -[String.append]. rewrite <- append_assoc. rewrite Hsplit.
      repeat split; auto; try lia; try discriminate.
      * simpl in Hlen. lia.
      * intros Hn0. contradiction.
  - intros H. injection H as <- <- <-. simpl. repeat split; auto; try lia; discriminate.
Qed.

(** ** Reasoning about reader computations *)

Lemma returns_ret {A : Type} (a : A) (b : bufio.Reader) (Q : A -> bufio.Reader -> Prop) :
  Q a b -> returns (ret a) b Q.
Proof. intros H. exists a, b. split; [reflexivity | exact H]. Qed.

Lemma returns_bind {A B : Type} (m : M bufio.Reader A) (k : A -> M bufio.Reader B)
    (b : bufio.Reader) (Q : A -> bufio.Reader -> Prop) (Q' : B -> bufio.Reader -> Prop) :
  returns m b Q ->
  (forall a b', Q a b' -> returns (k a) b' Q') ->
  returns (bind m k) b Q'.
Proof.
  intros (a & b' & Hm & HQ) Hk.
  destruct (Hk a b' HQ) as (c & b'' & Hk' & HQ').
  exists c, b''. unfold bind. rewrite Hm. auto.
Qed.

Lemma returns_weaken {A : Type} (m : M bufio.Reader A) (b : bufio.Reader)
    (Q Q' : A -> bufio.Reader -> Prop) :
  returns m b Q -> (forall a b', Q a b' -> Q' a b') -> returns m b Q'.
Proof. intros (a & b' & Hm & HQ) H. exists a, b'. auto. Qed.

Lemma later_refl (b : bufio.Reader) : later b b.
Proof.
  unfold later. repeat split; auto.
  - exists EmptyString. reflexivity.
  - exists []. auto.
Qed.

Lemma later_trans (b1 b2 b3 : bufio.Reader) : later b1 b2 -> later b2 b3 -> later b1 b3.
Proof.
  intros (Hs1 & Hb1 & (p1 & Hp1) & Hw1 & t1 & Ht1 & Hr1 & Hn1)
         (Hs2 & Hb2 & (p2 & Hp2) & Hw2 & t2 & Ht2 & Hr2 & Hn2).
  unfold later. repeat split; try congruence; try lia.
  - exists (p1 ++ p2). rewrite Hp1, Hp2, append_assoc. reflexivity.
  - exists (t2 ++ t1)%list. repeat split.
    + rewrite Ht2, Ht1, List.app_assoc. reflexivity.
    + rewrite forallb_app, Hr1, Hr2. reflexivity.
    + intros Hnil. apply List.app_eq_nil in Hnil as [-> ->].
      rewrite Hn2, Hn1; reflexivity.
Qed.

(** A step that leaves the connection alone. *)
Lemma later_replace (b b1 b2 : bufio.Reader) (pre : string) :
  later b b1 ->
  bufio.rd b2 = bufio.rd b1 ->
  bufio.size b2 = bufio.size b1 ->
  bufio.budget b2 <= bufio.budget b ->
  stream b = pre ++ stream b2 ->
  later b b2.
Proof.
  intros (Hs1 & Hb1 & _ & Hw1 & t1 & Ht1 & Hr1 & Hn1) Hrd Hsz Hbud Hstr.
  unfold later. rewrite Hrd. repeat split; try congruence.
  - exists pre. exact Hstr.
  - exists t1. auto.
Qed.

Lemma later_local (b b' : bufio.Reader) (pre : string) :
  bufio.rd b' = bufio.rd b ->
  bufio.size b' = bufio.size b ->
  bufio.buf b = pre ++ bufio.buf b' ->
  later b b'.
Proof.
  intros Hrd Hsz Hbuf.
  apply (later_replace b b b' pre (later_refl b) Hrd Hsz).
  - unfold bufio.budget, bufio.Buffered. rewrite Hrd, Hbuf, length_append. lia.
  - unfold stream. rewrite Hrd, Hbuf, append_assoc. reflexivity.
Qed.

Lemma budget_local (b b' : bufio.Reader) :
  bufio.rd b' = bufio.rd b ->
  bufio.budget b' + bufio.Buffered b = bufio.budget b + bufio.Buffered b'.
Proof. intros H. unfold bufio.budget. rewrite H. lia. Qed.

(** ** [bufio]: every call returns, and keeps the reader in order *)

Lemma fill_loop_spec (i : nat) :
  forall b : bufio.Reader,
    bufio.err b = None ->
    bufio.Buffered b < bufio.size b ->
    let b' := bufio.fill_loop i b in
    later b b'
    /\ stream b' = stream b
    /\ bufio.Buffered b' <= bufio.size b'
    /\ bufio.err b' <> Some bufio_ErrBufferFull
    /\ ((bufio.err b' = None /\ bufio.Buffered b < bufio.Buffered b')
        \/ (bufio.err b' <> None /\ bufio.buf b' = bufio.buf b)).
Proof.
  induction i as [| i IH]; intros b He Hfree; cbv zeta.
  - simpl. split; [apply (later_local _ _ EmptyString); reflexivity |].
    split; [reflexivity |]. split; [simpl; unfold bufio.Buffered in *; simpl; lia |].
    split; [discriminate |].
    right. split; [discriminate | reflexivity].
  - simpl.
    destruct (net.Read (bufio.rd b) (bufio.size b - bufio.Buffered b))
      as [[data e] c] eqn:HR.
    destruct (net_Read_spec _ _ _ _ _ HR) as (Hw & Ht & Hsb & Hav & Hlen & Herr & Hnf).
    set (b1 := bufio.mkReader c (bufio.buf b ++ data) (bufio.size b) (bufio.err b)).
    assert (L1 : later b b1).
    { unfold later, b1, stream, bufio.budget, bufio.Buffered. simpl.
      rewrite length_append. repeat split; auto; try lia.
      - exists EmptyString. rewrite Hsb, append_assoc. reflexivity.
      - exists [net.OpRead (bufio.size b - String.length (bufio.buf b))].
        repeat split; auto. discriminate. }
    assert (S1 : stream b1 = stream b).
    { unfold b1, stream. simpl. rewrite Hsb, append_assoc. reflexivity. }
    assert (B1 : bufio.Buffered b1 <= bufio.size b1).
    { unfold b1, bufio.Buffered in *. simpl. rewrite length_append. lia. }
    destruct e as [e |].
    + assert (Hd : data = EmptyString) by (apply Herr; discriminate).
      split; [| split; [| split; [| split]]].
      * apply (later_trans _ b1); [exact L1 |].
        apply (later_local _ _ EmptyString); reflexivity.
      * exact S1.
      * exact B1.
      * exact Hnf.
      * right. split; [discriminate |]. simpl. subst data. apply append_nil_r.
    + destruct (0 <? String.length data) eqn:Hpos.
      * apply Nat.ltb_lt in Hpos.
        split; [exact L1 |]. split; [exact S1 |]. split; [exact B1 |].
        split; [simpl; rewrite He; discriminate |].
        left. split; [exact He |].
        unfold b1, bufio.Buffered. simpl. rewrite length_append. lia.
      * apply Nat.ltb_ge in Hpos.
        assert (Hd : data = EmptyString) by (apply length_zero; lia).
        assert (Hb1 : bufio.buf b1 = bufio.buf b).
        { unfold b1. simpl. subst data. apply append_nil_r. }
        assert (Hfree1 : bufio.Buffered b1 < bufio.size b1).
        { unfold bufio.Buffered in *. rewrite Hb1. exact Hfree. }
        destruct (IH b1 He Hfree1) as (L2 & S2 & B2 & N2 & HC).
        split; [apply (later_trans _ b1); assumption |].
        split; [congruence |]. split; [exact B2 |]. split; [exact N2 |].
        unfold bufio.Buffered in *. rewrite Hb1 in HC. exact HC.
Qed.

Lemma fill_spec (b : bufio.Reader) :
  bufio.err b = None ->
  bufio.Buffered b < bufio.size b ->
  returns bufio.fill b
    (fun _ b' =>
       later b b'
       /\ stream b' = stream b
       /\ bufio.Buffered b' <= bufio.size b'
       /\ bufio.err b' <> Some bufio_ErrBufferFull
       /\ ((bufio.err b' = None /\ bufio.Buffered b < bufio.Buffered b')
           \/ (bufio.err b' <> None /\ bufio.buf b' = bufio.buf b))).
Proof.
  intros He Hfree. unfold returns, bufio.fill.
  assert (Hle : (bufio.size b <=? bufio.Buffered b) = false) by (apply Nat.leb_gt; exact Hfree).
  rewrite Hle. exists tt, (bufio.fill_loop bufio.maxConsecutiveEmptyReads b).
  split; [reflexivity |]. apply fill_loop_spec; assumption.
Qed.

Lemma later_size (b b' : bufio.Reader) : later b b' -> bufio.size b' = bufio.size b.
Proof. intros H. apply H. Qed.

Lemma later_budget (b b' : bufio.Reader) :
  later b b' -> bufio.budget b' <= bufio.budget b.
Proof. intros H. apply H. Qed.

Lemma ReadSlice_loop_spec (delim : ascii) :
  forall (fuel : nat) (b : bufio.Reader) (s : nat),
    bufio.Buffered b <= bufio.size b ->
    bufio.err b <> Some bufio_ErrBufferFull ->
    (bufio.err b = None /\ bufio.size b - bufio.Buffered b <= fuel)
    \/ (bufio.err b <> None /\ bufio.Buffered b <= s) ->
    returns (bufio.ReadSlice_loop fuel delim s) b
      (fun r b' =>
         bufio.err b' = None
         /\ bufio.Buffered b' <= bufio.size b'
         /\ later b b'
         /\ stream b = fst r ++ stream b'
         /\ bufio.budget b' + String.length (fst r) <= bufio.budget b
         /\ (snd r = None -> 1 <= String.length (fst r))
         /\ (snd r = Some bufio_ErrBufferFull ->
             bufio.size b <= String.length (fst r) /\ bufio.buf b' = EmptyString)).
Proof.
  induction fuel as [| fuel IH]; intros b s Hfit Hnf Hpre;
    unfold returns; simpl;
    (destruct (strings.IndexByte (slice_from s (bufio.buf b)) delim) as [i |] eqn:Hidx;
     [ (* the delimiter is buffered *)
       pose proof (IndexByte_bound _ _ _ Hidx) as Hi;
       rewrite length_slice_from in Hi;
       assert (He : bufio.err b = None)
         by (destruct Hpre as [[He _] | [_ Hs]];
             [exact He | unfold bufio.Buffered in Hs; lia]);
       pose proof (slice_to_from (i + s + 1) (bufio.buf b)) as Hsplit;
       pose proof (length_slice_to (i + s + 1) (bufio.buf b)) as Hlt;
       assert (Hlen : String.length (bufio.buf b)
                      = String.length (slice_to (i + s + 1) (bufio.buf b))
                        + String.length (slice_from (i + s + 1) (bufio.buf b)))
         by (rewrite <- length_append, Hsplit; reflexivity);
       eexists; eexists; split; [reflexivity |]; simpl;
       split; [exact He |];
       split; [unfold bufio.Buffered in *; simpl; lia |];
       split; [apply (later_local _ _ (slice_to (i + s + 1) (bufio.buf b)));
               [reflexivity | reflexivity | simpl; symmetry; exact Hsplit] |];
       split; [unfold stream; simpl; rewrite <- append_assoc, Hsplit; reflexivity |];
       split; [unfold bufio.budget, bufio.Buffered; simpl; lia |];
       split; [intros _; lia | discriminate]
     | ]).
  - (* no fuel: the call returns without filling *)
    destruct (bufio.err b) as [e |] eqn:He.
    + eexists; eexists; split; [reflexivity |]; simpl.
      split; [reflexivity |]. split; [unfold bufio.Buffered; simpl; lia |].
      split; [apply (later_local _ _ (bufio.buf b));
              [reflexivity | reflexivity | simpl; symmetry; apply append_nil_r] |].
      split; [unfold stream; reflexivity |].
      split; [unfold bufio.budget, bufio.Buffered; simpl; lia |].
      split; [discriminate |]. intros H. injection H as ->. contradiction.
    + destruct Hpre as [[_ Hf] | [Hne _]]; [| contradiction].
      assert (Hfull : (bufio.size b <=? bufio.Buffered b) = true) by (apply Nat.leb_le; lia).
      rewrite Hfull.
      eexists; eexists; split; [reflexivity |]; simpl.
      split; [exact He |]. split; [unfold bufio.Buffered; simpl; lia |].
      split; [apply (later_local _ _ (bufio.buf b));
              [reflexivity | reflexivity | simpl; symmetry; apply append_nil_r] |].
      split; [unfold stream; reflexivity |].
      split; [unfold bufio.budget, bufio.Buffered; simpl; lia |].
      split; [discriminate |]. intros _.
      split; [unfold bufio.Buffered in *; lia | reflexivity].
  - destruct (bufio.err b) as [e |] eqn:He.
    + eexists; eexists; split; [reflexivity |]; simpl.
      split; [reflexivity |]. split; [unfold bufio.Buffered; simpl; lia |].
      split; [apply (later_local _ _ (bufio.buf b));
              [reflexivity | reflexivity | simpl; symmetry; apply append_nil_r] |].
      split; [unfold stream; reflexivity |].
      split; [unfold bufio.budget, bufio.Buffered; simpl; lia |].
      split; [discriminate |]. intros H. injection H as ->. contradiction.
    + destruct Hpre as [[_ Hf] | [Hne _]]; [| contradiction].
      destruct (bufio.size b <=? bufio.Buffered b) eqn:Hfull.
      * apply Nat.leb_le in Hfull.
        eexists; eexists; split; [reflexivity |]; simpl.
        split; [exact He |]. split; [unfold bufio.Buffered; simpl; lia |].
        split; [apply (later_local _ _ (bufio.buf b));
                [reflexivity | reflexivity | simpl; symmetry; apply append_nil_r] |].
        split; [unfold stream; reflexivity |].
        split; [unfold bufio.budget, bufio.Buffered; simpl; lia |].
        split; [discriminate |]. intros _.
        split; [unfold bufio.Buffered in *; lia | reflexivity].
      * apply Nat.leb_gt in Hfull.
        destruct (fill_spec b He Hfull) as ([] & b1 & Hfill & L1 & S1 & B1 & N1 & HC).
        unfold bind. rewrite Hfill.
        assert (Hsz : bufio.size b1 = bufio.size b) by (apply later_size; exact L1).
        assert (Hpre1 : (bufio.err b1 = None /\ bufio.size b1 - bufio.Buffered b1 <= fuel)
                        \/ (bufio.err b1 <> None /\ bufio.Buffered b1 <= bufio.Buffered b)).
        { destruct HC as [[He1 Hgrow] | [He1 Hsame]].
          - left. split; [exact He1 | lia].
          - right. split; [exact He1 |]. unfold bufio.Buffered. rewrite Hsame. lia. }
        destruct (IH b1 (bufio.Buffered b) B1 N1 Hpre1)
          as ([line e] & b2 & Hrun & E2 & B2 & L2 & S2 & Bud2 & Hn2 & Hf2).
        exists (line, e), b2. split; [exact Hrun |]. simpl in *.
        split; [exact E2 |]. split; [exact B2 |].
        split; [apply (later_trans _ b1); assumption |].
        split; [rewrite <- S1; exact S2 |].
        split; [pose proof (later_budget _ _ L1); lia |].
        split; [exact Hn2 |].
        intros Hfe. destruct (Hf2 Hfe) as [Hsize Hbuf]. split; [lia | exact Hbuf].
Qed.

Lemma ReadSlice_spec (delim : ascii) (b : bufio.Reader) :
  ok b ->
  returns (bufio.ReadSlice delim) b
    (fun r b' =>
       ok b'
       /\ later b b'
       /\ stream b = fst r ++ stream b'
       /\ bufio.budget b' + String.length (fst r) <= bufio.budget b
       /\ (snd r = None -> 1 <= String.length (fst r))
       /\ (snd r = Some bufio_ErrBufferFull ->
           bufio.size b <= String.length (fst r) /\ bufio.buf b' = EmptyString)).
Proof.
  intros (He & Hfit & Hsz). unfold bufio.ReadSlice.
  assert (Hnf : bufio.err b <> Some bufio_ErrBufferFull) by (rewrite He; discriminate).
  eapply returns_weaken.
  - apply (ReadSlice_loop_spec delim (S (bufio.size b)) b 0 Hfit Hnf).
    left. split; [exact He | lia].
  - intros [line e] b' (E & B & L & S' & Bud & Hn & Hf). simpl in *.
    split; [| auto].
    split; [exact E |]. split; [exact B |]. rewrite (later_size _ _ L). exact Hsz.
Qed.

Lemma ReadLine_spec (b : bufio.Reader) :
  ok b ->
  returns bufio.ReadLine b
    (fun r b' =>
       ok b' /\ later b b'
       /\ (snd r = None -> bufio.budget b' < bufio.budget b)).
Proof.
  intros Hok. unfold bufio.ReadLine.
  eapply returns_bind; [apply (ReadSlice_spec LF b Hok) |].
  intros [line e] b1 (Hok1 & L1 & S1 & Bud1 & Hn1 & Hf1). simpl in *.
  destruct Hok1 as (E1 & B1 & Z1).
  assert (Hsz : bufio.size b1 = bufio.size b) by (apply later_size; exact L1).
  assert (Hgen : forall (l : string) (more : bool) (e' : option liberr),
             (e' = None -> 1 <= String.length line) ->
             returns (ret (l, more, e')) b1
               (fun r b' => ok b' /\ later b b'
                            /\ (snd r = None -> bufio.budget b' < bufio.budget b))).
  { intros l more e' He'. apply returns_ret. simpl.
    split; [repeat split; assumption |]. split; [exact L1 |].
    intros H. specialize (He' H). lia. }
  destruct e as [e |].
  - destruct e;
      try (destruct line as [| c line'];
           [ apply Hgen; discriminate
           | destruct (bufio.endsWith LF (String c line'));
             apply Hgen; intros _; simpl; lia ]).
    (* the buffer is full and holds no newline *)
    destruct (Hf1 eq_refl) as [Hfull Hempty].
    destruct (bufio.endsWith CR line) eqn:Hcr.
    + pose proof (endsWith_split _ _ Hcr) as Hsplit.
      assert (Hlen : String.length line = String.length (bufio.dropLast 1 line) + 1).
      { rewrite Hsplit at 1. rewrite length_append. reflexivity. }
      eexists; eexists; split; [reflexivity |]. simpl.
      assert (Hbud : bufio.budget (bufio.setBuf (String CR (bufio.buf b1)) b1)
                     = S (bufio.budget b1)).
      { unfold bufio.budget, bufio.Buffered. simpl. reflexivity. }
      split; [| split].
      * split; [exact E1 |]. unfold bufio.Buffered. simpl. rewrite Hempty. simpl.
        split; lia.
      * apply (later_replace b b1 _ (bufio.dropLast 1 line) L1);
          [reflexivity | reflexivity | rewrite Hbud; lia |].
        rewrite S1. rewrite Hsplit at 1. rewrite append_assoc. reflexivity.
      * intros _. rewrite Hbud. lia.
    + apply Hgen. intros _. lia.
  - destruct line as [| c line'].
    + apply Hgen. intros _. apply Hn1. reflexivity.
    + destruct (bufio.endsWith LF (String c line')); apply Hgen; intros _; simpl; lia.
Qed.

Lemma ReadByte_spec (b : bufio.Reader) :
  ok b ->
  returns bufio.ReadByte b
    (fun r b' =>
       ok b' /\ later b b'
       /\ match r with
          | inl c =>
              bufio.Buffered b' < bufio.size b'
              /\ bufio.budget b' < bufio.budget b
              /\ exists pre, stream b = pre ++ String c (stream b')
          | inr _ => True
          end).
Proof.
  intros (He & Hfit & Hsz).
  assert (Hcons : forall b0 c rest,
             later b b0 -> bufio.err b0 = None -> bufio.Buffered b0 <= bufio.size b0 ->
             bufio.buf b0 = String c rest ->
             ok (bufio.setBuf rest b0) /\ later b (bufio.setBuf rest b0)
             /\ bufio.Buffered (bufio.setBuf rest b0) < bufio.size (bufio.setBuf rest b0)
             /\ bufio.budget (bufio.setBuf rest b0) < bufio.budget b
             /\ exists pre, stream b = pre ++ String c (stream (bufio.setBuf rest b0))).
  { intros b0 c rest L0 E0 B0 Hbuf.
    pose proof (later_size _ _ L0) as Hs0. pose proof (later_budget _ _ L0) as Hb0.
    assert (HB : bufio.budget (bufio.setBuf rest b0) < bufio.budget b0).
    { unfold bufio.budget, bufio.Buffered. simpl. rewrite Hbuf. simpl. lia. }
    unfold bufio.Buffered in B0. rewrite Hbuf in B0. simpl in B0.
    split; [split; [exact E0 | unfold bufio.Buffered; simpl; split; lia] |].
    split; [apply (later_trans _ b0); [exact L0 |];
            apply (later_local _ _ (String c EmptyString));
            [reflexivity | reflexivity | simpl; exact Hbuf] |].
    split; [unfold bufio.Buffered; simpl; lia |].
    split; [lia |].
    destruct L0 as (_ & _ & (pre & Hpre) & _).
    exists pre. rewrite Hpre. unfold stream. simpl. rewrite Hbuf. reflexivity. }
  unfold returns, bufio.ReadByte. simpl.
  destruct (bufio.buf b) as [| c rest] eqn:Hbuf.
  - rewrite He.
    assert (Hfree : bufio.Buffered b < bufio.size b)
      by (unfold bufio.Buffered; rewrite Hbuf; simpl; lia).
    destruct (fill_spec b He Hfree) as ([] & b1 & Hfill & L1 & S1 & B1 & N1 & HC).
    unfold bind. rewrite Hfill. simpl.
    destruct (bufio.buf b1) as [| c rest] eqn:Hbuf1.
    + destruct HC as [[_ Hgrow] | [He1 _]].
      * unfold bufio.Buffered in Hgrow. rewrite Hbuf1 in Hgrow. simpl in Hgrow. lia.
      * destruct (bufio.err b1) as [e |]; [| contradiction].
        eexists; eexists; split; [reflexivity |]. simpl.
        pose proof (later_size _ _ L1) as Hs1.
        split; [split; [reflexivity |]; unfold bufio.Buffered; simpl;
                rewrite Hbuf1; simpl; split; lia |].
        split; [| exact I].
        apply (later_trans _ b1); [exact L1 |].
        apply (later_local _ _ EmptyString); reflexivity.
    + destruct HC as [[He1 _] | [He1 Hsame]].
      * eexists; eexists; split; [reflexivity |].
        apply (Hcons b1 c rest L1 He1 B1 Hbuf1).
      * rewrite Hbuf in Hsame. discriminate Hsame.
  - eexists; eexists; split; [reflexivity |].
    apply (Hcons b c rest (later_refl b) He Hfit Hbuf).
Qed.

Lemma Peek_loop_spec (n : nat) :
  forall (fuel : nat) (b : bufio.Reader),
    bufio.Buffered b <= bufio.size b ->
    (bufio.err b = None /\ bufio.size b - bufio.Buffered b <= fuel)
    \/ (bufio.err b <> None /\ bufio.Buffered b < n) ->
    returns (bufio.Peek_loop fuel n) b
      (fun _ b' =>
         bufio.Buffered b' <= bufio.size b'
         /\ later b b'
         /\ stream b' = stream b
         /\ (bufio.err b' <> None -> bufio.Buffered b' < n)).
Proof.
  induction fuel as [| fuel IH]; intros b Hfit Hpre; unfold returns; simpl.
  - destruct ((bufio.Buffered b <? n) && (bufio.Buffered b <? bufio.size b)
              && bufio.isNone (bufio.err b)) eqn:Hcond.
    + exfalso. apply andb_true_iff in Hcond as [Hc He].
      apply andb_true_iff in Hc as [_ Hc]. apply Nat.ltb_lt in Hc.
      destruct Hpre as [[_ Hf] | [Hne _]]; [lia |].
      destruct (bufio.err b); [discriminate He | contradiction].
    + eexists; eexists; split; [reflexivity |].
      split; [exact Hfit |]. split; [apply later_refl |]. split; [reflexivity |].
      intros Hne. destruct Hpre as [[He _] | [_ Hlt]]; [contradiction | exact Hlt].
  - destruct ((bufio.Buffered b <? n) && (bufio.Buffered b <? bufio.size b)
              && bufio.isNone (bufio.err b)) eqn:Hcond.
    + apply andb_true_iff in Hcond as [Hc He].
      apply andb_true_iff in Hc as [Hn Hc].
      apply Nat.ltb_lt in Hc. apply Nat.ltb_lt in Hn.
      assert (He' : bufio.err b = None) by (destruct (bufio.err b); [discriminate | reflexivity]).
      destruct Hpre as [[_ Hf] | [Hne _]]; [| contradiction].
      destruct (fill_spec b He' Hc) as ([] & b1 & Hfill & L1 & S1 & B1 & N1 & HC).
      unfold bind. rewrite Hfill.
      pose proof (later_size _ _ L1) as Hs1.
      assert (Hpre1 : (bufio.err b1 = None /\ bufio.size b1 - bufio.Buffered b1 <= fuel)
                      \/ (bufio.err b1 <> None /\ bufio.Buffered b1 < n)).
      { destruct HC as [[He1 Hgrow] | [He1 Hsame]].
        - left. split; [exact He1 | lia].
        - right. split; [exact He1 |]. unfold bufio.Buffered in *. rewrite Hsame. exact Hn. }
      destruct (IH b1 B1 Hpre1) as ([] & b2 & Hrun & B2 & L2 & S2 & Hn2).
      exists tt, b2. split; [exact Hrun |].
      split; [exact B2 |]. split; [apply (later_trans _ b1); assumption |].
      split; [congruence | exact Hn2].
    + eexists; eexists; split; [reflexivity |].
      split; [exact Hfit |]. split; [apply later_refl |]. split; [reflexivity |].
      intros Hne. destruct Hpre as [[He _] | [_ Hlt]]; [contradiction | exact Hlt].
Qed.

Lemma Peek_spec (n : nat) (b : bufio.Reader) :
  ok b ->
  n <= bufio.size b ->
  returns (bufio.Peek n) b
    (fun r b' => ok b' /\ later b b' /\ stream b' = stream b
                 /\ bufio.buf b' = fst r ++ slice_from n (bufio.buf b')).
Proof.
  intros (He & Hfit & Hsz) Hn. unfold bufio.Peek.
  eapply returns_bind.
  - apply (Peek_loop_spec n (S (bufio.size b)) b Hfit). left. split; [exact He | lia].
  - intros [] b1 (B1 & L1 & S1 & Hn1). unfold returns.
    pose proof (later_size _ _ L1) as Hs1.
    assert (Hlt : (bufio.size b1 <? n) = false) by (apply Nat.ltb_ge; lia).
    rewrite Hlt.
    destruct (bufio.Buffered b1 <? n) eqn:Hshort.
    + eexists; eexists; split; [reflexivity |]. simpl.
      split; [split; [reflexivity |]; unfold bufio.Buffered in *; simpl; split; lia |].
      split; [apply (later_trans _ b1); [exact L1 |];
              apply (later_local _ _ EmptyString); reflexivity |].
      split; [exact S1 |].
      apply Nat.ltb_lt in Hshort.
      rewrite slice_from_all by (unfold bufio.Buffered in Hshort; lia).
      symmetry. apply append_nil_r.
    + apply Nat.ltb_ge in Hshort.
      eexists; eexists; split; [reflexivity |]. simpl.
      split; [split; [| split; [exact B1 | lia]] |].
      * destruct (bufio.err b1) as [e |] eqn:He1; [| reflexivity].
        assert (Hc : bufio.Buffered b1 < n) by (apply Hn1; discriminate). lia.
      * split; [exact L1 |]. split; [exact S1 |].
        symmetry. apply slice_to_from.
Qed.

(** ** [textproto] and [http]: every call returns *)

Lemma readLineSlice_loop_spec (lim : option nat) :
  forall (fuel : nat) (line : string) (b : bufio.Reader),
    ok b ->
    bufio.budget b < fuel ->
    returns (textproto.readLineSlice_loop fuel lim line) b
      (fun r b' =>
         ok b' /\ later b b'
         /\ (snd r = None -> bufio.budget b' < bufio.budget b)).
Proof.
  induction fuel as [| fuel IH]; intros line b Hok Hfuel; [lia |].
  simpl. eapply returns_bind; [apply (ReadLine_spec b Hok) |].
  intros [[l more] e] b1 (Hok1 & L1 & Hdec). simpl in Hdec.
  destruct e as [e |].
  - apply returns_ret. simpl. split; [exact Hok1 |]. split; [exact L1 | discriminate].
  - specialize (Hdec eq_refl).
    destruct (textproto.overLimit lim (String.length line + String.length l)).
    + apply returns_ret. simpl. split; [exact Hok1 |]. split; [exact L1 | discriminate].
    + destruct more.
      * eapply returns_weaken; [apply (IH (line ++ l) b1 Hok1); lia |].
        intros r b2 (Hok2 & L2 & Hdec2).
        split; [exact Hok2 |]. split; [apply (later_trans _ b1); assumption |].
        intros Hr. specialize (Hdec2 Hr). lia.
      * apply returns_ret. simpl. split; [exact Hok1 |]. split; [exact L1 |].
        intros _. exact Hdec.
Qed.

Lemma readLineSlice_spec (lim : option nat) (b : bufio.Reader) :
  ok b ->
  returns (textproto.readLineSlice lim) b
    (fun r b' =>
       ok b' /\ later b b'
       /\ (snd r = None -> bufio.budget b' < bufio.budget b)).
Proof.
  intros Hok. unfold textproto.readLineSlice.
  apply readLineSlice_loop_spec; [exact Hok | lia].
Qed.

Lemma skipSpace_loop_spec :
  forall (fuel n : nat) (b : bufio.Reader),
    ok b ->
    bufio.budget b < fuel ->
    returns (textproto.skipSpace_loop fuel n) b
      (fun n' b' =>
         ok b' /\ later b b' /\ bufio.budget b' + n' <= bufio.budget b + n).
Proof.
  induction fuel as [| fuel IH]; intros n b Hok Hfuel; [lia |].
  simpl. eapply returns_bind; [apply (ReadByte_spec b Hok) |].
  intros [c | e] b1 (Hok1 & L1 & Hr).
  - destruct Hr as (Hroom & Hdec & pre & Hpre).
    destruct (textproto.isSpaceOrTab c).
    + eapply returns_weaken; [apply (IH (S n) b1 Hok1); lia |].
      intros n' b2 (Hok2 & L2 & Hbud).
      split; [exact Hok2 |]. split; [apply (later_trans _ b1); assumption | lia].
    + unfold bufio.UnreadByte, returns, bind, ret.
      eexists; eexists; split; [reflexivity |].
      destruct Hok1 as (E1 & B1 & Z1).
      assert (Hbud : bufio.budget (bufio.setBuf (String c (bufio.buf b1)) b1)
                     = S (bufio.budget b1)) by reflexivity.
      split; [split; [exact E1 |]; unfold bufio.Buffered in *; simpl; split; lia |].
      split; [| rewrite Hbud; lia].
      apply (later_replace b b1 _ pre L1); [reflexivity | reflexivity | rewrite Hbud; lia |].
      exact Hpre.
  - apply returns_ret. split; [exact Hok1 |]. split; [exact L1 |].
    pose proof (later_budget _ _ L1). lia.
Qed.

Lemma skipSpace_spec (b : bufio.Reader) :
  ok b ->
  returns textproto.skipSpace b
    (fun n b' => ok b' /\ later b b' /\ bufio.budget b' + n <= bufio.budget b).
Proof.
  intros Hok. unfold textproto.skipSpace.
  eapply returns_weaken; [apply (skipSpace_loop_spec _ 0 b Hok); lia |].
  intros n b' (Hok' & L & Hbud). split; [exact Hok' |]. split; [exact L | lia].
Qed.

Lemma continuation_loop_spec :
  forall (fuel : nat) (acc : string) (b : bufio.Reader),
    ok b ->
    bufio.budget b < fuel ->
    returns (textproto.continuation_loop fuel acc) b
      (fun _ b' => ok b' /\ later b b').
Proof.
  induction fuel as [| fuel IH]; intros acc b Hok Hfuel; [lia |].
  simpl. eapply returns_bind; [apply (skipSpace_spec b Hok) |].
  intros n b1 (Hok1 & L1 & Hbud).
  destruct (0 <? n) eqn:Hn.
  - apply Nat.ltb_lt in Hn.
    eapply returns_bind; [apply (readLineSlice_spec None b1 Hok1) |].
    intros [line e] b2 (Hok2 & L2 & _).
    pose proof (later_budget _ _ L2) as Hb2.
    destruct e as [e |].
    + apply returns_ret. split; [exact Hok2 |].
      apply (later_trans _ b1); assumption.
    + eapply returns_weaken; [apply (IH _ b2 Hok2); lia |].
      intros r b3 (Hok3 & L3). split; [exact Hok3 |].
      apply (later_trans _ b1); [exact L1 |]. apply (later_trans _ b2); assumption.
  - apply returns_ret. split; assumption.
Qed.

Lemma readContinuedLineSlice_spec (b : bufio.Reader) :
  ok b ->
  returns textproto.readContinuedLineSlice b
    (fun r b' =>
       ok b' /\ later b b'
       /\ (fst r <> EmptyString -> bufio.budget b' < bufio.budget b)).
Proof.
  intros Hok. unfold textproto.readContinuedLineSlice.
  eapply returns_bind; [apply (readLineSlice_spec None b Hok) |].
  intros [line e] b1 (Hok1 & L1 & Hdec). simpl in Hdec.
  assert (Hnil : forall e' : option liberr,
             returns (ret (EmptyString, e')) b1
               (fun r b' => ok b' /\ later b b'
                            /\ (fst r <> EmptyString -> bufio.budget b' < bufio.budget b))).
  { intros e'. apply returns_ret. simpl. split; [exact Hok1 |]. split; [exact L1 |].
    intros H. contradiction. }
  destruct e as [e |]; [apply Hnil |].
  specialize (Hdec eq_refl).
  destruct line as [| c line']; [apply Hnil |].
  destruct (textproto.mustHaveFieldNameColon (String c line')); [apply Hnil |].
  assert (Hslow : forall b2, ok b2 -> later b1 b2 ->
             returns (fun b0 => textproto.continuation_loop (S (bufio.budget b0))
                                  (textproto.trim (String c line')) b0) b2
               (fun r b' => ok b' /\ later b b'
                            /\ (fst r <> EmptyString -> bufio.budget b' < bufio.budget b))).
  { intros b2 Hok2 L2.
    eapply returns_weaken; [apply (continuation_loop_spec _ _ b2 Hok2); lia |].
    intros r b3 (Hok3 & L3). split; [exact Hok3 |].
    split; [apply (later_trans _ b1); [exact L1 |]; apply (later_trans _ b2); assumption |].
    intros _. pose proof (later_budget _ _ L2). pose proof (later_budget _ _ L3). lia. }
  unfold returns.
  destruct (1 <? bufio.Buffered b1).
  - assert (H2 : 2 <= bufio.size b1) by apply Hok1.
    apply (returns_bind _ _ _ _ _ (Peek_spec 2 b1 Hok1 H2)).
    intros p b2 (Hok2 & L2 & _).
    destruct (textproto.nextLineIsNotContinuation (fst p)).
    + apply returns_ret. simpl. split; [exact Hok2 |].
      split; [apply (later_trans _ b1); assumption |].
      intros _. pose proof (later_budget _ _ L2). lia.
    + apply Hslow; assumption.
  - apply Hslow; [exact Hok1 | apply later_refl].
Qed.

Lemma readMIMEHeader_loop_spec :
  forall (fuel : nat) (m : textproto.MIMEHeader) (b : bufio.Reader),
    ok b ->
    bufio.budget b < fuel ->
    returns (textproto.readMIMEHeader_loop fuel m) b
      (fun _ b' => ok b' /\ later b b').
Proof.
  induction fuel as [| fuel IH]; intros m b Hok Hfuel; [lia |].
  simpl. eapply returns_bind; [apply (readContinuedLineSlice_spec b Hok) |].
  intros [kv e] b1 (Hok1 & L1 & Hdec). simpl in Hdec.
  assert (Hret : forall r : textproto.MIMEHeader * option liberr,
             returns (ret r) b1 (fun _ b' => ok b' /\ later b b')).
  { intros r. apply returns_ret. split; assumption. }
  assert (Hrec : forall m' : textproto.MIMEHeader,
             kv <> EmptyString ->
             returns (textproto.readMIMEHeader_loop fuel m') b1
               (fun _ b' => ok b' /\ later b b')).
  { intros m' Hkv. specialize (Hdec Hkv).
    eapply returns_weaken; [apply (IH m' b1 Hok1); lia |].
    intros r b2 (Hok2 & L2). split; [exact Hok2 |].
    apply (later_trans _ b1); assumption. }
  destruct kv as [| c kv']; [apply Hret |].
  destruct (strings.Cut (String c kv') ":") as [[k v] okc].
  destruct (negb okc); [apply Hret |].
  destruct (textproto.canonicalMIMEHeaderKey k) as [key okk].
  destruct (negb okk); [apply Hret |].
  destruct (negb (textproto.allBytes textproto.validHeaderValueByte v)); [apply Hret |].
  destruct key as [| k0 key']; [apply Hrec; discriminate |].
  destruct e as [e |]; [apply Hret | apply Hrec; discriminate].
Qed.

Lemma ReadMIMEHeader_spec (b : bufio.Reader) :
  ok b ->
  returns textproto.ReadMIMEHeader b (fun _ b' => ok b' /\ later b b').
Proof.
  intros Hok. unfold textproto.ReadMIMEHeader, textproto.upcomingHeaderKeys.
  assert (H1 : 1 <= bufio.size b) by (destruct Hok as (_ & _ & H); lia).
  apply (returns_bind _ _ b (fun _ b1 => ok b1 /\ later b b1)).
  { eapply returns_bind; [apply (Peek_spec 1 b Hok H1) |].
    intros p b1 (Hk & L & _). apply returns_ret. split; assumption. }
  intros [] b1 (Hok1 & L1).
  assert (H1' : 1 <= bufio.size b1) by (destruct Hok1 as (_ & _ & H); lia).
  eapply returns_bind; [apply (Peek_spec 1 b1 Hok1 H1') |].
  intros p b2 (Hok2 & L2 & _).
  assert (L02 : later b b2) by (apply (later_trans _ b1); assumption).
  assert (Hloop : returns (fun b0 => textproto.readMIMEHeader_loop (S (bufio.budget b0)) ∅ b0) b2
                    (fun _ b' => ok b' /\ later b b')).
  { eapply returns_weaken; [apply (readMIMEHeader_loop_spec _ _ b2 Hok2); lia |].
    intros r b3 (Hok3 & L3). split; [exact Hok3 |].
    apply (later_trans _ b2); assumption. }
  destruct p as [[| c s] [e |]]; try exact Hloop.
  destruct (textproto.isSpaceOrTab c); [| exact Hloop].
  eapply returns_bind; [apply (readLineSlice_spec (Some 80) b2 Hok2) |].
  intros r b3 (Hok3 & L3 & _).
  destruct (snd r); apply returns_ret; (split; [exact Hok3 |]);
    apply (later_trans _ b2); assumption.
Qed.

(** [http.ReadResponse] always returns: no loop of the model is cut off
    and no panic of [bufio] is reached.  The reader it leaves has no
    pending error and holds no more bytes than its size. *)
Lemma ReadResponse_spec (framing : http.Framing) (req : http.Request) (b : bufio.Reader) :
  ok b ->
  returns (http.ReadResponse framing req) b (fun _ b' => ok b' /\ later b b').
Proof.
  intros Hok. unfold http.ReadResponse, textproto.ReadLine.
  eapply returns_bind; [apply (readLineSlice_spec None b Hok) |].
  intros [line e] b1 (Hok1 & L1 & _).
  assert (Hret : forall r : liberr + http.Response,
             returns (ret r) b1 (fun _ b' => ok b' /\ later b b')).
  { intros r. apply returns_ret. split; assumption. }
  destruct e as [e |]; [apply Hret |].
  destruct (strings.Cut line " ") as [[proto status] okc].
  destruct (negb okc); [apply Hret |].
  destruct (strings.Cut (strings.TrimLeft status " ") " ") as [[statusCode x] y].
  destruct (negb (String.length statusCode =? 3)); [apply Hret |].
  destruct (http.Atoi statusCode) as [code |]; [| apply Hret].
  destruct (code <? 0)%Z; [apply Hret |].
  destruct (http.ParseHTTPVersion proto) as [[major minor] |]; [| apply Hret].
  eapply returns_bind; [apply (ReadMIMEHeader_spec b1 Hok1) |].
  intros [mimeHeader e] b2 (Hok2 & L2).
  destruct e as [e |]; apply returns_ret;
    (split; [exact Hok2 | apply (later_trans _ b1); assumption]).
Qed.

(** ** The bounds of the loops do not matter once they are large enough *)

Lemma ReadSlice_loop_fuel (delim : ascii) :
  forall (fuel fuel' : nat) (b : bufio.Reader) (s : nat),
    bufio.Buffered b <= bufio.size b ->
    (bufio.err b = None /\ bufio.size b - bufio.Buffered b <= fuel)
    \/ (bufio.err b <> None /\ bufio.Buffered b <= s) ->
    (bufio.err b = None /\ bufio.size b - bufio.Buffered b <= fuel')
    \/ (bufio.err b <> None /\ bufio.Buffered b <= s) ->
    bufio.ReadSlice_loop fuel delim s b = bufio.ReadSlice_loop fuel' delim s b.
Proof.
  induction fuel as [| fuel IH]; intros fuel' b s Hfit Hpre Hpre';
    destruct fuel' as [| fuel']; simpl; try reflexivity;
    destruct (strings.IndexByte (slice_from s (bufio.buf b)) delim); try reflexivity;
    destruct (bufio.err b) as [e |] eqn:He; try reflexivity;
    destruct (bufio.size b <=? bufio.Buffered b) eqn:Hfull; try reflexivity;
    apply Nat.leb_gt in Hfull.
  - destruct Hpre as [[_ Hf] | [Hne _]]; [lia | contradiction].
  - destruct Hpre' as [[_ Hf] | [Hne _]]; [lia | contradiction].
  - destruct Hpre as [[_ Hf] | [Hne _]]; [| contradiction].
    destruct Hpre' as [[_ Hf'] | [Hne _]]; [| contradiction].
    destruct (fill_spec b He Hfull) as ([] & b1 & Hfill & L1 & S1 & B1 & N1 & HC).
    unfold bind. rewrite Hfill.
    pose proof (later_size _ _ L1) as Hsz.
    apply IH; [exact B1 | |];
      (destruct HC as [[He1 Hgrow] | [He1 Hsame]];
       [ left; split; [exact He1 | lia]
       | right; split; [exact He1 |]; unfold bufio.Buffered; rewrite Hsame; lia ]).
Qed.

Lemma readLineSlice_loop_fuel (lim : option nat) :
  forall (fuel fuel' : nat) (line : string) (b : bufio.Reader),
    ok b ->
    bufio.budget b < fuel ->
    bufio.budget b < fuel' ->
    textproto.readLineSlice_loop fuel lim line b
    = textproto.readLineSlice_loop fuel' lim line b.
Proof.
  induction fuel as [| fuel IH]; intros fuel' line b Hok Hf Hf'; [lia |].
  destruct fuel' as [| fuel']; [lia |].
  simpl. unfold bind.
  destruct (ReadLine_spec b Hok) as ([[l more] e] & b1 & Hrun & Hok1 & L1 & Hdec).
  rewrite Hrun. simpl in Hdec.
  destruct e as [e |]; [reflexivity |].
  destruct (textproto.overLimit lim (String.length line + String.length l)); [reflexivity |].
  destruct more; [| reflexivity].
  specialize (Hdec eq_refl). apply IH; [exact Hok1 | lia | lia].
Qed.

(** ** The first fill

    A reader starts empty, so the first thing the parse does is one read
    of the connection for as many bytes as the reader is large.  When the
    first segment fits, the parse goes on exactly as from a reader that
    holds the whole segment. *)

Lemma net_Read_whole_segment (c : net.Conn) (n : nat) (seg : string) (rest : list net.event) :
  net.incoming c = net.Seg seg :: rest ->
  seg <> EmptyString ->
  String.length seg <= n ->
  net.Read c n = (seg, None, net.mkConn rest (net.werr c) (net.OpRead n :: net.trace c)).
Proof.
  intros Hin Hne Hlen. unfold net.Read, net.logged.
  cbn [net.incoming net.werr net.trace].
  assert (Hpos : 0 < String.length seg) by (destruct seg; [contradiction | simpl; lia]).
  destruct (n =? 0) eqn:Hz; [apply Nat.eqb_eq in Hz; lia |].
  rewrite Hin, (Nat.min_r _ _ Hlen).
  rewrite (slice_from_all _ seg (le_n _)), (slice_to_all _ seg (le_n _)).
  reflexivity.
Qed.

Lemma fill_loop_step (i : nat) (b : bufio.Reader) :
  bufio.fill_loop (S i) b =
    let '(data, e, c) := net.Read (bufio.rd b) (bufio.size b - bufio.Buffered b) in
    let b' := bufio.mkReader c (bufio.buf b ++ data) (bufio.size b) (bufio.err b) in
    match e with
    | Some e => bufio.setErr (Some e) b'
    | None => if 0 <? String.length data then b' else bufio.fill_loop i b'
    end.
Proof. reflexivity. Qed.

Lemma first_fill (conn : net.Conn) (n : nat) (seg : string) (rest : list net.event) :
  net.incoming conn = net.Seg seg :: rest ->
  seg <> EmptyString ->
  String.length seg <= Nat.max n bufio.minReadBufferSize ->
  bufio.fill (bufio.NewReaderSize conn n)
  = Done tt (bufio.mkReader (afterFirstRead conn n rest) seg
               (Nat.max n bufio.minReadBufferSize) None).
Proof.
  intros Hin Hne Hlen.
  assert (Hsz : 16 <= Nat.max n bufio.minReadBufferSize)
    by (unfold bufio.minReadBufferSize; lia).
  assert (Hpos : (0 <? String.length seg) = true).
  { apply Nat.ltb_lt. destruct seg; [contradiction | simpl; lia]. }
  unfold bufio.fill, bufio.NewReaderSize, bufio.Buffered, bufio.maxConsecutiveEmptyReads.
  cbn [bufio.size bufio.buf String.length].
  destruct (Nat.max n bufio.minReadBufferSize <=? 0) eqn:Hz;
    [apply Nat.leb_le in Hz; lia |].
  rewrite fill_loop_step. unfold bufio.Buffered.
  cbn [bufio.rd bufio.size bufio.buf bufio.err String.length].
  rewrite Nat.sub_0_r.
  rewrite (net_Read_whole_segment conn _ seg rest Hin Hne Hlen).
  cbv zeta. rewrite Hpos. reflexivity.
Qed.

Lemma filled_ok (conn : net.Conn) (seg : string) (size : nat) :
  String.length seg <= size -> 16 <= size ->
  ok (bufio.mkReader conn seg size None).
Proof. intros H1 H2. unfold ok, bufio.Buffered. simpl. repeat split; auto; lia. Qed.

Lemma NewReaderSize_ok (conn : net.Conn) (n : nat) : ok (bufio.NewReaderSize conn n).
Proof.
  unfold ok, bufio.NewReaderSize, bufio.Buffered, bufio.minReadBufferSize. simpl.
  repeat split; auto; lia.
Qed.

Lemma ReadSlice_loop_empty (fuel : nat) (delim : ascii) (b : bufio.Reader) :
  bufio.buf b = EmptyString ->
  bufio.err b = None ->
  bufio.Buffered b < bufio.size b ->
  bufio.ReadSlice_loop (S fuel) delim 0 b
  = bind bufio.fill (fun _ => bufio.ReadSlice_loop fuel delim (bufio.Buffered b)) b.
Proof.
  intros Hbuf He Hfree.
  cbn [bufio.ReadSlice_loop]. rewrite Hbuf, He.
  cbn [slice_from strings.IndexByte].
  assert (Hnf : (bufio.size b <=? bufio.Buffered b) = false) by (apply Nat.leb_gt; exact Hfree).
  rewrite Hnf. reflexivity.
Qed.

Lemma ReadResponse_first_fill
    (framing : http.Framing) (req : http.Request)
    (conn : net.Conn) (n : nat) (seg : string) (rest : list net.event) :
  net.incoming conn = net.Seg seg :: rest ->
  seg <> EmptyString ->
  String.length seg <= Nat.max n bufio.minReadBufferSize ->
  http.ReadResponse framing req (bufio.NewReaderSize conn n)
  = http.ReadResponse framing req
      (bufio.mkReader (afterFirstRead conn n rest) seg
         (Nat.max n bufio.minReadBufferSize) None).
Proof.
  intros Hin Hne Hlen.
  remember (Nat.max n bufio.minReadBufferSize) as size eqn:Hsize.
  assert (Hsz : 16 <= size) by (subst size; unfold bufio.minReadBufferSize; lia).
  remember (bufio.mkReader (afterFirstRead conn n rest) seg size None) as b1 eqn:Hb1.
  assert (Hok1 : ok b1) by (subst b1; apply filled_ok; assumption).
  assert (Hs1 : bufio.size b1 = size) by (subst b1; reflexivity).
  assert (Hbuf1 : bufio.Buffered b1 = String.length seg) by (subst b1; reflexivity).
  assert (He1 : bufio.err b1 = None) by (subst b1; reflexivity).
  assert (Hfill : bufio.fill (bufio.NewReaderSize conn n) = Done tt b1).
  { subst b1 size. apply first_fill; assumption. }
  assert (Hs0 : bufio.size (bufio.NewReaderSize conn n) = size)
    by (subst size; reflexivity).
  assert (HS : bufio.ReadSlice LF (bufio.NewReaderSize conn n) = bufio.ReadSlice LF b1).
  { unfold bufio.ReadSlice. rewrite Hs0, Hs1.
    rewrite ReadSlice_loop_empty;
      [| reflexivity | reflexivity
       | rewrite Hs0; unfold bufio.Buffered, bufio.NewReaderSize; simpl; lia].
    unfold bind. rewrite Hfill.
    change (bufio.Buffered (bufio.NewReaderSize conn n)) with 0.
    apply ReadSlice_loop_fuel.
    - rewrite Hbuf1, Hs1. exact Hlen.
    - left. split; [exact He1 | lia].
    - left. split; [exact He1 | lia]. }
  assert (HL : bufio.ReadLine (bufio.NewReaderSize conn n) = bufio.ReadLine b1).
  { unfold bufio.ReadLine, bind. rewrite HS. reflexivity. }
  assert (Hbud : bufio.budget (bufio.NewReaderSize conn n) = S (bufio.budget b1)).
  { subst b1. unfold bufio.budget, bufio.Buffered, bufio.NewReaderSize, afterFirstRead.
    cbn [bufio.buf bufio.rd net.incoming String.length]. rewrite Hin.
    cbn [net.avail]. lia. }
  assert (HT : textproto.ReadLine (bufio.NewReaderSize conn n) = textproto.ReadLine b1).
  { unfold textproto.ReadLine, textproto.readLineSlice.
    cbn [textproto.readLineSlice_loop]. unfold bind. rewrite HL.
    destruct (ReadLine_spec b1 Hok1) as ([[l more] e] & b2 & Hrun & Hok2 & L2 & Hdec).
    rewrite Hrun. simpl in Hdec.
    destruct e as [e |]; [reflexivity |].
    destruct (textproto.overLimit None (String.length EmptyString + String.length l));
      [reflexivity |].
    destruct more; [| reflexivity].
    specialize (Hdec eq_refl).
    apply readLineSlice_loop_fuel; [exact Hok2 | lia | lia]. }
  unfold http.ReadResponse, bind. rewrite HT. reflexivity.
Qed.

(** ** The drain of the first read *)

Lemma drain_spec (b : bufio.Reader) :
  ok b ->
  exists b', bufio.Read (bufio.Buffered b) b = Done (bufio.buf b, None) b'
             /\ bufio.rd b' = bufio.rd b.
Proof.
  intros (He & _ & _). unfold bufio.Read, bufio.Buffered.
  pose proof (slice_to_all (String.length (bufio.buf b)) (bufio.buf b) (le_n _)) as Hall.
  destruct (String.length (bufio.buf b) =? 0) eqn:Hz.
  - apply Nat.eqb_eq in Hz. rewrite Hz. apply length_zero in Hz.
    rewrite Hz, He. eexists. split; reflexivity.
  - destruct (bufio.buf b) as [| c rest] eqn:Hbuf; [discriminate Hz |].
    rewrite Hall. eexists. split; reflexivity.
Qed.

Lemma nreads_app (t : list net.op) (c c' : net.Conn) :
  net.trace c' = (t ++ net.trace c)%list ->
  forallb net.isRead t = true ->
  net.nreads c' = List.length t + net.nreads c.
Proof.
  intros Ht Hr. unfold net.nreads. rewrite Ht, List.filter_app, List.length_app.
  f_equal. clear Ht. induction t as [| o t IH]; [reflexivity |].
  simpl in *. apply andb_true_iff in Hr as [Ho Hr]. rewrite Ho. simpl.
  rewrite IH by exact Hr. reflexivity.
Qed.


(** ** A parse that starts on an empty reader reads the connection *)

Lemma later_nreads (b b' : bufio.Reader) :
  later b b' -> net.nreads (bufio.rd b) <= net.nreads (bufio.rd b').
Proof.
  intros (_ & _ & _ & _ & t & Ht & Hr & _).
  rewrite (nreads_app t _ _ Ht Hr). lia.
Qed.

Lemma net_Read_nreads (c c' : net.Conn) (n : nat) (data : string) (e : option liberr) :
  net.Read c n = (data, e, c') -> net.nreads c' = S (net.nreads c).
Proof.
  intros H. destruct (net_Read_spec _ _ _ _ _ H) as (_ & Ht & _).
  unfold net.nreads. rewrite Ht. reflexivity.
Qed.

Lemma fill_loop_nreads (i : nat) :
  forall b : bufio.Reader,
    net.nreads (bufio.rd b) + Nat.min i 1 <= net.nreads (bufio.rd (bufio.fill_loop i b)).
Proof.
  induction i as [| i IH]; intros b; [simpl; lia |].
  simpl.
  destruct (net.Read (bufio.rd b) (bufio.size b - bufio.Buffered b))
    as [[data e] c] eqn:HR.
  pose proof (net_Read_nreads _ _ _ _ _ HR) as Hn.
  destruct e as [e |]; [simpl; lia |].
  destruct (0 <? String.length data); [simpl; lia |].
  specialize (IH (bufio.mkReader c (bufio.buf b ++ data) (bufio.size b) (bufio.err b))).
  simpl in IH. lia.
Qed.

Lemma fill_reads (b b' : bufio.Reader) :
  bufio.fill b = Done tt b' -> net.nreads (bufio.rd b) < net.nreads (bufio.rd b').
Proof.
  unfold bufio.fill. destruct (bufio.size b <=? bufio.Buffered b); [discriminate |].
  intros H.
  assert (Hb : b' = bufio.fill_loop bufio.maxConsecutiveEmptyReads b) by congruence.
  subst b'.
  pose proof (fill_loop_nreads bufio.maxConsecutiveEmptyReads b) as Hn.
  change (Nat.min bufio.maxConsecutiveEmptyReads 1) with 1 in Hn. lia.
Qed.

Lemma ReadSlice_reads (delim : ascii) (b b' : bufio.Reader) (r : string * option liberr) :
  ok b ->
  bufio.buf b = EmptyString ->
  bufio.ReadSlice delim b = Done r b' ->
  net.nreads (bufio.rd b) < net.nreads (bufio.rd b').
Proof.
  intros (He & Hfit & Hsz) Hbuf. unfold bufio.ReadSlice.
  cbn [bufio.ReadSlice_loop]. rewrite Hbuf, He.
  cbn [slice_from strings.IndexByte].
  assert (Hfree : bufio.Buffered b < bufio.size b)
    by (unfold bufio.Buffered; rewrite Hbuf; simpl; lia).
  assert (Hnf : (bufio.size b <=? bufio.Buffered b) = false) by (apply Nat.leb_gt; exact Hfree).
  rewrite Hnf.
  destruct (fill_spec b He Hfree) as ([] & b1 & Hfill & L1 & S1 & B1 & N1 & HC).
  unfold bind. rewrite Hfill. intros Hrun.
  pose proof (fill_reads _ _ Hfill) as Hgrow.
  pose proof (later_size _ _ L1) as Hs1.
  assert (Hpre : (bufio.err b1 = None /\ bufio.size b1 - bufio.Buffered b1 <= bufio.size b)
                 \/ (bufio.err b1 <> None /\ bufio.Buffered b1 <= bufio.Buffered b)).
  { destruct HC as [[He1 _] | [He1 Hsame]].
    - left. split; [exact He1 | lia].
    - right. split; [exact He1 |]. unfold bufio.Buffered. rewrite Hsame. lia. }
  destruct (ReadSlice_loop_spec delim _ b1 (bufio.Buffered b) B1 N1 Hpre)
    as (r' & b2 & Hrun' & _ & _ & L2 & _).
  rewrite Hrun in Hrun'. injection Hrun' as <- <-.
  pose proof (later_nreads _ _ L2). lia.
Qed.

Lemma bufio_ReadLine_reads (b b' : bufio.Reader) (r : string * bool * option liberr) :
  ok b ->
  bufio.buf b = EmptyString ->
  bufio.ReadLine b = Done r b' ->
  net.nreads (bufio.rd b) < net.nreads (bufio.rd b').
Proof.
  intros Hok Hbuf. unfold bufio.ReadLine, bind.
  destruct (ReadSlice_spec LF b Hok) as ([line e] & b1 & Hrun & _).
  rewrite Hrun. pose proof (ReadSlice_reads _ _ _ _ Hok Hbuf Hrun) as Hgrow.
  assert (Hsame : forall r0 b0, bufio.rd b0 = bufio.rd b1 ->
             @Done bufio.Reader (string * bool * option liberr) r0 b0 = Done r b' ->
             net.nreads (bufio.rd b) < net.nreads (bufio.rd b')).
  { intros r0 b0 Hrd H. injection H as <- <-. rewrite Hrd. exact Hgrow. }
  unfold ret.
  destruct e as [e |].
  - destruct e;
      try (destruct line as [| c line'];
           [ apply Hsame; reflexivity
           | destruct (bufio.endsWith LF (String c line')); apply Hsame; reflexivity ]).
    destruct (bufio.endsWith CR line); apply Hsame; reflexivity.
  - destruct line as [| c line'];
      [ apply Hsame; reflexivity
      | destruct (bufio.endsWith LF (String c line')); apply Hsame; reflexivity ].
Qed.

Lemma textproto_ReadLine_reads (b b' : bufio.Reader) (r : string * option liberr) :
  ok b ->
  bufio.buf b = EmptyString ->
  textproto.ReadLine b = Done r b' ->
  net.nreads (bufio.rd b) < net.nreads (bufio.rd b').
Proof.
  intros Hok Hbuf. unfold textproto.ReadLine, textproto.readLineSlice.
  cbn [textproto.readLineSlice_loop]. unfold bind.
  destruct (ReadLine_spec b Hok) as ([[l more] e] & b1 & Hrun & Hok1 & L1 & Hdec).
  rewrite Hrun. pose proof (bufio_ReadLine_reads _ _ _ Hok Hbuf Hrun) as Hgrow.
  simpl in Hdec. unfold ret.
  destruct e as [e |]; [intros H; injection H as <- <-; exact Hgrow |].
  destruct (textproto.overLimit None (String.length EmptyString + String.length l));
    [intros H; injection H as <- <-; exact Hgrow |].
  destruct more; [| intros H; injection H as <- <-; exact Hgrow].
  specialize (Hdec eq_refl). intros Hloop.
  destruct (readLineSlice_loop_spec None (bufio.budget b) (EmptyString ++ l) b1 Hok1 Hdec)
    as (r' & b2 & Hrun' & _ & L2 & _).
  rewrite Hloop in Hrun'. injection Hrun' as <- <-.
  pose proof (later_nreads _ _ L2). lia.
Qed.

(** A parse from a fresh reader has read the connection at least once
    when it returns. *)
Lemma ReadResponse_reads
    (framing : http.Framing) (req : http.Request) (b b' : bufio.Reader)
    (r : liberr + http.Response) :
  ok b ->
  bufio.buf b = EmptyString ->
  http.ReadResponse framing req b = Done r b' ->
  net.nreads (bufio.rd b) < net.nreads (bufio.rd b').
Proof.
  intros Hok Hbuf. unfold http.ReadResponse, bind.
  destruct (readLineSlice_spec None b Hok) as ([line e] & b1 & Hrun & Hok1 & L1 & _).
  change (textproto.readLineSlice None) with textproto.ReadLine in Hrun.
  rewrite Hrun. pose proof (textproto_ReadLine_reads _ _ _ Hok Hbuf Hrun) as Hgrow.
  assert (Hret : forall r0 : liberr + http.Response,
             ret r0 b1 = Done r b' -> net.nreads (bufio.rd b) < net.nreads (bufio.rd b')).
  { intros r0 H. injection H as <- <-. exact Hgrow. }
  destruct e as [e |]; [apply Hret |].
  destruct (strings.Cut line " ") as [[proto status] okc].
  destruct (negb okc); [apply Hret |].
  destruct (strings.Cut (strings.TrimLeft status " ") " ") as [[statusCode x] y].
  destruct (negb (String.length statusCode =? 3)); [apply Hret |].
  destruct (http.Atoi statusCode) as [code |]; [| apply Hret].
  destruct (code <? 0)%Z; [apply Hret |].
  destruct (http.ParseHTTPVersion proto) as [[major minor] |]; [| apply Hret].
  destruct (ReadMIMEHeader_spec b1 Hok1) as ([mimeHeader e] & b2 & Hrun2 & _ & L2).
  rewrite Hrun2. pose proof (later_nreads _ _ L2) as Hmono.
  destruct e as [e |]; intros H; injection H as <- <-; lia.
Qed.

(** [http.ReadResponse] on a reader made by [bufio.NewReaderSize] always
    returns: no loop of the model is cut off and no panic of [bufio] is
    reached; the reader keeps its size and holds no more bytes than that. *)
Lemma ReadResponse_total
    (framing : http.Framing) (req : http.Request) (conn : net.Conn) (n : nat) :
  exists r reader,
    http.ReadResponse framing req (bufio.NewReaderSize conn n) = Done r reader
    /\ bufio.size reader = Nat.max n bufio.minReadBufferSize
    /\ bufio.Buffered reader <= bufio.size reader
    /\ bufio.err reader = None
    /\ net.nreads conn < net.nreads (bufio.rd reader).
Proof.
  destruct (ReadResponse_spec framing req _ (NewReaderSize_ok conn n))
    as (r & reader & Hrun & (He & Hfit & _) & Hlater).
  exists r, reader. split; [exact Hrun |].
  split; [apply (later_size _ _ Hlater) |]. split; [exact Hfit |]. split; [exact He |].
  apply (ReadResponse_reads framing req _ _ r (NewReaderSize_ok conn n) eq_refl Hrun).
Qed.

(** * Theorems *)

(** ** Request building *)

Lemma Split_empty : strings.Split EmptyString ":" = [EmptyString].
Proof. reflexivity. Qed.

Lemma QueryUnescape_failure (s : string) (e : liberr) :
  snd (url.QueryUnescape s) = Some e -> fst (url.QueryUnescape s) = EmptyString.
Proof.
  unfold url.QueryUnescape. destruct (url.badEscape s); simpl; [reflexivity | discriminate].
Qed.

Lemma QueryUnescape_failure_nonempty (s : string) (e : liberr) :
  snd (url.QueryUnescape s) = Some e -> String.eqb s EmptyString = false.
Proof.
  destruct s; simpl; [discriminate | reflexivity].
Qed.

(** C2 (evaluation at the failing input): a header configured as
    ["WebSocket-Test"] is stored in the request under the MIME-canonical key
    ["Websocket-Test"], because line 81 calls [req.Header.Add]; the helper
    [AddHeader] of the same file would have kept the configured casing. *)
Theorem C2_configured_header_is_canonicalized :
  let cfg := mkConfig "example.com" "/" [("WebSocket-Test", "v")] 0%N in
  let req := buildRequest "http" "example.com:80" cfg in
  http.ReqHeader req !! "WebSocket-Test" = None
  /\ http.ReqHeader req !! "Websocket-Test" = Some ["v"]
  /\ AddHeader ∅ "WebSocket-Test" "v" !! "WebSocket-Test" = Some ["v"].
Proof. vm_compute. auto. Qed.

(** C3 (the claim as stated fails): for the path ["/a b"] the opaque
    component is not ["a:b"], and the structural path is not unset. *)
Lemma C3_opaque_keeps_the_space :
  ~ (let u := http.URL (buildRequest "http" "example.com:80"
                          (mkConfig "example.com" "/a b" [] 0%N)) in
     url.Opaque u = "a:b" /\ url.Path u = EmptyString).
Proof. vm_compute. intros [H _]. discriminate H. Qed.

(** C3 (amended): for the path ["/a b"] the split on [":"] yields exactly
    2 parts, the opaque component is the trimmed string ["a b"] (its space
    is not replaced), and the structural path stays ["/a b"]. *)
Theorem C3_path_a_b :
  let u := http.URL (buildRequest "http" "example.com:80"
                       (mkConfig "example.com" "/a b" [] 0%N)) in
  splitCount "/a b" = 2 /\ url.Opaque u = "a b" /\ url.Path u = "/a b".
Proof. vm_compute. auto. Qed.

(** C8: for the path ["/a b:c"] the split on [":"] yields exactly 3 parts,
    the structural path is ["a"] and the opaque component is ["b:c"]. *)
Theorem C8_path_a_b_c :
  let u := http.URL (buildRequest "http" "example.com:80"
                       (mkConfig "example.com" "/a b:c" [] 0%N)) in
  splitCount "/a b:c" = 3 /\ url.Path u = "a" /\ url.Opaque u = "b:c".
Proof. vm_compute. auto. Qed.

(** C10 (the claim as stated fails): a path whose decoding fails is not
    processed as the undecoded string: for ["/a%zz b"] the undecoded
    string would give two parts and an opaque component, the code gives
    none. *)
Lemma C10_undecoded_path_is_not_used :
  ~ (forall u : url.URL,
       snd (url.QueryUnescape (url.Path u)) <> None ->
       encodePath u = encodePath_tolerant u).
Proof.
  intros H.
  specialize (H (url.mkURL "http" EmptyString "example.com:80" "/a%zz b")).
  vm_compute in H. specialize (H ltac:(discriminate)). discriminate H.
Qed.

(** C10 (amended): when decoding the path fails, request building does
    not fail; the decoded string is empty, so the later steps see the empty
    string, the split has one part, and the URL keeps the configured path
    with no opaque component added. *)
Theorem C10_decoding_failure_leaves_url (u : url.URL) (e : liberr) :
  snd (url.QueryUnescape (url.Path u)) = Some e ->
  fst (url.QueryUnescape (url.Path u)) = EmptyString
  /\ splitCount (url.Path u) = 1
  /\ encodePath u = u.
Proof.
  intros H.
  pose proof (QueryUnescape_failure _ _ H) as H0.
  pose proof (QueryUnescape_failure_nonempty _ _ H) as Hne.
  split; [exact H0 |]. split.
  - unfold splitCount. rewrite H0. reflexivity.
  - unfold encodePath. rewrite Hne. rewrite H0. simpl. reflexivity.
Qed.

(** C10 at the configured path ["/a%zz b"], whose escape is malformed. *)
Lemma C10_decoding_failure_witness :
  let u := url.mkURL "http" EmptyString "example.com:80" "/a%zz b" in
  fst (url.QueryUnescape (url.Path u)) = EmptyString
  /\ splitCount (url.Path u) = 1
  /\ encodePath u = u.
Proof.
  apply (C10_decoding_failure_leaves_url
           (url.mkURL "http" EmptyString "example.com:80" "/a%zz b")
           (url_EscapeError "%zz")).
  reflexivity.
Defined.

(** ** The read path of [ConnRF] *)

Lemma Read_passthrough (L : GoLib) (c : ConnRF) (b : ByteSlice) :
  First c = false ->
  Read L c b =
    (Return (fst (fst (net.Read (Conn c) (len b))))
            (liftErr (snd (fst (net.Read (Conn c) (len b))))),
     mkConnRF (snd (net.Read (Conn c) (len b))) (Req c) false).
Proof.
  intros H. unfold Read. rewrite H.
  destruct (net.Read (Conn c) (len b)) as [[data e] conn]. reflexivity.
Qed.

Lemma Read_first_state (L : GoLib) (c : ConnRF) (b : ByteSlice) :
  First c = true ->
  First (snd (Read L c b)) = false /\ Req (snd (Read L c b)) = Req c.
Proof.
  intros H. unfold Read. rewrite H.
  destruct (http.ReadResponse _ _ _) as [[e | resp] reader | msg |]; simpl; auto.
  destruct (replyMismatch L resp); simpl; auto.
  destruct (bufio.Buffered reader <=? cap b); simpl; auto.
  destruct (bufio.Read _ _) as [[data e] reader' | msg |]; simpl; auto.
Qed.

Lemma reads_passthrough (L : GoLib) (bs : list ByteSlice) :
  forall c : ConnRF,
    First c = false ->
    reads L c bs =
      (fst (rawReads (Conn c) bs), mkConnRF (snd (rawReads (Conn c) bs)) (Req c) false).
Proof.
  induction bs as [| b bs IH]; intros c H.
  - destruct c as [conn req first]. simpl in *. subst. reflexivity.
  - simpl. rewrite (Read_passthrough L c b H).
    destruct (net.Read (Conn c) (len b)) as [[data e] conn1]. simpl.
    rewrite IH by reflexivity. simpl.
    destruct (rawReads conn1 bs) as [rs conn2]. reflexivity.
Qed.

(** What the first read does with the outcome of its parse. *)
Lemma Read_first_cases (L : GoLib) (c : ConnRF) (b : ByteSlice) :
  First c = true ->
  match firstParse L c b with
  | Done (inl e) reader => fst (Read L c b) = Return EmptyString (Some (StdErr e))
  | Done (inr resp) reader =>
      if replyMismatch L resp
      then fst (Read L c b) = Return EmptyString (Some unrecognizedReply)
      else if bufio.Buffered reader <=? cap b
           then match bufio.Read (bufio.Buffered reader) reader with
                | Done (data, e) reader' =>
                    Read L c b = (Return data (liftErr e),
                                  mkConnRF (bufio.rd reader') (Req c) false)
                | _ => True
                end
           else fst (Read L c b) = Panic "slice bounds out of range"
  | Panicked msg => fst (Read L c b) = Panic msg
  | OutOfFuel => fst (Read L c b) = NoFuel
  end.
Proof.
  intros H. unfold Read, firstParse. rewrite H.
  destruct (http.ReadResponse _ _ _) as [[e | resp] reader | msg |]; simpl; auto.
  destruct (replyMismatch L resp); simpl; auto.
  destruct (bufio.Buffered reader <=? cap b); simpl; auto.
  destruct (bufio.Read _ _) as [[data e] reader' | msg |]; simpl; auto.
Qed.

(** The sample run behind C1: a ["200 OK"] reply, then five more bytes. *)
Lemma Read_after_rejected_reply (L : GoLib) :
  let c := pending [net.Seg (line "HTTP/1.1 200 OK" ++ CRLF); net.Seg "hello"] in
  let b := mkSlice 5 5 in
  fst (Read L c b) = Return EmptyString (Some unrecognizedReply)
  /\ fst (Read L (snd (Read L c b)) b) = Return "hello" None.
Proof. vm_compute. auto. Qed.

(** C1 (the claim as stated fails): a failed first read is not repeated by
    later reads.  After a ["200 OK"] reply is rejected, the next read
    returns the following five bytes with a nil error. *)
Lemma C1_failure_is_not_sticky :
  ~ (forall (L : GoLib) (c : ConnRF) (b b' : ByteSlice) (data : string) (e : error),
       First c = true ->
       fst (Read L c b) = Return data (Some e) ->
       exists data', fst (Read L (snd (Read L c b)) b') = Return data' (Some e)).
Proof.
  intros H.
  destruct (Read_after_rejected_reply plainLib) as [H1 H2].
  cbv zeta in H1, H2.
  destruct (H plainLib
              (pending [net.Seg (line "HTTP/1.1 200 OK" ++ CRLF); net.Seg "hello"])
              (mkSlice 5 5) (mkSlice 5 5) _ _ eq_refl H1) as [data' H3].
  rewrite H2 in H3. discriminate H3.
Qed.

(** C1 (amended): once the first read has failed, the pending flag is
    cleared and every later read is a plain read of the underlying
    connection, returning whatever that connection returns; the failure of
    the first read is not reported again. *)
Theorem C1_after_failure_reads_pass_through
    (L : GoLib) (c c1 : ConnRF) (b : ByteSlice) (data : string) (e : error)
    (bs : list ByteSlice) :
  First c = true ->
  Read L c b = (Return data (Some e), c1) ->
  First c1 = false
  /\ reads L c1 bs =
       (fst (rawReads (Conn c1) bs),
        mkConnRF (snd (rawReads (Conn c1) bs)) (Req c) false).
Proof.
  intros H HR.
  destruct (Read_first_state L c b H) as [HF HQ]. rewrite HR in HF, HQ. simpl in HF, HQ.
  split; [exact HF |]. rewrite <- HQ. apply reads_passthrough. exact HF.
Qed.

(** C1 at a server that answers [200 OK] and then sends five more bytes. *)
Lemma C1_after_failure_witness :
  let c := pending [net.Seg (line "HTTP/1.1 200 OK" ++ CRLF); net.Seg "hello"] in
  let c1 := snd (Read plainLib c (mkSlice 5 5)) in
  First c1 = false
  /\ reads plainLib c1 [mkSlice 5 5] =
       (fst (rawReads (Conn c1) [mkSlice 5 5]),
        mkConnRF (snd (rawReads (Conn c1) [mkSlice 5 5])) (Req c) false).
Proof.
  apply (C1_after_failure_reads_pass_through plainLib
           (pending [net.Seg (line "HTTP/1.1 200 OK" ++ CRLF); net.Seg "hello"])
           _ (mkSlice 5 5) EmptyString unrecognizedReply [mkSlice 5 5]).
  - reflexivity.
  - vm_compute. reflexivity.
Defined.

(** C9: after the first read has succeeded, every later read is a plain
    read of the underlying connection: the reads on the [ConnRF] return
    what the same reads on the bare connection return, and no response is
    parsed or checked again. *)
Theorem C9_after_success_reads_pass_through
    (L : GoLib) (c c1 : ConnRF) (b : ByteSlice) (data : string)
    (bs : list ByteSlice) :
  First c = true ->
  Read L c b = (Return data None, c1) ->
  First c1 = false
  /\ reads L c1 bs =
       (fst (rawReads (Conn c1) bs),
        mkConnRF (snd (rawReads (Conn c1) bs)) (Req c) false).
Proof.
  intros H HR.
  destruct (Read_first_state L c b H) as [HF HQ]. rewrite HR in HF, HQ. simpl in HF, HQ.
  split; [exact HF |]. rewrite <- HQ. apply reads_passthrough. exact HF.
Qed.

(** C9 at a server whose valid reply is followed by two more segments. *)
Lemma C9_after_success_witness :
  let c := pending [net.Seg switchingProtocols; net.Seg "hello"; net.Seg "world"] in
  let c1 := snd (Read plainLib c (mkSlice 64 64)) in
  First c1 = false
  /\ reads plainLib c1 [mkSlice 64 64; mkSlice 3 64] =
       (fst (rawReads (Conn c1) [mkSlice 64 64; mkSlice 3 64]),
        mkConnRF (snd (rawReads (Conn c1) [mkSlice 64 64; mkSlice 3 64])) (Req c) false).
Proof.
  apply (C9_after_success_reads_pass_through plainLib
           (pending [net.Seg switchingProtocols; net.Seg "hello"; net.Seg "world"])
           _ (mkSlice 64 64) EmptyString [mkSlice 64 64; mkSlice 3 64]).
  - reflexivity.
  - vm_compute. reflexivity.
Defined.

(** When the reader is at least [bufio]'s minimum and the caller's slice
    has its capacity, the first read returns: it neither panics nor runs
    out of steps.  Later reads always return. *)
Lemma Read_returns (L : GoLib) (c : ConnRF) (b : ByteSlice) :
  First c = false \/ (bufio.minReadBufferSize <= len b /\ len b <= cap b) ->
  exists data e c', Read L c b = (Return data e, c').
Proof.
  intros H. destruct (First c) eqn:HF.
  - destruct H as [H | [Hmin Hcap]]; [discriminate |].
    unfold Read. rewrite HF.
    destruct (ReadResponse_spec (framing L) (Req c) _ (NewReaderSize_ok (Conn c) (len b)))
      as (r & reader & Hrun & Hok & Hlater).
    rewrite Hrun.
    destruct r as [e | resp]; [eauto |].
    destruct (replyMismatch L resp); [eauto |].
    pose proof (later_size _ _ Hlater) as Hsz.
    unfold bufio.NewReaderSize in Hsz. simpl in Hsz.
    assert (Hfit : (bufio.Buffered reader <=? cap b) = true).
    { apply Nat.leb_le. destruct Hok as (_ & Hb & _). lia. }
    rewrite Hfit.
    destruct (drain_spec reader Hok) as (reader' & Hdrain & _).
    rewrite Hdrain. eauto.
  - rewrite (Read_passthrough L c b HF). eauto.
Qed.


(** ** Validation of the reply *)

Lemma replyMismatch_true (L : GoLib) (resp : http.Response) :
  replyMismatch L resp = true <->
  (http.Status resp <> "101 Switching Protocols"
   \/ strings.ToLower (unicodeLower L) (textproto.Get (http.RespHeader resp) "Upgrade")
      <> "websocket"
   \/ strings.ToLower (unicodeLower L) (textproto.Get (http.RespHeader resp) "Connection")
      <> "upgrade").
Proof.
  unfold replyMismatch.
  rewrite !orb_true_iff, !negb_true_iff, !String.eqb_neq. tauto.
Qed.

Lemma Get_missing (h : gmap string (list string)) :
  (h !! "Upgrade" = None -> textproto.Get h "Upgrade" = EmptyString)
  /\ (h !! "Connection" = None -> textproto.Get h "Connection" = EmptyString).
Proof.
  split; intros H; unfold textproto.Get, textproto.values;
    [ change (textproto.CanonicalMIMEHeaderKey "Upgrade") with "Upgrade"
    | change (textproto.CanonicalMIMEHeaderKey "Connection") with "Connection" ];
    rewrite H; reflexivity.
Qed.

Lemma replyMismatch_incomplete (L : GoLib) (resp : http.Response) :
  http.Status resp = "200 OK"
  \/ http.RespHeader resp !! "Upgrade" = None
  \/ http.RespHeader resp !! "Connection" = None ->
  replyMismatch L resp = true.
Proof.
  intros H. apply replyMismatch_true.
  destruct (Get_missing (http.RespHeader resp)) as [HU HC].
  destruct H as [H | [H | H]].
  - left. rewrite H. discriminate.
  - right. left. rewrite (HU H). discriminate.
  - right. right. rewrite (HC H). discriminate.
Qed.

(** A write that succeeds is the logged call on the connection. *)
Lemma writeError_None
    (L : GoLib) (pconn : net.Conn) (dest : string) (streamSettings : MemoryStreamConfig) :
  writeError L pconn dest streamSettings = None ->
  http.Write (punycode L)
    (buildRequest (schemeOf streamSettings) dest (ProtocolSettings streamSettings)) pconn
  = (None, net.logged net.OpWrite pconn)
  /\ net.werr pconn = None.
Proof.
  unfold writeError, http.Write.
  destruct (http.requestError _ _); cbn [fst]; intros H; [discriminate H |].
  rewrite H. split; reflexivity.
Qed.

(** [dialhttpUpgrade] once the connection is set up and the request
    written (lines 106-119). *)
Lemma dialhttpUpgrade_established
    (L : GoLib) (pconn : net.Conn) (dest : string) (streamSettings : MemoryStreamConfig) :
  handshakeError streamSettings = None ->
  writeError L pconn dest streamSettings = None ->
  dialhttpUpgrade L (inr pconn) dest streamSettings =
    if (Ed (ProtocolSettings streamSettings) =? 0)%N then
      match Read L (written pconn dest streamSettings) emptySlice with
      | (Return _ (Some err), _) => Return None (Some err)
      | (Return _ None, connRF) => Return (Some connRF) None
      | (Panic msg, _) => Panic msg
      | (NoFuel, _) => NoFuel
      end
    else Return (Some (written pconn dest streamSettings)) None.
Proof.
  intros HT HW. apply writeError_None in HW as [HW _].
  unfold dialhttpUpgrade, handshakeError, written, schemeOf in *.
  destruct (SecuritySettings streamSettings) as [config |];
    [destruct (Fingerprint config); [rewrite HT |] |];
    rewrite HW; reflexivity.
Qed.

(** C6: the first read fails with the unrecognized-reply error exactly
    when the response was parsed and its status is not
    ["101 Switching Protocols"], or its [Upgrade] header lowercased is not
    ["websocket"], or its [Connection] header lowercased is not
    ["upgrade"].  In particular, with early data disabled and the request
    written without error, a parsed ["200 OK"] response, or one without an
    [Upgrade] or [Connection] header, makes [dialhttpUpgrade] return that
    error and no connection. *)
Theorem C6_unrecognized_reply
    (L : GoLib) (c : ConnRF) (b : ByteSlice)
    (pconn : net.Conn) (dest : string) (streamSettings : MemoryStreamConfig) :
  First c = true ->
  handshakeError streamSettings = None ->
  writeError L pconn dest streamSettings = None ->
  Ed (ProtocolSettings streamSettings) = 0%N ->
  (fst (Read L c b) = Return EmptyString (Some unrecognizedReply)
   <-> exists resp reader,
         firstParse L c b = Done (inr resp) reader
         /\ (http.Status resp <> "101 Switching Protocols"
             \/ strings.ToLower (unicodeLower L)
                  (textproto.Get (http.RespHeader resp) "Upgrade") <> "websocket"
             \/ strings.ToLower (unicodeLower L)
                  (textproto.Get (http.RespHeader resp) "Connection") <> "upgrade"))
  /\ (forall resp reader,
        firstParse L (written pconn dest streamSettings) emptySlice = Done (inr resp) reader ->
        http.Status resp = "200 OK"
        \/ http.RespHeader resp !! "Upgrade" = None
        \/ http.RespHeader resp !! "Connection" = None ->
        dialhttpUpgrade L (inr pconn) dest streamSettings
        = Return None (Some unrecognizedReply)).
Proof.
  intros HF HT HW HE. split.
  - pose proof (Read_first_cases L c b HF) as HC.
    destruct (firstParse L c b) as [[e | resp] reader | msg |] eqn:HP.
    + rewrite HC. split; [discriminate |].
      intros (resp & reader' & Heq & _). discriminate Heq.
    + destruct (replyMismatch L resp) eqn:HM.
      * rewrite HC. split; [| reflexivity].
        intros _. exists resp, reader. split; [reflexivity |].
        apply replyMismatch_true. exact HM.
      * split.
        -- intros HR. exfalso.
           destruct (bufio.Buffered reader <=? cap b).
           ++ destruct (bufio.Read _ _) as [[data e] reader' | msg |] eqn:HD.
              ** rewrite HC in HR. simpl in HR. destruct e; discriminate HR.
              ** unfold bufio.Read in HD.
                 repeat match type of HD with
                        | context [if ?x then _ else _] => destruct x
                        | context [match ?x with _ => _ end] => destruct x
                        end; discriminate HD.
              ** unfold bufio.Read in HD.
                 repeat match type of HD with
                        | context [if ?x then _ else _] => destruct x
                        | context [match ?x with _ => _ end] => destruct x
                        end; discriminate HD.
           ++ rewrite HC in HR. discriminate HR.
        -- intros (resp' & reader' & Heq & Hmis).
           injection Heq as -> ->.
           apply replyMismatch_true in Hmis. congruence.
    + rewrite HC. split; [discriminate |].
      intros (resp & reader' & Heq & _). discriminate Heq.
    + rewrite HC. split; [discriminate |].
      intros (resp & reader' & Heq & _). discriminate Heq.
  - intros resp reader HP Hinc.
    rewrite (dialhttpUpgrade_established L pconn dest streamSettings HT HW), HE.
    simpl.
    pose proof (Read_first_cases L (written pconn dest streamSettings) emptySlice eq_refl) as HC.
    rewrite HP, (replyMismatch_incomplete L resp Hinc) in HC.
    destruct (Read L (written pconn dest streamSettings) emptySlice) as [r c'].
    simpl in HC. rewrite HC. reflexivity.
Qed.

(** C6 at a server that answers [200 OK], and at one that answers 101
    without the two upgrade headers. *)
Lemma C6_unrecognized_reply_witness :
  let c := pending [net.Seg (line "HTTP/1.1 200 OK" ++ CRLF)] in
  let pconn := scripted [net.Seg (line "HTTP/1.1 101 Switching Protocols" ++ CRLF)] in
  let streamSettings := mkStream (mkConfig "example.com" "/" [] 0%N) None in
  (fst (Read plainLib c (mkSlice 32 32)) = Return EmptyString (Some unrecognizedReply)
   <-> exists resp reader,
         firstParse plainLib c (mkSlice 32 32) = Done (inr resp) reader
         /\ (http.Status resp <> "101 Switching Protocols"
             \/ strings.ToLower (unicodeLower plainLib)
                  (textproto.Get (http.RespHeader resp) "Upgrade") <> "websocket"
             \/ strings.ToLower (unicodeLower plainLib)
                  (textproto.Get (http.RespHeader resp) "Connection") <> "upgrade"))
  /\ (forall resp reader,
        firstParse plainLib (written pconn "example.com:80" streamSettings) emptySlice
        = Done (inr resp) reader ->
        http.Status resp = "200 OK"
        \/ http.RespHeader resp !! "Upgrade" = None
        \/ http.RespHeader resp !! "Connection" = None ->
        dialhttpUpgrade plainLib (inr pconn) "example.com:80" streamSettings
        = Return None (Some unrecognizedReply)).
Proof.
  apply (C6_unrecognized_reply plainLib
           (pending [net.Seg (line "HTTP/1.1 200 OK" ++ CRLF)]) (mkSlice 32 32)
           (scripted [net.Seg (line "HTTP/1.1 101 Switching Protocols" ++ CRLF)])
           "example.com:80"
           (mkStream (mkConfig "example.com" "/" [] 0%N) None));
    reflexivity.
Defined.

(** ** Dialing *)

Lemma firstParse_reads
    (L : GoLib) (c : ConnRF) (b : ByteSlice) (r : liberr + http.Response)
    (reader : bufio.Reader) :
  firstParse L c b = Done r reader ->
  net.nreads (Conn c) < net.nreads (bufio.rd reader).
Proof.
  unfold firstParse. intros H.
  exact (ReadResponse_reads (framing L) (Req c) (bufio.NewReaderSize (Conn c) (len b))
           reader r (NewReaderSize_ok (Conn c) (len b)) eq_refl H).
Qed.




(** The two modes on a sample server: the reply arrives in one segment. *)
Lemma dial_sample_runs (L : GoLib) :
  let pconn := scripted [net.Seg switchingProtocols] in
  let early := mkStream (mkConfig "example.com" "/" [] 1%N) None in
  let strict := mkStream (mkConfig "example.com" "/" [] 0%N) None in
  dialhttpUpgrade L (inr pconn) "example.com:80" early
  = Return (Some (mkConnRF (net.mkConn [net.Seg switchingProtocols] None [net.OpWrite])
                    sampleRequest true)) None
  /\ dialhttpUpgrade L (inr pconn) "example.com:80" strict
     = Return (Some (mkConnRF (net.mkConn [] None
                                 [net.OpRead 16; net.OpRead 4; net.OpRead 16; net.OpRead 2;
                                  net.OpRead 16; net.OpRead 16; net.OpRead 16; net.OpWrite])
                       sampleRequest false)) None.
Proof. vm_compute. auto. Qed.

(** ** The first read and the buffered reader *)

(** C4 (evaluation at the failing input): the zero-length probe read of
    [dialhttpUpgrade] meets a valid reply with one more byte in the same
    segment.  The reader made for the empty slice has the 16 bytes that
    [bufio] gives at least; after the parse it holds the extra byte, so
    [b[:reader.Buffered()]] is [b[:1]] on a slice of capacity 0 and the
    read panics. *)
Theorem C4_probe_read_exceeds_caller_slice (L : GoLib) :
  let conn := scripted [net.Seg (switchingProtocols ++ "X")] in
  let c := mkConnRF (net.logged net.OpWrite conn) sampleRequest true in
  (exists resp reader,
     firstParse L c emptySlice = Done (inr resp) reader
     /\ replyMismatch L resp = false
     /\ bufio.size reader = 16
     /\ bufio.Buffered reader = 1
     /\ len emptySlice = 0 /\ cap emptySlice = 0)
  /\ fst (Read L c emptySlice) = Panic "slice bounds out of range"
  /\ dialhttpUpgrade L (inr conn) "example.com:80"
       (mkStream (mkConfig "example.com" "/" [] 0%N) None)
     = Panic "slice bounds out of range".
Proof.
  cbv zeta. split; [| split].
  - eexists. eexists. split; [vm_compute; reflexivity |].
    repeat split; vm_compute; reflexivity.
  - vm_compute. reflexivity.
  - vm_compute. reflexivity.
Qed.

(** The sample run behind C7: 16 payload bytes follow the reply in its
    segment, the caller reads into 16 bytes, and gets 9 of them. *)
Lemma Read_short_of_payload (L : GoLib) :
  fst (Read L (pending [net.Seg (switchingProtocols ++ "0123456789abcdef")]) (mkSlice 16 16))
  = Return "012345678" None.
Proof. vm_compute. reflexivity. Qed.

(** C7 (the claim as stated fails): a buffer as long as the payload is not
    enough for the first read to return the whole payload. *)
Lemma C7_payload_longer_than_reader :
  ~ (forall (L : GoLib) (payload : string) (b : ByteSlice),
       String.length payload <= len b ->
       len b <= cap b ->
       fst (Read L (pending [net.Seg (switchingProtocols ++ payload)]) b)
       = Return payload None).
Proof.
  intros H.
  specialize (H plainLib "0123456789abcdef" (mkSlice 16 16) (le_n 16) (le_n 16)).
  rewrite Read_short_of_payload in H. discriminate H.
Qed.

(** ** What lies behind the reply does not change its parse

    A parse that does not read the connection runs the same way when more
    bytes lie behind the ones it consumes. *)

Lemma run_spec {A : Type} (m : M bufio.Reader A) (b b1 : bufio.Reader) (a : A)
    (Q : A -> bufio.Reader -> Prop) :
  returns m b Q -> m b = Done a b1 -> Q a b1.
Proof.
  intros (a' & b' & Hrun & HQ) H. rewrite H in Hrun. injection Hrun as <- <-. exact HQ.
Qed.

Lemma quiet_rd (b b1 : bufio.Reader) :
  later b b1 ->
  net.nreads (bufio.rd b1) <= net.nreads (bufio.rd b) ->
  bufio.rd b1 = bufio.rd b.
Proof.
  intros (_ & _ & _ & _ & t & Ht & Hr & Hsame) Hq.
  rewrite (nreads_app t _ _ Ht Hr) in Hq.
  apply Hsame. destruct t; [reflexivity | cbn [List.length] in Hq; lia].
Qed.

Lemma IndexByte_app (c : ascii) (q : string) :
  forall (x : string) (i : nat),
    strings.IndexByte x c = Some i -> strings.IndexByte (x ++ q) c = Some i.
Proof.
  induction x as [| d x IH]; intros i H; [discriminate H |].
  cbn [String.append strings.IndexByte] in *.
  destruct (Ascii.eqb d c); [exact H |].
  destruct (strings.IndexByte x c) as [j |]; [| discriminate H].
  rewrite (IH j eq_refl). exact H.
Qed.

Lemma slice_to_app_le (q : string) :
  forall (n : nat) (x : string),
    n <= String.length x -> slice_to n (x ++ q) = slice_to n x.
Proof.
  induction n as [| n IH]; intros x H.
  - destruct x; destruct q; reflexivity.
  - destruct x as [| d x]; [cbn [String.length] in H; lia |].
    cbn [String.append slice_to]. rewrite IH; [reflexivity |].
    cbn [String.length] in H. lia.
Qed.

Lemma slice_from_app_le (q : string) :
  forall (n : nat) (x : string),
    n <= String.length x -> slice_from n (x ++ q) = slice_from n x ++ q.
Proof.
  induction n as [| n IH]; intros x H.
  - destruct x; destruct q; reflexivity.
  - destruct x as [| d x]; [cbn [String.length] in H; lia |].
    cbn [String.append slice_from]. apply IH. cbn [String.length] in H. lia.
Qed.

(** A search that finds no delimiter in the buffer reads the connection. *)
Lemma ReadSlice_miss_reads (delim : ascii) (b b' : bufio.Reader)
    (r : string * option liberr) :
  ok b ->
  bufio.Buffered b < bufio.size b ->
  strings.IndexByte (bufio.buf b) delim = None ->
  bufio.ReadSlice delim b = Done r b' ->
  net.nreads (bufio.rd b) < net.nreads (bufio.rd b').
Proof.
  intros (He & Hfit & Hsz) Hfree Hmiss. unfold bufio.ReadSlice.
  cbn [bufio.ReadSlice_loop]. rewrite slice_from_0, Hmiss, He.
  assert (Hnf : (bufio.size b <=? bufio.Buffered b) = false) by (apply Nat.leb_gt; exact Hfree).
  rewrite Hnf.
  destruct (fill_spec b He Hfree) as ([] & b1 & Hfill & L1 & S1 & B1 & N1 & HC).
  unfold bind. rewrite Hfill. intros Hrun.
  pose proof (fill_reads _ _ Hfill) as Hgrow.
  pose proof (later_size _ _ L1) as Hs1.
  assert (Hpre : (bufio.err b1 = None /\ bufio.size b1 - bufio.Buffered b1 <= bufio.size b)
                 \/ (bufio.err b1 <> None /\ bufio.Buffered b1 <= bufio.Buffered b)).
  { destruct HC as [[He1 _] | [He1 Hsame]].
    - left. split; [exact He1 | lia].
    - right. split; [exact He1 |]. unfold bufio.Buffered. rewrite Hsame. lia. }
  destruct (ReadSlice_loop_spec delim _ b1 (bufio.Buffered b) B1 N1 Hpre)
    as (r' & b2 & Hrun' & _ & _ & L2 & _).
  rewrite Hrun in Hrun'. injection Hrun' as <- <-.
  pose proof (later_nreads _ _ L2). lia.
Qed.

Section Frame.

Variable p : string.
Hypothesis p_nonempty : p <> EmptyString.

Lemma ok_pad (b : bufio.Reader) :
  ok (pad p b) ->
  bufio.Buffered b < bufio.size b
  /\ bufio.Buffered b + String.length p <= bufio.size b.
Proof.
  intros (_ & Hfit & _). unfold pad, bufio.Buffered, bufio.setBuf in Hfit.
  cbn [bufio.buf bufio.size] in Hfit. rewrite length_append in Hfit.
  assert (0 < String.length p) by (destruct p; [contradiction | cbn; lia]).
  unfold bufio.Buffered. lia.
Qed.

Lemma pad_ok (b b1 : bufio.Reader) :
  ok b1 ->
  ok (pad p b) ->
  bufio.size b1 = bufio.size b ->
  bufio.Buffered b1 <= bufio.Buffered b ->
  ok (pad p b1).
Proof.
  intros (He & _ & Hsz) Hpad Hs Hb. destruct (ok_pad b Hpad) as [_ Hfit].
  unfold ok, pad, bufio.Buffered, bufio.setBuf in *.
  cbn [bufio.buf bufio.size bufio.err]. rewrite length_append.
  repeat split; [exact He | lia | lia].
Qed.

Lemma budget_pad (b : bufio.Reader) :
  bufio.budget (pad p b) = bufio.budget b + String.length p.
Proof.
  unfold bufio.budget, pad, bufio.Buffered, bufio.setBuf.
  cbn [bufio.buf bufio.rd]. rewrite length_append. lia.
Qed.

(** [ReadSlice] *)
Lemma ReadSlice_frame (delim : ascii) (b b1 : bufio.Reader) (a : string * option liberr) :
  ok b ->
  ok (pad p b) ->
  bufio.ReadSlice delim b = Done a b1 ->
  net.nreads (bufio.rd b1) <= net.nreads (bufio.rd b) ->
  snd a = None
  /\ bufio.Buffered b1 < bufio.Buffered b
  /\ bufio.ReadSlice delim (pad p b) = Done a (pad p b1).
Proof.
  intros Hok Hpad Hrun Hq.
  destruct (ok_pad b Hpad) as [Hfree _].
  destruct (strings.IndexByte (bufio.buf b) delim) as [i |] eqn:Hidx.
  - pose proof (IndexByte_bound _ _ _ Hidx) as Hi.
    unfold bufio.ReadSlice in *. cbn [bufio.ReadSlice_loop] in *.
    rewrite slice_from_0, Hidx in Hrun. injection Hrun as <- <-.
    split; [reflexivity |]. split.
    { unfold bufio.Buffered, bufio.setBuf. cbn [bufio.buf].
      rewrite length_slice_from. lia. }
    unfold pad at 2. unfold bufio.setBuf at 1. cbn [bufio.buf bufio.size].
    rewrite slice_from_0. unfold pad at 1. unfold bufio.setBuf at 1. cbn [bufio.buf].
    rewrite (IndexByte_app delim p _ _ Hidx).
    rewrite (slice_to_app_le p (i + 0 + 1) (bufio.buf b)) by lia.
    unfold pad, bufio.setBuf. cbn [bufio.buf bufio.rd bufio.size bufio.err].
    rewrite (slice_from_app_le p (i + 0 + 1) (bufio.buf b)) by lia.
    reflexivity.
  - pose proof (ReadSlice_miss_reads delim b b1 a Hok Hfree Hidx Hrun). lia.
Qed.

(** [bufio.ReadLine] *)
Lemma bufio_ReadLine_frame (b b1 : bufio.Reader) (a : string * bool * option liberr) :
  ok b ->
  ok (pad p b) ->
  bufio.ReadLine b = Done a b1 ->
  net.nreads (bufio.rd b1) <= net.nreads (bufio.rd b) ->
  (exists l, a = (l, false, None))
  /\ bufio.ReadLine (pad p b) = Done a (pad p b1).
Proof.
  intros Hok Hpad. unfold bufio.ReadLine, bind.
  destruct (ReadSlice_spec LF b Hok) as ([line e] & b2 & Hrun & Hok2 & L2 & _).
  rewrite Hrun. intros Hk Hq.
  assert (Hrd : bufio.rd b1 = bufio.rd b2).
  { assert (Hsame : forall r0 b0, bufio.rd b0 = bufio.rd b2 ->
               @Done bufio.Reader (string * bool * option liberr) r0 b0 = Done a b1 ->
               bufio.rd b1 = bufio.rd b2).
    { intros r0 b0 Hrd H. injection H as <- <-. exact Hrd. }
    revert Hk. unfold ret.
    destruct e as [e |].
    - destruct e;
        try (destruct line as [| c line'];
             [ apply Hsame; reflexivity
             | destruct (bufio.endsWith LF (String c line')); apply Hsame; reflexivity ]).
      destruct (bufio.endsWith CR line); apply Hsame; reflexivity.
    - destruct line as [| c line'];
        [ apply Hsame; reflexivity
        | destruct (bufio.endsWith LF (String c line')); apply Hsame; reflexivity ]. }
  rewrite Hrd in Hq.
  destruct (ReadSlice_frame LF b b2 (line, e) Hok Hpad Hrun Hq) as (He & _ & Hrun').
  cbn [snd] in He. subst e. rewrite Hrun'.
  revert Hk. unfold ret.
  destruct line as [| c line']; [| destruct (bufio.endsWith LF (String c line'))];
    intros [= <- <-]; split; eauto.
Qed.

(** [readLineSlice] *)
Lemma readLineSlice_frame (lim : option nat) (b b1 : bufio.Reader)
    (a : string * option liberr) :
  ok b ->
  ok (pad p b) ->
  textproto.readLineSlice lim b = Done a b1 ->
  net.nreads (bufio.rd b1) <= net.nreads (bufio.rd b) ->
  textproto.readLineSlice lim (pad p b) = Done a (pad p b1).
Proof.
  intros Hok Hpad. unfold textproto.readLineSlice.
  cbn [textproto.readLineSlice_loop]. unfold bind.
  destruct (ReadLine_spec b Hok) as ([[l more] e] & b2 & Hrun & Hok2 & L2 & Hdec).
  rewrite Hrun. cbn [snd] in Hdec. intros Hk Hq.
  pose proof (later_nreads _ _ L2) as Hm2.
  assert (Hm : net.nreads (bufio.rd b2) <= net.nreads (bufio.rd b1)).
  { revert Hk. unfold ret.
    destruct e as [e |]; [intros [= <- <-]; lia |].
    destruct (textproto.overLimit lim _); [intros [= <- <-]; lia |].
    destruct more; [| intros [= <- <-]; lia].
    intros Hk.
    pose proof (run_spec _ _ _ _ _
                  (readLineSlice_loop_spec lim _ _ b2 Hok2 (Hdec eq_refl)) Hk)
      as (_ & L3 & _).
    apply (later_nreads _ _ L3). }
  destruct (bufio_ReadLine_frame b b2 _ Hok Hpad Hrun ltac:(lia)) as ((l' & Ha) & Hrun').
  injection Ha as -> -> ->. rewrite Hrun'.
  revert Hk. unfold ret.
  destruct (textproto.overLimit lim _); intros [= <- <-]; reflexivity.
Qed.

Lemma ReadByte_loop_mono :
  forall (fuel : nat) (b b1 : bufio.Reader) (a : ascii + liberr),
    bufio.ReadByte_loop fuel b = Done a b1 ->
    net.nreads (bufio.rd b) <= net.nreads (bufio.rd b1).
Proof.
  induction fuel as [| fuel IH]; intros b b1 a; cbn [bufio.ReadByte_loop];
    (destruct (bufio.buf b); [| intros [= <- <-]; cbn; lia]);
    (destruct (bufio.err b); [intros [= <- <-]; cbn; lia |]).
  - discriminate.
  - unfold bind. destruct (bufio.fill b) as [[] b2 | |] eqn:Hfill; try discriminate.
    intros H. pose proof (fill_reads _ _ Hfill). pose proof (IH _ _ _ H). lia.
Qed.

Lemma ReadByte_loop_step (fuel : nat) (b : bufio.Reader) :
  bufio.ReadByte_loop (S fuel) b
  = match bufio.buf b with
    | String c rest => Done (inl c) (bufio.setBuf rest b)
    | EmptyString =>
        match bufio.err b with
        | Some e => Done (inr e) (bufio.setErr None b)
        | None => bind bufio.fill (fun _ => bufio.ReadByte_loop fuel) b
        end
    end.
Proof. reflexivity. Qed.

(** [ReadByte] *)
Lemma ReadByte_frame (b b1 : bufio.Reader) (a : ascii + liberr) :
  ok b ->
  ok (pad p b) ->
  bufio.ReadByte b = Done a b1 ->
  net.nreads (bufio.rd b1) <= net.nreads (bufio.rd b) ->
  (exists c, a = inl c /\ bufio.buf b = String c (bufio.buf b1)
             /\ b1 = bufio.setBuf (bufio.buf b1) b)
  /\ bufio.ReadByte (pad p b) = Done a (pad p b1).
Proof.
  intros (He & _) Hpad. unfold bufio.ReadByte. rewrite !ReadByte_loop_step.
  unfold pad at 1. unfold bufio.setBuf at 1. cbn [bufio.buf].
  destruct (bufio.buf b) as [| c rest] eqn:Hbuf.
  - rewrite He. unfold bind.
    destruct (bufio.fill b) as [[] b2 | |] eqn:Hfill; try discriminate.
    intros H Hq. pose proof (fill_reads _ _ Hfill).
    pose proof (ReadByte_loop_mono _ _ _ _ H). lia.
  - intros [= <- <-] _. cbn [String.append]. split.
    + exists c. split; [reflexivity |]. split; reflexivity.
    + reflexivity.
Qed.

Lemma Peek_loop_mono (n : nat) :
  forall (fuel : nat) (b b1 : bufio.Reader),
    bufio.Peek_loop fuel n b = Done tt b1 ->
    net.nreads (bufio.rd b) <= net.nreads (bufio.rd b1).
Proof.
  induction fuel as [| fuel IH]; intros b b1; cbn [bufio.Peek_loop];
    (destruct ((bufio.Buffered b <? n) && (bufio.Buffered b <? bufio.size b)
               && bufio.isNone (bufio.err b)); [| intros [= <-]; lia]).
  - discriminate.
  - unfold bind. destruct (bufio.fill b) as [[] b2 | |] eqn:Hfill; try discriminate.
    intros H. pose proof (fill_reads _ _ Hfill). pose proof (IH _ _ H). lia.
Qed.

(** [Peek] when the buffer holds the bytes asked for. *)
Lemma Peek_hit (n : nat) (b : bufio.Reader) :
  n <= bufio.size b ->
  n <= bufio.Buffered b ->
  bufio.Peek n b = Done (slice_to n (bufio.buf b), None) b.
Proof.
  intros Hsz Hn. unfold bufio.Peek, bind. cbn [bufio.Peek_loop].
  assert (H1 : (bufio.Buffered b <? n) = false) by (apply Nat.ltb_ge; exact Hn).
  assert (H2 : (bufio.size b <? n) = false) by (apply Nat.ltb_ge; exact Hsz).
  rewrite H1. cbn [andb]. rewrite H2, H1. reflexivity.
Qed.

(** [Peek] *)
Lemma Peek_frame (n : nat) (b b1 : bufio.Reader) (a : string * option liberr) :
  ok b ->
  ok (pad p b) ->
  n <= 2 ->
  bufio.Peek n b = Done a b1 ->
  net.nreads (bufio.rd b1) <= net.nreads (bufio.rd b) ->
  b1 = b
  /\ a = (slice_to n (bufio.buf b), None)
  /\ n <= bufio.Buffered b
  /\ bufio.Peek n (pad p b) = Done a (pad p b).
Proof.
  intros Hok Hpad Hn Hrun Hq.
  destruct Hok as (He & Hfit & Hsz).
  destruct (ok_pad b Hpad) as [Hfree _].
  destruct (Nat.lt_ge_cases (bufio.Buffered b) n) as [Hshort | Hlong].
  - exfalso. revert Hrun. unfold bufio.Peek, bind. cbn [bufio.Peek_loop].
    assert (H1 : (bufio.Buffered b <? n) = true) by (apply Nat.ltb_lt; exact Hshort).
    assert (H2 : (bufio.Buffered b <? bufio.size b) = true) by (apply Nat.ltb_lt; exact Hfree).
    rewrite H1, H2, He. cbn [andb bufio.isNone]. unfold bind.
    destruct (bufio.fill b) as [[] b2 | |] eqn:Hfill; try discriminate.
    destruct (bufio.Peek_loop (bufio.size b) n b2) as [[] b3 | |] eqn:Hloop; try discriminate.
    pose proof (fill_reads _ _ Hfill). pose proof (Peek_loop_mono _ _ _ _ Hloop).
    destruct (bufio.size b3 <? n); [intros [= <- <-]; lia |].
    destruct (bufio.Buffered b3 <? n); intros [= <- <-]; cbn in Hq; lia.
  - rewrite (Peek_hit n b ltac:(lia) Hlong) in Hrun. injection Hrun as <- <-.
    split; [reflexivity |]. split; [reflexivity |]. split; [exact Hlong |].
    rewrite (Peek_hit n (pad p b)).
    + unfold pad at 1. unfold bufio.setBuf at 1. cbn [bufio.buf].
      rewrite (slice_to_app_le p n (bufio.buf b) Hlong). reflexivity.
    + cbn. lia.
    + unfold pad, bufio.Buffered, bufio.setBuf. cbn [bufio.buf].
      rewrite length_append. unfold bufio.Buffered in Hlong. lia.
Qed.

(** [skipSpace] *)
Lemma skipSpace_loop_frame :
  forall (fuel n : nat) (b b1 : bufio.Reader) (a : nat),
    ok b ->
    ok (pad p b) ->
    bufio.budget b < fuel ->
    textproto.skipSpace_loop fuel n b = Done a b1 ->
    net.nreads (bufio.rd b1) <= net.nreads (bufio.rd b) ->
    forall fuel',
      bufio.budget (pad p b) < fuel' ->
      textproto.skipSpace_loop fuel' n (pad p b) = Done a (pad p b1).
Proof.
  induction fuel as [| fuel IH]; intros n b b1 a Hok Hpad Hfuel Hrun Hq fuel' Hfuel';
    [lia |].
  destruct fuel' as [| fuel']; [lia |].
  cbn [textproto.skipSpace_loop] in *. unfold bind in *.
  destruct (ReadByte_spec b Hok) as (r & b2 & Hrb & Hok2 & L2 & Hr).
  rewrite Hrb in Hrun.
  pose proof (later_nreads _ _ L2) as Hm2.
  assert (Hm : net.nreads (bufio.rd b2) <= net.nreads (bufio.rd b1)).
  { revert Hrun. unfold ret, bufio.UnreadByte.
    destruct r as [c | e]; [| intros [= <- <-]; lia].
    destruct Hr as (_ & Hdec & _).
    destruct (textproto.isSpaceOrTab c); [| intros [= <- <-]; cbn; lia].
    intros Hk.
    pose proof (run_spec _ _ _ _ _ (skipSpace_loop_spec fuel (S n) b2 Hok2 ltac:(lia)) Hk)
      as (_ & L3 & _).
    apply (later_nreads _ _ L3). }
  destruct (ReadByte_frame b b2 r Hok Hpad Hrb ltac:(lia)) as ((c & -> & Hbuf & _) & Hrb').
  rewrite Hrb'.
  pose proof (run_spec _ _ _ _ _ (ReadByte_spec (pad p b) Hpad) Hrb') as (Hpad2 & _).
  destruct Hr as (_ & Hdec & _).
  destruct (textproto.isSpaceOrTab c).
  - apply (IH (S n) b2 b1 a Hok2 Hpad2 ltac:(lia) Hrun ltac:(lia)).
    rewrite budget_pad in *. lia.
  - revert Hrun. unfold ret, bufio.UnreadByte. intros [= <- <-]. reflexivity.
Qed.

Lemma skipSpace_frame (b b1 : bufio.Reader) (a : nat) :
  ok b ->
  ok (pad p b) ->
  textproto.skipSpace b = Done a b1 ->
  net.nreads (bufio.rd b1) <= net.nreads (bufio.rd b) ->
  textproto.skipSpace (pad p b) = Done a (pad p b1).
Proof.
  intros Hok Hpad Hrun Hq. unfold textproto.skipSpace in *.
  apply (skipSpace_loop_frame _ 0 b b1 a Hok Hpad (Nat.lt_succ_diag_r _) Hrun Hq).
  apply Nat.lt_succ_diag_r.
Qed.

(** The loop over continuation lines. *)
Lemma continuation_loop_frame :
  forall (fuel : nat) (acc : string) (b b1 : bufio.Reader) (a : string * option liberr),
    ok b ->
    ok (pad p b) ->
    bufio.budget b < fuel ->
    textproto.continuation_loop fuel acc b = Done a b1 ->
    net.nreads (bufio.rd b1) <= net.nreads (bufio.rd b) ->
    forall fuel',
      bufio.budget (pad p b) < fuel' ->
      textproto.continuation_loop fuel' acc (pad p b) = Done a (pad p b1).
Proof.
  induction fuel as [| fuel IH]; intros acc b b1 a Hok Hpad Hfuel Hrun Hq fuel' Hfuel';
    [lia |].
  destruct fuel' as [| fuel']; [lia |].
  cbn [textproto.continuation_loop] in *. unfold bind in *.
  destruct (skipSpace_spec b Hok) as (n & b2 & Hss & Hok2 & L2 & Hb2).
  rewrite Hss in Hrun.
  pose proof (later_nreads _ _ L2) as Hm2.
  destruct (0 <? n) eqn:Hn.
  - destruct (readLineSlice_spec None b2 Hok2) as ([line e] & b3 & Hrl & Hok3 & L3 & Hdec).
    rewrite Hrl in Hrun. cbn [snd] in Hdec.
    pose proof (later_nreads _ _ L3) as Hm3.
    assert (Hm : net.nreads (bufio.rd b3) <= net.nreads (bufio.rd b1)).
    { revert Hrun. unfold ret. destruct e as [e |]; [intros [= <- <-]; lia |].
      intros Hk.
      pose proof (run_spec _ _ _ _ _
                    (continuation_loop_spec fuel _ b3 Hok3
                       ltac:(specialize (Hdec eq_refl); lia)) Hk) as (_ & L4).
      apply (later_nreads _ _ L4). }
    pose proof (skipSpace_frame b b2 n Hok Hpad Hss ltac:(lia)) as Hss'.
    rewrite Hss', Hn.
    pose proof (run_spec _ _ _ _ _ (skipSpace_spec (pad p b) Hpad) Hss') as (Hpad2 & _).
    pose proof (readLineSlice_frame None b2 b3 _ Hok2 Hpad2 Hrl ltac:(lia)) as Hrl'.
    rewrite Hrl'.
    pose proof (run_spec _ _ _ _ _ (readLineSlice_spec None (pad p b2) Hpad2) Hrl')
      as (Hpad3 & _).
    destruct e as [e |]; [revert Hrun; unfold ret; intros [= <- <-]; reflexivity |].
    specialize (Hdec eq_refl).
    apply (IH _ b3 b1 a Hok3 Hpad3 ltac:(lia) Hrun ltac:(lia)).
    rewrite budget_pad in *. lia.
  - revert Hrun. unfold ret. intros [= <- <-].
    rewrite (skipSpace_frame b b2 n Hok Hpad Hss ltac:(lia)), Hn. reflexivity.
Qed.

(** A quiet continuation loop on a buffer of at most one byte: the byte is
    looked at and put back. *)
Lemma continuation_loop_short (fuel : nat) (acc : string) (b b1 : bufio.Reader)
    (a : string * option liberr) :
  ok b ->
  bufio.Buffered b <= 1 ->
  bufio.budget b < fuel ->
  textproto.continuation_loop fuel acc b = Done a b1 ->
  net.nreads (bufio.rd b1) <= net.nreads (bufio.rd b) ->
  a = (acc, None) /\ b1 = b.
Proof.
  intros Hok Hshort Hfuel Hrun Hq.
  destruct fuel as [| fuel]; [lia |].
  cbn [textproto.continuation_loop] in Hrun. unfold bind in Hrun.
  destruct (skipSpace_spec b Hok) as (n & b2 & Hss & Hok2 & L2 & Hb2).
  rewrite Hss in Hrun.
  pose proof (later_nreads _ _ L2) as Hm2.
  assert (Hm : net.nreads (bufio.rd b2) <= net.nreads (bufio.rd b1)).
  { revert Hrun. unfold ret. destruct (0 <? n); [| intros [= <- <-]; lia].
    destruct (readLineSlice_spec None b2 Hok2) as ([line e] & b3 & Hrl & Hok3 & L3 & Hdec).
    rewrite Hrl. cbn [snd] in Hdec. pose proof (later_nreads _ _ L3) as Hm3.
    destruct e as [e |]; [intros [= <- <-]; lia |]. intros Hk.
    pose proof (run_spec _ _ _ _ _
                  (continuation_loop_spec fuel _ b3 Hok3
                     ltac:(specialize (Hdec eq_refl); lia)) Hk) as (_ & L4).
    pose proof (later_nreads _ _ L4). lia. }
  (* the run of skipSpace *)
  assert (Hskip : n = 0 /\ b2 = b).
  { revert Hss. unfold textproto.skipSpace. cbn [textproto.skipSpace_loop]. unfold bind.
    destruct (ReadByte_spec b Hok) as (r & b3 & Hrb & Hok3 & L3 & Hr).
    rewrite Hrb. pose proof (later_nreads _ _ L3) as Hm3.
    assert (Hm4 : @Done bufio.Reader nat n b2 = Done n b2) by reflexivity.
    destruct r as [c | e].
    - destruct Hr as (_ & Hdec & _).
      destruct (textproto.isSpaceOrTab c).
      + intros Hk. exfalso.
        pose proof (run_spec _ _ _ _ _
                      (skipSpace_loop_spec (bufio.budget b) 1 b3 Hok3 Hdec) Hk)
          as (_ & L5 & _).
        pose proof (later_nreads _ _ L5) as Hm5.
        (* the first byte came from the buffer, the next one cannot *)
        destruct (bufio.buf b) as [| c0 rest] eqn:Hbuf.
        * revert Hrb. unfold bufio.ReadByte. rewrite ReadByte_loop_step, Hbuf.
          destruct Hok as (He & _). rewrite He. unfold bind.
          destruct (bufio.fill b) as [[] b4 | |] eqn:Hfill; try discriminate.
          intros H. pose proof (fill_reads _ _ Hfill).
          pose proof (ReadByte_loop_mono _ _ _ _ H). lia.
        * assert (Hrest : rest = EmptyString).
          { unfold bufio.Buffered in Hshort. rewrite Hbuf in Hshort.
            cbn [String.length] in Hshort. destruct rest; [reflexivity |].
            cbn [String.length] in Hshort. lia. }
          subst rest.
          revert Hrb. unfold bufio.ReadByte. rewrite ReadByte_loop_step, Hbuf.
          intros [= <- <-].
          destruct (bufio.budget b) as [| f] eqn:Hbud; [lia |].
          revert Hk. cbn [textproto.skipSpace_loop]. unfold bind, bufio.ReadByte.
          rewrite ReadByte_loop_step. cbn [bufio.setBuf bufio.buf bufio.err].
          destruct Hok as (He & _). rewrite He. unfold bind.
          destruct (bufio.fill _) as [[] b4 | |] eqn:Hfill; try discriminate.
          destruct (bufio.ReadByte_loop 1 b4) as [r5 b5 | |] eqn:Hrb5; try discriminate.
          pose proof (fill_reads _ _ Hfill) as Hgrow. cbn [bufio.rd] in Hgrow.
          pose proof (ReadByte_loop_mono _ _ _ _ Hrb5).
          intros Hk.
          assert (Hm6 : net.nreads (bufio.rd b5) <= net.nreads (bufio.rd b2)).
          { revert Hk. unfold ret, bufio.UnreadByte.
            destruct r5 as [c5 | e5]; [| intros [= <- <-]; lia].
            destruct (textproto.isSpaceOrTab c5); [| intros [= <- <-]; cbn; lia].
            intros Hk.
            destruct f as [| f]; [discriminate Hk |].
            (* what is left of the loop only reads on *)
            assert (Hmono : forall fu nn bb bb1 aa,
                       textproto.skipSpace_loop fu nn bb = Done aa bb1 ->
                       net.nreads (bufio.rd bb) <= net.nreads (bufio.rd bb1)).
            { induction fu as [| fu IHfu]; intros nn bb bb1 aa; [discriminate |].
              cbn [textproto.skipSpace_loop]. unfold bind, bufio.ReadByte.
              destruct (bufio.ReadByte_loop 2 bb) as [rr bb2 | |] eqn:Hrr; try discriminate.
              pose proof (ReadByte_loop_mono _ _ _ _ Hrr).
              destruct rr as [cc | ee]; [| unfold ret; intros [= <- <-]; lia].
              destruct (textproto.isSpaceOrTab cc).
              - intros Hkk. pose proof (IHfu _ _ _ _ Hkk). lia.
              - unfold ret, bufio.UnreadByte. intros [= <- <-]. cbn. lia. }
            apply (Hmono _ _ _ _ _ Hk). }
          lia.
      + unfold ret, bufio.UnreadByte. intros [= <- <-].
        destruct (bufio.buf b) as [| c0 rest] eqn:Hbuf.
        * exfalso. revert Hrb. unfold bufio.ReadByte. rewrite ReadByte_loop_step, Hbuf.
          destruct Hok as (He & _). rewrite He. unfold bind.
          destruct (bufio.fill b) as [[] b4 | |] eqn:Hfill; try discriminate.
          intros H. pose proof (fill_reads _ _ Hfill).
          pose proof (ReadByte_loop_mono _ _ _ _ H).
          unfold bufio.setBuf in Hm; cbn [bufio.rd] in Hm. lia.
        * revert Hrb. unfold bufio.ReadByte. rewrite ReadByte_loop_step, Hbuf.
          intros [= <- <-]. split; [reflexivity |].
          destruct b as [rd0 buf0 size0 err0]. cbn in *. subst buf0. reflexivity.
    - unfold ret. intros [= <- <-]. exfalso.
      revert Hrb. unfold bufio.ReadByte. rewrite ReadByte_loop_step.
      destruct Hok as (He & _). rewrite He.
      destruct (bufio.buf b); [| discriminate].
      unfold bind.
      destruct (bufio.fill b) as [[] b4 | |] eqn:Hfill; try discriminate.
      intros H. pose proof (fill_reads _ _ Hfill).
      pose proof (ReadByte_loop_mono _ _ _ _ H). lia. }
  destruct Hskip as [-> ->].
  revert Hrun. cbn. unfold ret. intros [= <- <-]. split; reflexivity.
Qed.

Lemma Buffered_pad (b : bufio.Reader) :
  bufio.Buffered (pad p b) = bufio.Buffered b + String.length p.
Proof.
  unfold pad, bufio.Buffered, bufio.setBuf. cbn [bufio.buf]. apply length_append.
Qed.

(** [readContinuedLineSlice] *)
Lemma readContinuedLineSlice_frame (b b1 : bufio.Reader) (a : string * option liberr) :
  ok b ->
  ok (pad p b) ->
  textproto.readContinuedLineSlice b = Done a b1 ->
  net.nreads (bufio.rd b1) <= net.nreads (bufio.rd b) ->
  textproto.readContinuedLineSlice (pad p b) = Done a (pad p b1).
Proof.
  intros Hok Hpad. unfold textproto.readContinuedLineSlice, bind.
  destruct (readLineSlice_spec None b Hok) as ([line e] & b2 & Hrl & Hok2 & L2 & _).
  rewrite Hrl. intros Hrun Hq.
  pose proof (later_nreads _ _ L2) as Hm2.
  assert (H2 : 2 <= bufio.size b2) by (destruct Hok2 as (_ & _ & H); exact H).
  assert (Hm : net.nreads (bufio.rd b2) <= net.nreads (bufio.rd b1)).
  { revert Hrun. unfold ret.
    destruct e as [e |]; [intros [= <- <-]; lia |].
    destruct line as [| c0 line0]; [intros [= <- <-]; lia |].
    destruct (textproto.mustHaveFieldNameColon (String c0 line0));
      [intros [= <- <-]; lia |].
    cbv zeta.
    destruct (1 <? bufio.Buffered b2).
    - destruct (Peek_spec 2 b2 Hok2 H2) as (pk & b3 & Hpk & Hok3 & L3 & _).
      rewrite Hpk. pose proof (later_nreads _ _ L3).
      destruct (textproto.nextLineIsNotContinuation (fst pk));
        [intros [= <- <-]; lia |].
      intros Hk.
      pose proof (run_spec _ _ _ _ _
                    (continuation_loop_spec _ _ b3 Hok3 (Nat.lt_succ_diag_r _)) Hk)
        as (_ & L4).
      pose proof (later_nreads _ _ L4). lia.
    - intros Hk.
      pose proof (run_spec _ _ _ _ _
                    (continuation_loop_spec _ _ b2 Hok2 (Nat.lt_succ_diag_r _)) Hk)
        as (_ & L4).
      apply (later_nreads _ _ L4). }
  pose proof (readLineSlice_frame None b b2 _ Hok Hpad Hrl ltac:(lia)) as Hrl'.
  rewrite Hrl'.
  pose proof (run_spec _ _ _ _ _ (readLineSlice_spec None (pad p b) Hpad) Hrl')
    as (Hpad2 & _).
  revert Hrun. unfold ret.
  destruct e as [e |]; [intros [= <- <-]; reflexivity |].
  destruct line as [| c0 line0]; [intros [= <- <-]; reflexivity |].
  destruct (textproto.mustHaveFieldNameColon (String c0 line0));
    [intros [= <- <-]; reflexivity |].
  cbv zeta.
  destruct (1 <? bufio.Buffered b2) eqn:Hlong.
  - apply Nat.ltb_lt in Hlong.
    assert (Hlong' : (1 <? bufio.Buffered (pad p b2)) = true)
      by (apply Nat.ltb_lt; rewrite Buffered_pad; lia).
    rewrite Hlong'.
    destruct (Peek_spec 2 b2 Hok2 H2) as (pk & b3 & Hpk & Hok3 & L3 & _).
    rewrite Hpk. pose proof (later_nreads _ _ L3) as Hm3.
    intros Hk.
    assert (Hm4 : net.nreads (bufio.rd b3) <= net.nreads (bufio.rd b1)).
    { revert Hk.
      destruct (textproto.nextLineIsNotContinuation (fst pk));
        [intros [= <- <-]; lia |].
      intros Hk.
      pose proof (run_spec _ _ _ _ _
                    (continuation_loop_spec _ _ b3 Hok3 (Nat.lt_succ_diag_r _)) Hk)
        as (_ & L4).
      apply (later_nreads _ _ L4). }
    destruct (Peek_frame 2 b2 b3 pk Hok2 Hpad2 (le_n _) Hpk ltac:(lia))
      as (-> & -> & _ & Hpk').
    rewrite Hpk'. cbn [fst] in *.
    destruct (textproto.nextLineIsNotContinuation (slice_to 2 (bufio.buf b2))).
    + revert Hk. intros [= <- <-]. reflexivity.
    + apply (continuation_loop_frame _ _ b2 b1 a Hok2 Hpad2 (Nat.lt_succ_diag_r _) Hk
               ltac:(lia)).
      apply Nat.lt_succ_diag_r.
  - apply Nat.ltb_ge in Hlong. intros Hk.
    destruct (1 <? bufio.Buffered (pad p b2)) eqn:Hlong'.
    + apply Nat.ltb_lt in Hlong'.
      rewrite (Peek_hit 2 (pad p b2)); [| cbn; lia | lia].
      cbn [fst].
      destruct (textproto.nextLineIsNotContinuation (slice_to 2 (bufio.buf (pad p b2)))).
      * destruct (continuation_loop_short _ _ b2 b1 a Hok2 Hlong (Nat.lt_succ_diag_r _)
                    Hk ltac:(lia)) as [-> ->].
        reflexivity.
      * apply (continuation_loop_frame _ _ b2 b1 a Hok2 Hpad2 (Nat.lt_succ_diag_r _) Hk
                 ltac:(lia)).
        apply Nat.lt_succ_diag_r.
    + apply (continuation_loop_frame _ _ b2 b1 a Hok2 Hpad2 (Nat.lt_succ_diag_r _) Hk
               ltac:(lia)).
      apply Nat.lt_succ_diag_r.
Qed.

Ltac header_cases kv e :=
  destruct kv as [| c0 kv0];
  [ | destruct (strings.Cut (String c0 kv0) ":") as [[k v] okc]; destruct okc; cbn [negb];
      [ destruct (textproto.canonicalMIMEHeaderKey k) as [key ok2]; destruct ok2; cbn [negb];
        [ destruct (textproto.allBytes textproto.validHeaderValueByte v); cbn [negb];
          [ destruct key as [| k0 key0]; [ | destruct e as [e |] ] | ] | ] | ] ].

(** The loop over header lines. *)
Lemma readMIMEHeader_loop_frame :
  forall (fuel : nat) (m : textproto.MIMEHeader) (b b1 : bufio.Reader)
         (a : textproto.MIMEHeader * option liberr),
    ok b ->
    ok (pad p b) ->
    bufio.budget b < fuel ->
    textproto.readMIMEHeader_loop fuel m b = Done a b1 ->
    net.nreads (bufio.rd b1) <= net.nreads (bufio.rd b) ->
    forall fuel',
      bufio.budget (pad p b) < fuel' ->
      textproto.readMIMEHeader_loop fuel' m (pad p b) = Done a (pad p b1).
Proof.
  induction fuel as [| fuel IH]; intros m b b1 a Hok Hpad Hfuel Hrun Hq fuel' Hfuel';
    [lia |].
  destruct fuel' as [| fuel']; [lia |].
  cbn [textproto.readMIMEHeader_loop] in *. unfold bind in *.
  destruct (readContinuedLineSlice_spec b Hok) as ([kv e] & b2 & Hrc & Hok2 & L2 & Hdec).
  rewrite Hrc in Hrun. cbn [fst] in Hdec.
  pose proof (later_nreads _ _ L2) as Hm2.
  assert (Hm : net.nreads (bufio.rd b2) <= net.nreads (bufio.rd b1)).
  { revert Hrun. unfold ret.
    header_cases kv e;
      first
        [ intros [= <- <-]; lia
        | intros Hk;
          pose proof (run_spec _ _ _ _ _
                        (readMIMEHeader_loop_spec fuel _ b2 Hok2
                           ltac:(specialize (Hdec ltac:(discriminate)); lia)) Hk)
            as (_ & L4);
          apply (later_nreads _ _ L4) ]. }
  pose proof (readContinuedLineSlice_frame b b2 _ Hok Hpad Hrc ltac:(lia)) as Hrc'.
  rewrite Hrc'.
  pose proof (run_spec _ _ _ _ _ (readContinuedLineSlice_spec (pad p b) Hpad) Hrc')
    as (Hpad2 & _).
  revert Hrun. unfold ret.
  header_cases kv e;
    first
      [ intros [= <- <-]; reflexivity
      | intros Hk; specialize (Hdec ltac:(discriminate));
        apply (IH _ b2 b1 a Hok2 Hpad2 ltac:(lia) Hk ltac:(lia));
        rewrite budget_pad in *; lia ].
Qed.

(** [ReadMIMEHeader] *)
Lemma ReadMIMEHeader_frame (b b1 : bufio.Reader)
    (a : textproto.MIMEHeader * option liberr) :
  ok b ->
  ok (pad p b) ->
  textproto.ReadMIMEHeader b = Done a b1 ->
  net.nreads (bufio.rd b1) <= net.nreads (bufio.rd b) ->
  textproto.ReadMIMEHeader (pad p b) = Done a (pad p b1).
Proof.
  intros Hok Hpad. unfold textproto.ReadMIMEHeader, textproto.upcomingHeaderKeys, bind.
  assert (H1 : forall r, ok r -> 1 <= bufio.size r) by (intros r (_ & _ & H); lia).
  destruct (Peek_spec 1 b Hok (H1 b Hok)) as (pk1 & b2 & Hp1 & Hok2 & L2 & _).
  rewrite Hp1. unfold ret at 1.
  destruct (Peek_spec 1 b2 Hok2 (H1 b2 Hok2)) as (pk2 & b3 & Hp2 & Hok3 & L3 & _).
  rewrite Hp2. intros Hrun Hq.
  pose proof (later_nreads _ _ L2) as Hm2. pose proof (later_nreads _ _ L3) as Hm3.
  assert (Hm : net.nreads (bufio.rd b3) <= net.nreads (bufio.rd b1)).
  { revert Hrun.
    assert (Hloop : textproto.readMIMEHeader_loop (S (bufio.budget b3)) ∅ b3 = Done a b1 ->
                    net.nreads (bufio.rd b3) <= net.nreads (bufio.rd b1)).
    { intros Hk.
      pose proof (run_spec _ _ _ _ _
                    (readMIMEHeader_loop_spec _ _ b3 Hok3 (Nat.lt_succ_diag_r _)) Hk)
        as (_ & L4).
      apply (later_nreads _ _ L4). }
    destruct pk2 as [[| c s] [e |]]; try exact Hloop.
    destruct (textproto.isSpaceOrTab c); [| exact Hloop].
    destruct (readLineSlice_spec (Some 80) b3 Hok3) as (r & b4 & Hrl & _ & L4 & _).
    rewrite Hrl. pose proof (later_nreads _ _ L4).
    unfold ret. destruct (snd r); intros [= <- <-]; lia. }
  destruct (Peek_frame 1 b b2 pk1 Hok Hpad ltac:(lia) Hp1 ltac:(lia))
    as (-> & -> & _ & Hp1').
  rewrite Hp1'. unfold ret at 1.
  destruct (Peek_frame 1 b b3 pk2 Hok Hpad ltac:(lia) Hp2 ltac:(lia))
    as (-> & -> & _ & Hp2').
  rewrite Hp2'.
  assert (Hloop : textproto.readMIMEHeader_loop (S (bufio.budget b)) ∅ b = Done a b1 ->
                  textproto.readMIMEHeader_loop (S (bufio.budget (pad p b))) ∅ (pad p b)
                  = Done a (pad p b1)).
  { intros Hk.
    apply (readMIMEHeader_loop_frame _ _ b b1 a Hok Hpad (Nat.lt_succ_diag_r _) Hk
             ltac:(lia)).
    apply Nat.lt_succ_diag_r. }
  revert Hrun.
  destruct (slice_to 1 (bufio.buf b)) as [| c s]; [exact Hloop |].
  destruct (textproto.isSpaceOrTab c); [| exact Hloop].
  destruct (readLineSlice_spec (Some 80) b Hok) as (r & b4 & Hrl & _ & L4 & _).
  rewrite Hrl. pose proof (later_nreads _ _ L4) as Hm4.
  intros Hk.
  assert (Hb : b1 = b4) by (revert Hk; unfold ret; destruct (snd r); intros [= <- <-]; reflexivity).
  subst b4.
  rewrite (readLineSlice_frame (Some 80) b b1 r Hok Hpad Hrl ltac:(lia)).
  revert Hk. unfold ret. destruct (snd r); intros [= <-]; reflexivity.
Qed.

Ltac status_cases line e :=
  destruct e as [e |];
  [ | destruct (strings.Cut line " ") as [[proto status] okc]; destruct okc; cbn [negb];
      [ cbv zeta;
        destruct (strings.Cut (strings.TrimLeft status " ") " ") as [[statusCode x1] x2];
        destruct (negb (String.length statusCode =? 3));
        [ | destruct (http.Atoi statusCode) as [code |];
            [ destruct (code <? 0)%Z;
              [ | destruct (http.ParseHTTPVersion proto) as [[major minor] |] ] | ] ] | ] ].

(** [http.ReadResponse] *)
Lemma ReadResponse_frame (framing : http.Framing) (req : http.Request)
    (b b1 : bufio.Reader) (a : liberr + http.Response) :
  ok b ->
  ok (pad p b) ->
  http.ReadResponse framing req b = Done a b1 ->
  net.nreads (bufio.rd b1) <= net.nreads (bufio.rd b) ->
  http.ReadResponse framing req (pad p b) = Done a (pad p b1).
Proof.
  intros Hok Hpad. unfold http.ReadResponse, bind, textproto.ReadLine.
  destruct (readLineSlice_spec None b Hok) as ([line e] & b2 & Hrl & Hok2 & L2 & _).
  rewrite Hrl. intros Hrun Hq.
  pose proof (later_nreads _ _ L2) as Hm2.
  destruct (ReadMIMEHeader_spec b2 Hok2) as ([mh e2] & b3 & Hmh & Hok3 & L3).
  pose proof (later_nreads _ _ L3) as Hm3.
  assert (Hm : net.nreads (bufio.rd b2) <= net.nreads (bufio.rd b1)).
  { revert Hrun. unfold ret.
    status_cases line e;
      first [ intros [= <- <-]; lia
            | rewrite Hmh; destruct e2; intros [= <- <-]; lia ]. }
  pose proof (readLineSlice_frame None b b2 _ Hok Hpad Hrl ltac:(lia)) as Hrl'.
  rewrite Hrl'.
  pose proof (run_spec _ _ _ _ _ (readLineSlice_spec None (pad p b) Hpad) Hrl')
    as (Hpad2 & _).
  revert Hrun. unfold ret.
  status_cases line e;
    first [ intros [= <- <-]; reflexivity | idtac ].
  rewrite Hmh. intros Hk.
  assert (Hb : b1 = b3) by (revert Hk; destruct e2; intros [= <- <-]; reflexivity).
  subst b3.
  rewrite (ReadMIMEHeader_frame b2 b1 _ Hok2 Hpad2 Hmh ltac:(lia)).
  revert Hk. destruct e2; intros [= <-]; reflexivity.
Qed.

End Frame.

(** C7 (amended): when the first read finds a valid 101 reply and the
    payload bytes behind it in one segment, and the caller's buffer is at
    least as long as that whole segment (reply and payload together), the
    read returns exactly the payload, drained from the buffered reader,
    and the connection has been read once in the call: the drain does not
    read it again, however short the payload is.  The reply [head] is
    valid when the parser, given exactly [head], takes all of it as one
    response without asking the connection for more, and that response
    passes the handshake check. *)
Theorem C7_first_read_returns_buffered_payload
    (L : GoLib) (c : ConnRF) (b : ByteSlice) (head payload : string)
    (rest : list net.event) (resp : http.Response) :
  First c = true ->
  net.incoming (Conn c) = net.Seg (head ++ payload) :: rest ->
  String.length (head ++ payload) <= len b ->
  len b <= cap b ->
  completeReply L (Req c) (afterFirstRead (Conn c) (len b) rest)
    (Nat.max (len b) bufio.minReadBufferSize) head resp ->
  replyMismatch L resp = false ->
  Read L c b
  = (Return payload None,
     mkConnRF (afterFirstRead (Conn c) (len b) rest) (Req c) false)
  /\ firstParse L c b
     = Done (inr resp)
         (bufio.mkReader (afterFirstRead (Conn c) (len b) rest) payload
            (Nat.max (len b) bufio.minReadBufferSize) None)
  /\ net.nreads (afterFirstRead (Conn c) (len b) rest) = S (net.nreads (Conn c)).
Proof.
  intros HF Hin Hlen Hcap Hcomplete Hvalid.
  set (size := Nat.max (len b) bufio.minReadBufferSize) in *.
  set (conn1 := afterFirstRead (Conn c) (len b) rest) in *.
  assert (Hsz : 16 <= size) by (subst size; unfold bufio.minReadBufferSize; lia).
  assert (Hfit : String.length (head ++ payload) <= size) by (subst size; lia).
  assert (Hfit0 : String.length head <= size) by (rewrite length_append in Hfit; lia).
  assert (Hhead : head <> EmptyString).
  { intros ->. unfold completeReply in Hcomplete.
    pose proof (ReadResponse_reads (framing L) (Req c)
                  (bufio.mkReader conn1 EmptyString size None)
                  (bufio.mkReader conn1 EmptyString size None) (inr resp)
                  (filled_ok conn1 EmptyString size (Nat.le_0_l _) Hsz) eq_refl Hcomplete)
      as Hn.
    cbn [bufio.rd] in Hn. lia. }
  assert (Hseg : head ++ payload <> EmptyString)
    by (destruct head; [contradiction | discriminate]).
  assert (Hparse : firstParse L c b
                   = Done (inr resp) (bufio.mkReader conn1 payload size None)).
  { unfold firstParse.
    rewrite (ReadResponse_first_fill (framing L) (Req c) (Conn c) (len b)
               (head ++ payload) rest Hin Hseg Hfit).
    fold size conn1.
    destruct payload as [| c0 payload0] eqn:Hpay.
    - rewrite append_nil_r. exact Hcomplete.
    - rewrite <- Hpay in *.
      assert (Hne : payload <> EmptyString) by (rewrite Hpay; discriminate).
      apply (ReadResponse_frame payload Hne (framing L) (Req c)
               (bufio.mkReader conn1 head size None)
               (bufio.mkReader conn1 EmptyString size None) (inr resp)).
      + apply filled_ok; assumption.
      + apply (filled_ok conn1 (head ++ payload) size Hfit Hsz).
      + exact Hcomplete.
      + apply le_n. }
  split; [| split; [exact Hparse | reflexivity]].
  unfold firstParse in Hparse. unfold Read. rewrite HF, Hparse, Hvalid.
  assert (Hok : ok (bufio.mkReader conn1 payload size None)).
  { apply filled_ok; [rewrite length_append in Hfit; lia | exact Hsz]. }
  destruct (drain_spec _ Hok) as (reader' & Hdrain & Hrd).
  assert (Hroom : (bufio.Buffered (bufio.mkReader conn1 payload size None) <=? cap b) = true).
  { apply Nat.leb_le. unfold bufio.Buffered. cbn [bufio.buf].
    rewrite length_append in Hlen. lia. }
  rewrite Hroom, Hdrain, Hrd. reflexivity.
Qed.

(** C7 at the standard reply followed by five payload bytes in its
    segment. *)
Lemma C7_first_read_witness :
  let c := pending [net.Seg (switchingProtocols ++ "hello"); net.Seg "world"] in
  let b := mkSlice 128 128 in
  let resp :=
    http.mkResponse "101 Switching Protocols" 101 "HTTP/1.1" 1 1
      (<["Connection" := ["upgrade"]]> (<["Upgrade" := ["websocket"]]> ∅)) in
  Read plainLib c b
  = (Return "hello" None,
     mkConnRF (afterFirstRead (Conn c) (len b) [net.Seg "world"]) (Req c) false)
  /\ firstParse plainLib c b
     = Done (inr resp)
         (bufio.mkReader (afterFirstRead (Conn c) (len b) [net.Seg "world"]) "hello"
            (Nat.max (len b) bufio.minReadBufferSize) None)
  /\ net.nreads (afterFirstRead (Conn c) (len b) [net.Seg "world"])
     = S (net.nreads (Conn c)).
Proof.
  apply (C7_first_read_returns_buffered_payload plainLib
           (pending [net.Seg (switchingProtocols ++ "hello"); net.Seg "world"])
           (mkSlice 128 128) switchingProtocols "hello" [net.Seg "world"]
           (http.mkResponse "101 Switching Protocols" 101 "HTTP/1.1" 1 1
              (<["Connection" := ["upgrade"]]> (<["Upgrade" := ["websocket"]]> ∅)))).
  - reflexivity.
  - reflexivity.
  - vm_compute. lia.
  - vm_compute. lia.
  - vm_compute. reflexivity.
  - vm_compute. reflexivity.
Defined.

(** * Further properties of the dialer

    The request that [dialhttpUpgrade] builds, [AddHeader], the reads of
    a [ConnRF] and the outcomes of [dialhttpUpgrade] and [Dial], for every
    configuration and every connection. *)

(** ** The header map of the request *)

(** One step of the canonical form: the byte that [canonicalize] writes is
    a token byte in the case its position calls for. *)
Lemma canonicalize_byte (upper : bool) (c : ascii) :
  textproto.validHeaderFieldByte c = true ->
  let c' := if upper && isLower c then upperASCII c
            else if negb upper && isUpper c then lowerASCII c
            else c in
  textproto.validHeaderFieldByte c' = true
  /\ upper && isLower c' = false
  /\ negb upper && isUpper c' = false.
Proof.
  destruct upper; destruct c as [[] [] [] [] [] [] [] []];
    vm_compute; intros H; first [discriminate H | repeat split; reflexivity].
Qed.

Lemma needsCanon_canonicalize (a : string) :
  forall upper : bool,
    textproto.allBytes textproto.validHeaderFieldByte a = true ->
    textproto.needsCanon upper (textproto.canonicalize upper a) = None.
Proof.
  induction a as [| c a IH]; intros upper Hall; [reflexivity |].
  cbn [textproto.allBytes] in Hall. apply andb_true_iff in Hall as [Hc Ha].
  cbn [textproto.canonicalize].
  destruct (canonicalize_byte upper c Hc) as (Hv & Hl & Hu).
  cbv zeta in Hv, Hl, Hu.
  set (c' := if upper && isLower c then upperASCII c
             else if negb upper && isUpper c then lowerASCII c else c) in *.
  cbn [textproto.needsCanon]. rewrite Hv, Hl, Hu. cbn [negb].
  apply IH, Ha.
Qed.

(** [CanonicalMIMEHeaderKey] is idempotent. *)
Lemma CanonicalMIMEHeaderKey_idem (s : string) :
  textproto.CanonicalMIMEHeaderKey (textproto.CanonicalMIMEHeaderKey s)
  = textproto.CanonicalMIMEHeaderKey s.
Proof.
  unfold textproto.CanonicalMIMEHeaderKey at 2 3.
  destruct (textproto.needsCanon true s) as [[|]|] eqn:E.
  - unfold textproto.canonicalMIMEHeaderKey.
    destruct (textproto.allBytes
                (fun c => textproto.validHeaderFieldByte c || Ascii.eqb c SP) s) eqn:A;
      cbn [negb fst].
    + destruct (textproto.allBytes textproto.validHeaderFieldByte s) eqn:B; cbn [negb fst].
      * unfold textproto.CanonicalMIMEHeaderKey.
        rewrite (needsCanon_canonicalize s true B). reflexivity.
      * unfold textproto.CanonicalMIMEHeaderKey, textproto.canonicalMIMEHeaderKey.
        rewrite E, A, B. reflexivity.
    + unfold textproto.CanonicalMIMEHeaderKey, textproto.canonicalMIMEHeaderKey.
      rewrite E, A. reflexivity.
  - unfold textproto.CanonicalMIMEHeaderKey. rewrite E. reflexivity.
  - unfold textproto.CanonicalMIMEHeaderKey. rewrite E. reflexivity.
Qed.

Lemma values_insert (h : gmap string (list string)) (k key : string) (vs : list string) :
  textproto.values (<[k := vs]> h) key
  = if String.eqb k key then vs else textproto.values h key.
Proof.
  unfold textproto.values. rewrite lookup_insert.
  destruct (String.eqb_spec k key) as [-> | Hne].
  - rewrite decide_True by reflexivity. reflexivity.
  - rewrite decide_False by exact Hne. reflexivity.
Qed.

(** The loop of lines 80-82, started from any header map. *)
Lemma configured_fold (l : list (string * string)) :
  forall (h : gmap string (list string)) (key : string),
    textproto.values
      (fold_left (fun h kv => textproto.Add h (fst kv) (snd kv)) l h) key
    = (textproto.values h key
       ++ List.map snd
            (List.filter
               (fun kv => String.eqb (textproto.CanonicalMIMEHeaderKey (fst kv)) key) l))%list.
Proof.
  induction l as [| [k v] l IH]; intros h key; cbn [fold_left List.filter List.map fst snd].
  - rewrite app_nil_r. reflexivity.
  - rewrite IH. unfold textproto.Add at 1. rewrite values_insert.
    destruct (String.eqb_spec (textproto.CanonicalMIMEHeaderKey k) key) as [-> | Hne].
    + cbn [List.map snd]. rewrite <- app_assoc. reflexivity.
    + reflexivity.
Qed.

(** Every key that the loop of lines 80-82 stores is in canonical form and
    holds at least one value, provided the map it starts from is so. *)
Lemma configured_fold_keys (l : list (string * string)) :
  forall h : gmap string (list string),
    (forall k vs, h !! k = Some vs ->
       textproto.CanonicalMIMEHeaderKey k = k /\ vs <> []) ->
    forall k vs,
      fold_left (fun h kv => textproto.Add h (fst kv) (snd kv)) l h !! k = Some vs ->
      textproto.CanonicalMIMEHeaderKey k = k /\ vs <> [].
Proof.
  induction l as [| [k0 v0] l IH]; intros h Hh k vs; cbn [fold_left fst snd].
  - apply Hh.
  - apply IH. intros k' vs'. unfold textproto.Add, textproto.MIMEHeader. cbv zeta.
    rewrite lookup_insert.
    destruct (decide (textproto.CanonicalMIMEHeaderKey k0 = k')) as [<- | Hne].
    + intros [= <-]. split; [apply CanonicalMIMEHeaderKey_idem |].
      destruct (textproto.values h (textproto.CanonicalMIMEHeaderKey k0)); discriminate.
    + apply Hh.
Qed.

(** X1: whatever headers are configured, the request header map holds
    exactly ["upgrade"] under ["Connection"] and exactly ["websocket"]
    under ["Upgrade"]: a configured value for either key, in any casing, is
    replaced (lines 83-84 run [Set] after the loop of lines 80-82). *)
Theorem X1_mandatory_headers_replace_configured (transportConfiguration : Config) :
  requestHeader transportConfiguration !! "Connection" = Some ["upgrade"]
  /\ requestHeader transportConfiguration !! "Upgrade" = Some ["websocket"].
Proof.
  unfold requestHeader, textproto.Set_, textproto.MIMEHeader.
  change (textproto.CanonicalMIMEHeaderKey "Connection") with "Connection".
  change (textproto.CanonicalMIMEHeaderKey "Upgrade") with "Upgrade".
  split.
  - rewrite lookup_insert_ne by discriminate. apply lookup_insert_eq.
  - apply lookup_insert_eq.
Qed.

(** X2: every key of the request header map is a fixed point of
    [CanonicalMIMEHeaderKey], and no key holds an empty list of values: no
    configured casing other than the canonical one reaches the request. *)
Theorem X2_request_header_keys_are_canonical
    (transportConfiguration : Config) (key : string) (vs : list string) :
  requestHeader transportConfiguration !! key = Some vs ->
  textproto.CanonicalMIMEHeaderKey key = key /\ vs <> [].
Proof.
  unfold requestHeader, textproto.Set_, textproto.MIMEHeader.
  change (textproto.CanonicalMIMEHeaderKey "Connection") with "Connection".
  change (textproto.CanonicalMIMEHeaderKey "Upgrade") with "Upgrade".
  rewrite lookup_insert.
  destruct (decide ("Upgrade" = key)) as [<- | _].
  { intros [= <-]. split; [reflexivity | discriminate]. }
  rewrite lookup_insert.
  destruct (decide ("Connection" = key)) as [<- | _].
  { intros [= <-]. split; [reflexivity | discriminate]. }
  apply configured_fold_keys.
  intros k vs' H. rewrite lookup_empty in H. discriminate H.
Qed.

(** X2 at a configuration with one lower-case key. *)
Lemma X2_request_header_keys_witness :
  textproto.CanonicalMIMEHeaderKey "X-Real-Ip" = "X-Real-Ip" /\ ["1.2.3.4"] <> [].
Proof.
  apply (X2_request_header_keys_are_canonical
           (mkConfig "example.com" "/" [("x-real-ip", "1.2.3.4")] 0%N)
           "X-Real-Ip" ["1.2.3.4"]).
  vm_compute. reflexivity.
Defined.

(** X3: under every key other than ["Connection"] and ["Upgrade"], the
    request header map holds the values of the configured headers whose
    key has that canonical form, in the order in which the loop visited
    them, and nothing else. *)
Theorem X3_configured_values_in_order (transportConfiguration : Config) (key : string) :
  key <> "Connection" ->
  key <> "Upgrade" ->
  textproto.values (requestHeader transportConfiguration) key
  = configuredValues transportConfiguration key.
Proof.
  intros HC HU. unfold requestHeader, textproto.Set_, textproto.MIMEHeader, configuredValues.
  change (textproto.CanonicalMIMEHeaderKey "Connection") with "Connection".
  change (textproto.CanonicalMIMEHeaderKey "Upgrade") with "Upgrade".
  rewrite !values_insert.
  destruct (String.eqb_spec "Upgrade" key) as [E | _]; [congruence |].
  destruct (String.eqb_spec "Connection" key) as [E | _]; [congruence |].
  rewrite configured_fold. unfold textproto.values at 1. rewrite lookup_empty.
  reflexivity.
Qed.

(** X3 at two configured keys of the same canonical form. *)
Lemma X3_configured_values_witness :
  textproto.values
    (requestHeader (mkConfig "example.com" "/" [("x-a", "1"); ("X-A", "2"); ("b", "3")] 0%N))
    "X-A"
  = ["1"; "2"].
Proof.
  apply (X3_configured_values_in_order
           (mkConfig "example.com" "/" [("x-a", "1"); ("X-A", "2"); ("b", "3")] 0%N) "X-A");
    discriminate.
Defined.

(** ** [AddHeader] *)

(** X4: [AddHeader] called once per value of a list, on one key, leaves
    the values under that key as they were followed by the new ones in
    call order (the key is created when it was absent), under the key as
    written, and leaves every other key as it was. *)
Theorem X4_AddHeader_appends_in_call_order
    (header : gmap string (list string)) (key : string) (vs : list string) :
  let header' := fold_left (fun h v => AddHeader h key v) vs header in
  textproto.values header' key = (textproto.values header key ++ vs)%list
  /\ forall k, k <> key -> header' !! k = header !! k.
Proof.
  cbv zeta. revert header. induction vs as [| v vs IH]; intros header; cbn [fold_left].
  - rewrite app_nil_r. split; reflexivity.
  - destruct (IH (AddHeader header key v)) as [Hv Hk]. split.
    + rewrite Hv. unfold AddHeader. rewrite values_insert, String.eqb_refl.
      rewrite <- app_assoc. reflexivity.
    + intros k Hne. rewrite (Hk k Hne). unfold AddHeader.
      apply lookup_insert_ne. congruence.
Qed.

(** X5: what [Header.Get] sees after [AddHeader].  A value stored under a
    key that is not in canonical form is invisible to [Get] with that same
    key; under a canonical key [Get] returns the first value, which is the
    new one only when the key held none.  After [Header.Add] the value is
    always visible. *)
Theorem X5_Get_after_AddHeader
    (header : gmap string (list string)) (key value : string) :
  textproto.Get (AddHeader header key value) key
  = (if String.eqb (textproto.CanonicalMIMEHeaderKey key) key
     then hd value (textproto.values header key)
     else textproto.Get header key)
  /\ textproto.Get (textproto.Add header key value) key
     = hd value (textproto.values header (textproto.CanonicalMIMEHeaderKey key)).
Proof.
  split.
  - unfold textproto.Get, AddHeader. rewrite values_insert.
    destruct (String.eqb_spec (textproto.CanonicalMIMEHeaderKey key) key) as [E | Hne].
    + rewrite E, String.eqb_refl. destruct (textproto.values header key); reflexivity.
    + destruct (String.eqb_spec key (textproto.CanonicalMIMEHeaderKey key)) as [E | _];
        [congruence | reflexivity].
  - unfold textproto.Get, textproto.Add. rewrite values_insert, String.eqb_refl.
    destruct (textproto.values header (textproto.CanonicalMIMEHeaderKey key)); reflexivity.
Qed.

(** ** The path steps (lines 86-99) *)

Lemma mem_app (c : ascii) (a b : string) : mem c (a ++ b) = mem c a || mem c b.
Proof.
  induction a as [| d a IH]; cbn [String.append mem]; [reflexivity |].
  rewrite IH, orb_assoc. reflexivity.
Qed.

Lemma prefix_byte (c : ascii) (s : string) :
  String.prefix (String c EmptyString) s
  = match s with String d _ => Ascii.eqb c d | EmptyString => false end.
Proof.
  destruct s as [| d s]; cbn [String.prefix]; [reflexivity |].
  destruct (ascii_dec c d) as [-> | Hne].
  - rewrite Ascii.eqb_refl. destruct s; reflexivity.
  - apply Ascii.eqb_neq in Hne. rewrite Hne. reflexivity.
Qed.

Lemma Index_step (c d : ascii) (s : string) :
  strings.Index (String d s) (String c EmptyString)
  = if Ascii.eqb c d then Some 0
    else option_map S (strings.Index s (String c EmptyString)).
Proof.
  cbn [strings.Index]. rewrite prefix_byte. reflexivity.
Qed.

Lemma Index_absent (c : ascii) (s : string) :
  mem c s = false -> strings.Index s (String c EmptyString) = None.
Proof.
  induction s as [| d s IH]; intros H; [reflexivity |].
  cbn [mem] in H. apply orb_false_iff in H as [Hd Hs].
  rewrite Index_step, Hd, (IH Hs). reflexivity.
Qed.

Lemma Index_first (c : ascii) (a b : string) :
  mem c a = false ->
  strings.Index (a ++ String c b) (String c EmptyString) = Some (String.length a).
Proof.
  induction a as [| d a IH]; intros H; cbn [String.append String.length].
  - rewrite Index_step, Ascii.eqb_refl. reflexivity.
  - cbn [mem] in H. apply orb_false_iff in H as [Hd Ha].
    rewrite Index_step, Hd, (IH Ha). reflexivity.
Qed.

Lemma slice_to_app (a b : string) : slice_to (String.length a) (a ++ b) = a.
Proof.
  induction a as [| d a IH]; cbn [String.append String.length slice_to].
  - destruct b; reflexivity.
  - rewrite IH. reflexivity.
Qed.

Lemma slice_from_app (c : ascii) (a b : string) :
  slice_from (String.length a + 1) (a ++ String c b) = b.
Proof.
  induction a as [| d a IH]; cbn [String.append String.length slice_from Nat.add].
  - destruct b; reflexivity.
  - exact IH.
Qed.

Lemma Replace_absent (t : string) :
  mem SP t = false -> strings.Replace t " " ":" 1 = t.
Proof.
  intros H. unfold strings.Replace. cbn [String.eqb Ascii.eqb Bool.eqb orb Z.eqb Z.ltb Z.compare].
  change (Z.to_nat 1) with 1. cbn [strings.Replace_loop].
  change " " with (String SP EmptyString). rewrite (Index_absent SP t H). reflexivity.
Qed.

Lemma Replace_first (x y : string) :
  mem SP x = false ->
  strings.Replace (x ++ String SP y) " " ":" 1 = x ++ String ":" y.
Proof.
  intros H. unfold strings.Replace. cbn [String.eqb Ascii.eqb Bool.eqb orb Z.eqb Z.ltb Z.compare].
  change (Z.to_nat 1) with 1. cbn [strings.Replace_loop].
  change " " with (String SP EmptyString). rewrite (Index_first SP x y H).
  rewrite slice_to_app. change (String.length (String SP EmptyString)) with 1.
  rewrite slice_from_app.
  destruct (String.length (x ++ String SP y)); reflexivity.
Qed.

Lemma Split_loop_absent (c : ascii) (s : string) (fuel : nat) :
  mem c s = false -> strings.Split_loop fuel s (String c EmptyString) = [s].
Proof.
  intros H. destruct fuel; cbn [strings.Split_loop]; [reflexivity |].
  rewrite (Index_absent c s H). reflexivity.
Qed.

Lemma Split_loop_first (c : ascii) (a b : string) (fuel : nat) :
  mem c a = false ->
  strings.Split_loop (S fuel) (a ++ String c b) (String c EmptyString)
  = a :: strings.Split_loop fuel b (String c EmptyString).
Proof.
  intros H. cbn [strings.Split_loop]. rewrite (Index_first c a b H).
  rewrite slice_to_app. change (String.length (String c EmptyString)) with 1.
  rewrite slice_from_app. reflexivity.
Qed.

Lemma Split_one (t : string) : mem ":" t = false -> strings.Split t ":" = [t].
Proof. intros H. apply (Split_loop_absent ":" t _ H). Qed.

Lemma Split_two (a b : string) :
  mem ":" a = false -> mem ":" b = false ->
  strings.Split (a ++ String ":" b) ":" = [a; b].
Proof.
  intros Ha Hb. unfold strings.Split.
  change ":" with (String ":"%char EmptyString).
  rewrite (Split_loop_first _ _ _ _ Ha), (Split_loop_absent _ _ _ Hb). reflexivity.
Qed.

Lemma Split_three (a b c : string) :
  mem ":" a = false -> mem ":" b = false -> mem ":" c = false ->
  strings.Split (a ++ String ":" (b ++ String ":" c)) ":" = [a; b; c].
Proof.
  intros Ha Hb Hc. unfold strings.Split.
  change ":" with (String ":"%char EmptyString).
  rewrite (Split_loop_first _ _ _ _ Ha).
  rewrite length_append. cbn [String.length]. rewrite Nat.add_succ_r.
  rewrite (Split_loop_first _ _ _ _ Hb), (Split_loop_absent _ _ _ Hc). reflexivity.
Qed.

(** A string whose escapes are all well formed decodes piece by piece. *)
Lemma unescape_app (n : nat) :
  forall s1 s2 : string,
    String.length s1 <= n ->
    url.badEscape s1 = None ->
    url.badEscape (s1 ++ s2) = url.badEscape s2
    /\ url.decode (s1 ++ s2) = url.decode s1 ++ url.decode s2.
Proof.
  induction n as [| n IH]; intros s1 s2 Hlen Hbad.
  - destruct s1; [split; reflexivity | cbn [String.length] in Hlen; lia].
  - destruct s1 as [| c s1]; [split; reflexivity |].
    cbn [String.length] in Hlen.
    cbn [String.append url.badEscape url.decode] in *.
    destruct (Ascii.eqb c "%") eqn:Ec.
    + destruct s1 as [| a [| b s3]]; try discriminate Hbad.
      cbn [String.append].
      destruct (url.ishex a && url.ishex b); [| discriminate Hbad].
      cbn [String.length] in Hlen.
      destruct (IH s3 s2 ltac:(lia) Hbad) as [Hb Hd].
      rewrite Hb, Hd. split; reflexivity.
    + destruct (IH s1 s2 ltac:(lia) Hbad) as [Hb Hd].
      rewrite Hb, Hd. destruct (Ascii.eqb c "+"); split; reflexivity.
Qed.

Lemma unescape_plain (s : string) :
  mem "%" s = false -> mem "+" s = false ->
  url.badEscape s = None /\ url.decode s = s.
Proof.
  induction s as [| c s IH]; intros Hp Hq; [split; reflexivity |].
  cbn [mem] in Hp, Hq.
  apply orb_false_iff in Hp as [Hp Hps]. apply orb_false_iff in Hq as [Hq Hqs].
  destruct (IH Hps Hqs) as [Hb Hd].
  cbn [url.badEscape url.decode].
  rewrite (Ascii.eqb_sym c "%"), Hp, (Ascii.eqb_sym c "+"), Hq, Hb, Hd.
  split; reflexivity.
Qed.

Lemma plain_parts (s : string) :
  plain s = true ->
  mem "%" s = false /\ mem "+" s = false /\ mem SP s = false /\ mem ":" s = false.
Proof.
  unfold plain. intros H. apply negb_true_iff in H.
  apply orb_false_iff in H as [H H4]. apply orb_false_iff in H as [H H3].
  apply orb_false_iff in H as [H1 H2]. repeat split; assumption.
Qed.

(** [url.QueryUnescape] on a piece, as the two facts it is made of. *)
Lemma QueryUnescape_ok (s d : string) :
  url.QueryUnescape s = (d, None) <-> url.badEscape s = None /\ url.decode s = d.
Proof.
  unfold url.QueryUnescape. destruct (url.badEscape s); split.
  - discriminate.
  - intros [H _]. discriminate H.
  - intros [= <-]. split; reflexivity.
  - intros [_ <-]. reflexivity.
Qed.

Lemma QueryUnescape_app (s1 s2 d1 d2 : string) :
  url.QueryUnescape s1 = (d1, None) ->
  url.QueryUnescape s2 = (d2, None) ->
  url.QueryUnescape (s1 ++ s2) = (d1 ++ d2, None).
Proof.
  rewrite !QueryUnescape_ok. intros [B1 D1] [B2 D2].
  destruct (unescape_app (String.length s1) s1 s2 (le_n _) B1) as [Hb Hd].
  rewrite Hb, Hd, D1, D2. split; [assumption | reflexivity].
Qed.

Lemma QueryUnescape_plain (s : string) :
  plain s = true -> url.QueryUnescape s = (s, None).
Proof.
  intros H. destruct (plain_parts s H) as (Hp & Hq & _ & _).
  apply QueryUnescape_ok. apply unescape_plain; assumption.
Qed.

(** The path steps once the path has been decoded: what is left depends
    on the decoded string with its leading ["/"] removed. *)
Lemma encodePath_decoded (scheme opaque host path decoded : string) :
  path <> EmptyString ->
  url.QueryUnescape path = (decoded, None) ->
  encodePath (url.mkURL scheme opaque host path)
  = let pathTrimmed := strings.TrimPrefix decoded "/" in
    let pathSplited := strings.Split (strings.Replace pathTrimmed " " ":" 1) ":" in
    if List.length pathSplited =? 2 then url.mkURL scheme pathTrimmed host path
    else if List.length pathSplited =? 3
         then url.mkURL scheme
                (nth 1 pathSplited EmptyString ++ ":" ++ nth 2 pathSplited EmptyString)
                host (nth 0 pathSplited EmptyString)
         else url.mkURL scheme opaque host path.
Proof.
  intros Hne HQ. unfold encodePath. cbn [url.Path url.Scheme url.Opaque url.Host].
  destruct (String.eqb_spec path EmptyString) as [E | _]; [contradiction |].
  cbn [url.Path url.Scheme url.Opaque url.Host]. rewrite HQ. reflexivity.
Qed.

Lemma TrimPrefix_slash (t : string) : strings.TrimPrefix (String "/" t) "/" = t.
Proof.
  unfold strings.TrimPrefix, strings.HasPrefix.
  change "/" with (String "/"%char EmptyString). rewrite prefix_byte, Ascii.eqb_refl.
  cbn [String.length slice_from]. reflexivity.
Qed.

Lemma TrimPrefix_absent (c : ascii) (s : string) :
  mem c s = false -> mem c (strings.TrimPrefix s "/") = false.
Proof.
  intros H. unfold strings.TrimPrefix.
  destruct (strings.HasPrefix s "/"); [| exact H].
  destruct s as [| d s]; [exact H |].
  cbn [String.length slice_from]. cbn [mem] in H.
  apply orb_false_iff in H as [_ H]. exact H.
Qed.

(** X6: a configured path with no ["%"], ["+"], space or [":"] in it
    leaves the request URL as it was built: the path is kept (the empty
    path becomes ["GET"], line 87) and no opaque component is set. *)
Theorem X6_plain_path_is_left_alone (scheme opaque host path : string) :
  plain path = true ->
  encodePath (url.mkURL scheme opaque host path)
  = url.mkURL scheme opaque host (if String.eqb path EmptyString then "GET" else path).
Proof.
  intros Hplain.
  destruct (String.eqb_spec path EmptyString) as [-> | Hne]; [reflexivity |].
  rewrite (encodePath_decoded scheme opaque host path path Hne (QueryUnescape_plain path Hplain)).
  cbv zeta.
  destruct (plain_parts path Hplain) as (_ & _ & Hs & Hc).
  rewrite (Replace_absent _ (TrimPrefix_absent SP path Hs)).
  rewrite (Split_one _ (TrimPrefix_absent ":" path Hc)). reflexivity.
Qed.

(** X6 at a path of two segments. *)
Lemma X6_plain_path_witness :
  encodePath (url.mkURL "http" EmptyString "example.com:80" "/chat/room")
  = url.mkURL "http" EmptyString "example.com:80" "/chat/room".
Proof.
  apply (X6_plain_path_is_left_alone "http" EmptyString "example.com:80" "/chat/room").
  reflexivity.
Defined.

(** X7: a configured path ["/" a sep b], where [a] and [b] have no
    ["%"], ["+"], space or [":"] and the separator decodes to one space or
    one colon (it is [" "], ["+"], ["%20"], [":"], ["%3A"] or ["%3a"]),
    splits into two parts: the opaque component becomes [a], the decoded
    separator and [b], with a space kept as a space, and the path field
    keeps the configured string. *)
Theorem X7_two_part_path (scheme opaque host a b sep : string) (d : ascii) :
  plain a = true ->
  plain b = true ->
  url.QueryUnescape sep = (String d EmptyString, None) ->
  d = SP \/ d = ":"%char ->
  encodePath (url.mkURL scheme opaque host ("/" ++ a ++ sep ++ b))
  = url.mkURL scheme (a ++ String d b) host ("/" ++ a ++ sep ++ b).
Proof.
  intros Ha Hb Hsep Hd.
  assert (HQ : url.QueryUnescape ("/" ++ a ++ sep ++ b)
               = (String "/" (a ++ String d b), None)).
  { apply (QueryUnescape_app "/" (a ++ sep ++ b) "/" (a ++ String d b)); [reflexivity |].
    apply QueryUnescape_app; [apply QueryUnescape_plain, Ha |].
    apply (QueryUnescape_app sep b (String d EmptyString) b Hsep).
    apply QueryUnescape_plain, Hb. }
  assert (Hne : "/" ++ a ++ sep ++ b <> EmptyString) by discriminate.
  rewrite (encodePath_decoded _ _ _ _ _ Hne HQ). cbv zeta.
  rewrite TrimPrefix_slash.
  destruct (plain_parts a Ha) as (_ & _ & Has & Hac).
  destruct (plain_parts b Hb) as (_ & _ & Hbs & Hbc).
  destruct Hd as [-> | ->].
  - rewrite (Replace_first a b Has), (Split_two a b Hac Hbc). reflexivity.
  - rewrite Replace_absent.
    + rewrite (Split_two a b Hac Hbc). reflexivity.
    + rewrite mem_app. cbn [mem]. rewrite Has, Hbs. reflexivity.
Qed.

(** X7 at an escaped space. *)
Lemma X7_two_part_path_witness :
  encodePath (url.mkURL "http" EmptyString "example.com:80" "/example.org%20443")
  = url.mkURL "http" "example.org 443" "example.com:80" "/example.org%20443".
Proof.
  apply (X7_two_part_path "http" EmptyString "example.com:80" "example.org" "443" "%20" SP);
    [reflexivity | reflexivity | reflexivity | left; reflexivity].
Defined.

(** X8: a configured path ["/" a sep1 b sep2 c], where [a], [b] and [c]
    have no ["%"], ["+"], space or [":"], and the separators decode to a
    colon and a colon, a colon and a space, or a space and a colon, splits
    into three parts: the path field becomes [a] (without the leading
    ["/"]) and the opaque component becomes [b], a colon and [c]. *)
Theorem X8_three_part_path
    (scheme opaque host a b c sep1 sep2 : string) (d1 d2 : ascii) :
  plain a = true ->
  plain b = true ->
  plain c = true ->
  url.QueryUnescape sep1 = (String d1 EmptyString, None) ->
  url.QueryUnescape sep2 = (String d2 EmptyString, None) ->
  (d1 = ":"%char /\ (d2 = ":"%char \/ d2 = SP)) \/ (d1 = SP /\ d2 = ":"%char) ->
  encodePath (url.mkURL scheme opaque host ("/" ++ a ++ sep1 ++ b ++ sep2 ++ c))
  = url.mkURL scheme (b ++ ":" ++ c) host a.
Proof.
  intros Ha Hb Hc Hsep1 Hsep2 Hd.
  assert (HQ : url.QueryUnescape ("/" ++ a ++ sep1 ++ b ++ sep2 ++ c)
               = (String "/" (a ++ String d1 (b ++ String d2 c)), None)).
  { apply (QueryUnescape_app "/" (a ++ sep1 ++ b ++ sep2 ++ c)
             "/" (a ++ String d1 (b ++ String d2 c))); [reflexivity |].
    apply QueryUnescape_app; [apply QueryUnescape_plain, Ha |].
    apply (QueryUnescape_app sep1 (b ++ sep2 ++ c) (String d1 EmptyString)
             (b ++ String d2 c) Hsep1).
    apply QueryUnescape_app; [apply QueryUnescape_plain, Hb |].
    apply (QueryUnescape_app sep2 c (String d2 EmptyString) c Hsep2).
    apply QueryUnescape_plain, Hc. }
  assert (Hne : "/" ++ a ++ sep1 ++ b ++ sep2 ++ c <> EmptyString) by discriminate.
  rewrite (encodePath_decoded _ _ _ _ _ Hne HQ). cbv zeta.
  rewrite TrimPrefix_slash.
  destruct (plain_parts a Ha) as (_ & _ & Has & Hac).
  destruct (plain_parts b Hb) as (_ & _ & Hbs & Hbc).
  destruct (plain_parts c Hc) as (_ & _ & Hcs & Hcc).
  assert (HR : strings.Replace (a ++ String d1 (b ++ String d2 c)) " " ":" 1
               = a ++ String ":" (b ++ String ":" c)).
  { destruct Hd as [[-> [-> | ->]] | [-> ->]].
    - apply Replace_absent. rewrite mem_app. cbn [mem]. rewrite mem_app. cbn [mem].
      rewrite Has, Hbs, Hcs. reflexivity.
    - change (a ++ String ":" (b ++ String SP c))
        with (a ++ (String ":" EmptyString ++ (b ++ String SP c))).
      rewrite <- !append_assoc.
      rewrite Replace_first.
      + rewrite !append_assoc. reflexivity.
      + rewrite !mem_app. cbn [mem]. rewrite Has, Hbs. reflexivity.
    - apply Replace_first, Has. }
  rewrite HR, (Split_three a b c Hac Hbc Hcc). reflexivity.
Qed.

(** X8 at a path with a colon and an escaped space. *)
Lemma X8_three_part_path_witness :
  encodePath (url.mkURL "http" EmptyString "example.com:80" "/ws:example.org+443")
  = url.mkURL "http" "example.org:443" "example.com:80" "ws".
Proof.
  apply (X8_three_part_path "http" EmptyString "example.com:80"
           "ws" "example.org" "443" ":" "+" ":"%char SP);
    [reflexivity | reflexivity | reflexivity | reflexivity | reflexivity
    | left; split; [reflexivity | right; reflexivity]].
Defined.

(** ** The first read, whole *)

(** The first read in one equation: its outcome and the connection it
    leaves, from the outcome of its parse. *)
Lemma Read_first_full (L : GoLib) (c : ConnRF) (b : ByteSlice) :
  First c = true ->
  exists r reader,
    firstParse L c b = Done r reader
    /\ ok reader
    /\ later (bufio.NewReaderSize (Conn c) (len b)) reader
    /\ Read L c b
       = (match r with
          | inl e => Return EmptyString (Some (StdErr e))
          | inr resp =>
              if replyMismatch L resp then Return EmptyString (Some unrecognizedReply)
              else if bufio.Buffered reader <=? cap b
                   then Return (bufio.buf reader) None
                   else Panic "slice bounds out of range"
          end,
          mkConnRF (bufio.rd reader) (Req c) false).
Proof.
  intros HF. unfold firstParse, Read. rewrite HF.
  destruct (ReadResponse_spec (framing L) (Req c) _ (NewReaderSize_ok (Conn c) (len b)))
    as (r & reader & Hrun & Hok & Hlater).
  exists r, reader. rewrite Hrun.
  split; [reflexivity |]. split; [exact Hok |]. split; [exact Hlater |].
  destruct r as [e | resp]; [reflexivity |].
  destruct (replyMismatch L resp); [reflexivity |].
  destruct (bufio.Buffered reader <=? cap b); [| reflexivity].
  destruct (drain_spec reader Hok) as (reader' & Hdrain & Hrd).
  rewrite Hdrain, Hrd. reflexivity.
Qed.

Lemma stream_NewReaderSize (conn : net.Conn) (n : nat) :
  stream (bufio.NewReaderSize conn n) = scriptBytes (net.incoming conn).
Proof. reflexivity. Qed.

(** X9: a [Read] never writes to the connection and never changes the
    stored request.  After any call the pending flag is off, the request
    is the same, the connection's write side is as it was, and the calls
    made on the connection during the [Read] are reads, at least one of
    them (so a zero-length first read still waits for the server). *)
Theorem X9_Read_only_reads_the_connection (L : GoLib) (c : ConnRF) (b : ByteSlice) :
  let c' := snd (Read L c b) in
  First c' = false
  /\ Req c' = Req c
  /\ net.werr (Conn c') = net.werr (Conn c)
  /\ exists t,
       net.trace (Conn c') = (t ++ net.trace (Conn c))%list
       /\ forallb net.isRead t = true
       /\ t <> [].
Proof.
  cbv zeta. destruct (First c) eqn:HF.
  - destruct (Read_first_full L c b HF) as (r & reader & HP & Hok & Hlater & HR).
    rewrite HR. cbn [snd First Req Conn].
    destruct Hlater as (_ & _ & _ & Hw & t & Ht & Hreads & Hsame).
    repeat split; [exact Hw |].
    exists t. split; [exact Ht |]. split; [exact Hreads |].
    intros ->. specialize (Hsame eq_refl).
    pose proof (firstParse_reads L c b r reader HP) as Hn.
    rewrite Hsame in Hn. cbn [bufio.NewReaderSize bufio.rd] in Hn. lia.
  - rewrite (Read_passthrough L c b HF). cbn [snd First Req Conn].
    destruct (net.Read (Conn c) (len b)) as [[data e] conn] eqn:HN.
    destruct (net_Read_spec _ _ _ _ _ HN) as (Hw & Ht & _).
    cbn [snd]. repeat split; [exact Hw |].
    exists [net.OpRead (len b)]. split; [exact Ht |]. split; [reflexivity | discriminate].
Qed.



(** After any [Read] the pending flag is off. *)
Lemma Read_after (L : GoLib) (c : ConnRF) (b : ByteSlice) :
  First (snd (Read L c b)) = false.
Proof.
  destruct (First c) eqn:HF.
  - apply (Read_first_state L c b HF).
  - rewrite (Read_passthrough L c b HF). reflexivity.
Qed.

(** A read after the handshake returns the next bytes of the
    connection. *)
Lemma Read_stream_later
    (L : GoLib) (c c' : ConnRF) (b : ByteSlice) (data : string) (e : option error) :
  First c = false ->
  Read L c b = (Return data e, c') ->
  scriptBytes (net.incoming (Conn c)) = data ++ scriptBytes (net.incoming (Conn c')).
Proof.
  intros HF HR. rewrite (Read_passthrough L c b HF) in HR.
  destruct (net.Read (Conn c) (len b)) as [[d e'] conn] eqn:HN.
  destruct (net_Read_spec _ _ _ _ _ HN) as (_ & _ & Hs & _).
  cbn [fst snd] in HR. injection HR as <- _ <-. exact Hs.
Qed.

Lemma reads_stream_later (L : GoLib) (bs : list ByteSlice) :
  forall (c c' : ConnRF) (rs : list (outcome string)) (data : string),
    First c = false ->
    reads L c bs = (rs, c') ->
    payloads rs = Some data ->
    scriptBytes (net.incoming (Conn c)) = data ++ scriptBytes (net.incoming (Conn c')).
Proof.
  induction bs as [| b bs IH]; intros c c' rs data HF HR HP.
  - cbn [reads] in HR. injection HR as <- <-. cbn [payloads] in HP.
    injection HP as <-. reflexivity.
  - cbn [reads] in HR.
    destruct (Read L c b) as [r c1] eqn:H1.
    destruct (reads L c1 bs) as [rs' c2] eqn:H2.
    injection HR as <- <-. cbn [payloads] in HP.
    destruct r as [d [e |] | msg |]; try discriminate HP.
    destruct (payloads rs') as [data' |] eqn:HP'; [| discriminate HP].
    cbn [option_map] in HP. injection HP as <-.
    assert (HF1 : First c1 = false).
    { pose proof (Read_after L c b) as HA. rewrite H1 in HA. exact HA. }
    rewrite (Read_stream_later L c c1 b d None HF H1).
    rewrite (IH c1 c2 rs' data' HF1 H2 HP'), append_assoc. reflexivity.
Qed.

(** A first read that returns without error returns the bytes its parse
    left in the reader; what the connection still holds lies behind
    them. *)
Lemma Read_stream_first
    (L : GoLib) (c c' : ConnRF) (b : ByteSlice) (data : string) :
  First c = true ->
  Read L c b = (Return data None, c') ->
  exists r reader head,
    firstParse L c b = Done r reader
    /\ scriptBytes (net.incoming (Conn c)) = head ++ stream reader
    /\ stream reader = data ++ scriptBytes (net.incoming (Conn c')).
Proof.
  intros HF HR.
  destruct (Read_first_full L c b HF) as (r & reader & HP & Hok & Hlater & HR').
  rewrite HR' in HR.
  destruct Hlater as (_ & _ & (pre & Hpre) & _).
  rewrite stream_NewReaderSize in Hpre.
  exists r, reader, pre. split; [exact HP |]. split; [exact Hpre |].
  destruct r as [e | resp]; [discriminate HR |].
  destruct (replyMismatch L resp); [discriminate HR |].
  destruct (bufio.Buffered reader <=? cap b); [| discriminate HR].
  injection HR as <- <-. reflexivity.
Qed.

(** X11: reads that all return without error hand the stream on in
    order, with nothing lost.  When the handshake is still pending, the
    parse of the first read ends in a reader state; the bytes that the
    connection held are a head, the bytes that parse consumed, followed
    by the bytes left in that reader and behind it on the connection; and
    those bytes are exactly the bytes the reads returned, one read after
    the other, followed by the bytes the connection still holds.  When the
    handshake was done before, the bytes the connection held are the bytes
    returned followed by the bytes it still holds. *)
Theorem X11_reads_keep_the_stream_in_order
    (L : GoLib) (b : ByteSlice) (bs : list ByteSlice)
    (c c' : ConnRF) (rs : list (outcome string)) (data : string) :
  reads L c (b :: bs) = (rs, c') ->
  payloads rs = Some data ->
  if First c
  then exists r reader head,
         firstParse L c b = Done r reader
         /\ scriptBytes (net.incoming (Conn c)) = head ++ stream reader
         /\ stream reader = data ++ scriptBytes (net.incoming (Conn c'))
  else scriptBytes (net.incoming (Conn c))
       = data ++ scriptBytes (net.incoming (Conn c')).
Proof.
  intros HR HP. destruct (First c) eqn:HF.
  - cbn [reads] in HR.
    destruct (Read L c b) as [r1 c1] eqn:H1.
    destruct (reads L c1 bs) as [rs' c2] eqn:H2.
    injection HR as <- <-. cbn [payloads] in HP.
    destruct r1 as [d [e |] | msg |]; try discriminate HP.
    destruct (payloads rs') as [data' |] eqn:HP'; [| discriminate HP].
    cbn [option_map] in HP. injection HP as <-.
    destruct (Read_stream_first L c c1 b d HF H1) as (r & reader & head & HPar & Hs & Hd).
    assert (HF1 : First c1 = false).
    { pose proof (Read_after L c b) as HA. rewrite H1 in HA. exact HA. }
    exists r, reader, head. split; [exact HPar |]. split; [exact Hs |].
    rewrite Hd, (reads_stream_later L bs c1 c2 rs' data' HF1 H2 HP'), append_assoc.
    reflexivity.
  - exact (reads_stream_later L (b :: bs) c c' rs data HF HR HP).
Qed.

(** X11 at a reply with payload behind it, read in three calls. *)
Lemma X11_reads_keep_the_stream_witness :
  let c := pending [net.Seg (switchingProtocols ++ "hello"); net.Seg "world"] in
  let bs := [mkSlice 3 3; mkSlice 8 8] in
  exists r reader head,
    firstParse plainLib c (mkSlice 128 128) = Done r reader
    /\ scriptBytes (net.incoming (Conn c)) = head ++ stream reader
    /\ stream reader
       = "helloworld"
         ++ scriptBytes
              (net.incoming (Conn (snd (reads plainLib c (mkSlice 128 128 :: bs))))).
Proof.
  apply (X11_reads_keep_the_stream_in_order plainLib
           (mkSlice 128 128) [mkSlice 3 3; mkSlice 8 8]
           (pending [net.Seg (switchingProtocols ++ "hello"); net.Seg "world"])
           (snd (reads plainLib
                   (pending [net.Seg (switchingProtocols ++ "hello"); net.Seg "world"])
                   [mkSlice 128 128; mkSlice 3 3; mkSlice 8 8]))
           (fst (reads plainLib
                   (pending [net.Seg (switchingProtocols ++ "hello"); net.Seg "world"])
                   [mkSlice 128 128; mkSlice 3 3; mkSlice 8 8]))
           "helloworld").
  - vm_compute. reflexivity.
  - vm_compute. reflexivity.
Defined.

(** ** A connection that delivers nothing *)

Lemma ReadSlice_loop_pending (fuel : nat) (delim : ascii) (s : nat) (b : bufio.Reader)
    (e : liberr) :
  bufio.buf b = EmptyString ->
  bufio.err b = Some e ->
  bufio.ReadSlice_loop fuel delim s b
  = Done (EmptyString, Some e) (bufio.setErr None (bufio.setBuf EmptyString b)).
Proof.
  intros Hbuf He.
  destruct fuel; cbn [bufio.ReadSlice_loop]; rewrite Hbuf, He;
    destruct s; reflexivity.
Qed.

(** The parse when the first read of the connection brings an error and no
    byte. *)
Lemma ReadResponse_dead
    (framing : http.Framing) (req : http.Request) (conn conn' : net.Conn) (n : nat)
    (e : liberr) :
  net.Read conn (Nat.max n bufio.minReadBufferSize) = (EmptyString, Some e, conn') ->
  e <> bufio_ErrBufferFull ->
  exists reader,
    http.ReadResponse framing req (bufio.NewReaderSize conn n)
    = Done (inl (http.eofToUnexpected e)) reader.
Proof.
  intros HN Hne.
  set (size := Nat.max n bufio.minReadBufferSize) in *.
  assert (Hsz : 16 <= size) by (subst size; unfold bufio.minReadBufferSize; lia).
  set (b1 := bufio.mkReader conn' EmptyString size (Some e)).
  assert (Hfill : bufio.fill (bufio.NewReaderSize conn n) = Done tt b1).
  { unfold bufio.fill, bufio.NewReaderSize, bufio.Buffered, bufio.maxConsecutiveEmptyReads.
    cbn [bufio.size bufio.buf String.length]. fold size.
    destruct (size <=? 0) eqn:Hz; [apply Nat.leb_le in Hz; lia |].
    rewrite fill_loop_step. unfold bufio.Buffered.
    cbn [bufio.rd bufio.size bufio.buf bufio.err String.length].
    rewrite Nat.sub_0_r, HN. reflexivity. }
  assert (HS : bufio.ReadSlice LF (bufio.NewReaderSize conn n)
               = Done (EmptyString, Some e)
                   (bufio.setErr None (bufio.setBuf EmptyString b1))).
  { unfold bufio.ReadSlice.
    rewrite ReadSlice_loop_empty;
      [| reflexivity | reflexivity
       | unfold bufio.Buffered, bufio.NewReaderSize; cbn [bufio.buf bufio.size String.length];
         fold size; lia].
    unfold bind. rewrite Hfill.
    apply ReadSlice_loop_pending; reflexivity. }
  assert (HL : bufio.ReadLine (bufio.NewReaderSize conn n)
               = Done (EmptyString, false, Some e)
                   (bufio.setErr None (bufio.setBuf EmptyString b1))).
  { unfold bufio.ReadLine, bind. rewrite HS.
    destruct e; try reflexivity. contradiction. }
  eexists.
  unfold http.ReadResponse, bind, textproto.ReadLine, textproto.readLineSlice.
  cbn [textproto.readLineSlice_loop]. unfold bind. rewrite HL. reflexivity.
Qed.

(** X12: the first read on a connection that delivers nothing.  When the
    connection is at end of file the read returns [io.ErrUnexpectedEOF];
    when its first read fails the read returns that failure; no byte is
    returned in either case. *)
Theorem X12_first_read_on_a_dead_connection (L : GoLib) (c : ConnRF) (b : ByteSlice) :
  First c = true ->
  match net.incoming (Conn c) with
  | [] => fst (Read L c b) = Return EmptyString (Some (StdErr io_ErrUnexpectedEOF))
  | net.Failure code :: _ =>
      fst (Read L c b) = Return EmptyString (Some (StdErr (net_OpError code)))
  | net.Seg _ :: _ => True
  end.
Proof.
  intros HF.
  pose proof (Read_first_cases L c b HF) as HC. unfold firstParse in HC.
  assert (Hnz : (Nat.max (len b) bufio.minReadBufferSize =? 0) = false)
    by (apply Nat.eqb_neq; unfold bufio.minReadBufferSize; lia).
  destruct (net.incoming (Conn c)) as [| [seg | code] rest] eqn:Hin; [| exact I |].
  - destruct (ReadResponse_dead (framing L) (Req c) (Conn c)
                (net.logged (net.OpRead (Nat.max (len b) bufio.minReadBufferSize)) (Conn c))
                (len b) io_EOF) as (reader & Hrun).
    + unfold net.Read. rewrite Hnz. cbn [net.logged net.incoming]. rewrite Hin. reflexivity.
    + discriminate.
    + rewrite Hrun in HC. exact HC.
  - destruct (ReadResponse_dead (framing L) (Req c) (Conn c)
                (net.mkConn rest (net.werr (Conn c))
                   (net.OpRead (Nat.max (len b) bufio.minReadBufferSize)
                      :: net.trace (Conn c)))
                (len b) (net_OpError code)) as (reader & Hrun).
    + unfold net.Read. rewrite Hnz. cbn [net.logged net.incoming net.werr net.trace].
      rewrite Hin. reflexivity.
    + discriminate.
    + rewrite Hrun in HC. exact HC.
Qed.

(** X12 at a connection whose peer has closed it. *)
Lemma X12_first_read_witness :
  fst (Read plainLib (pending []) (mkSlice 32 32))
  = Return EmptyString (Some (StdErr io_ErrUnexpectedEOF)).
Proof.
  apply (X12_first_read_on_a_dead_connection plainLib (pending []) (mkSlice 32 32)).
  reflexivity.
Defined.

(** ** [dialhttpUpgrade] and [Dial], whole *)

(** [dialhttpUpgrade] by the step that decides its outcome. *)
Lemma dialhttpUpgrade_cases
    (L : GoLib) (DialSystem : liberr + net.Conn) (dest : string)
    (streamSettings : MemoryStreamConfig) :
  dialhttpUpgrade L DialSystem dest streamSettings
  = match DialSystem with
    | inl err => Return None (Some (StdErr err))
    | inr pconn =>
        match handshakeError streamSettings with
        | Some err => Return None (Some (StdErr err))
        | None =>
            match writeError L pconn dest streamSettings with
            | Some err => Return None (Some (StdErr err))
            | None =>
                if (Ed (ProtocolSettings streamSettings) =? 0)%N then
                  match Read L (written pconn dest streamSettings) emptySlice with
                  | (Return _ (Some err), _) => Return None (Some err)
                  | (Return _ None, connRF) => Return (Some connRF) None
                  | (Panic msg, _) => Panic msg
                  | (NoFuel, _) => NoFuel
                  end
                else Return (Some (written pconn dest streamSettings)) None
            end
        end
    end.
Proof.
  destruct DialSystem as [err | pconn]; [reflexivity |].
  destruct (handshakeError streamSettings) as [err |] eqn:HT.
  - unfold dialhttpUpgrade, handshakeError in *.
    destruct (SecuritySettings streamSettings) as [config |]; [| discriminate HT].
    destruct (Fingerprint config); [| discriminate HT].
    rewrite HT. reflexivity.
  - destruct (writeError L pconn dest streamSettings) as [err |] eqn:HW.
    + unfold dialhttpUpgrade, handshakeError, writeError, schemeOf in *.
      destruct (SecuritySettings streamSettings) as [config |].
      * destruct (Fingerprint config); [rewrite HT |];
          destruct (http.Write _ _ _) as [e conn]; cbn [fst] in HW; rewrite HW; reflexivity.
      * destruct (http.Write _ _ _) as [e conn]; cbn [fst] in HW; rewrite HW; reflexivity.
    + apply dialhttpUpgrade_established; assumption.
Qed.

Lemma encodePath_scheme_host (requestURL : url.URL) :
  url.Scheme (encodePath requestURL) = url.Scheme requestURL
  /\ url.Host (encodePath requestURL) = url.Host requestURL.
Proof.
  unfold encodePath.
  destruct (String.eqb (url.Path requestURL) EmptyString);
    cbv zeta;
    match goal with
    | |- context [if ?n =? 2 then _ else _] =>
        destruct (n =? 2); [split; reflexivity |];
        destruct (n =? 3); split; reflexivity
    end.
Qed.

(** The outcome of the probe read of line 113. *)
Lemma probe_read
    (L : GoLib) (pconn : net.Conn) (dest : string) (streamSettings : MemoryStreamConfig) :
  let connRF := written pconn dest streamSettings in
  exists r reader,
    firstParse L connRF emptySlice = Done r reader
    /\ later (bufio.NewReaderSize (Conn connRF) 0) reader
    /\ Read L connRF emptySlice
       = (match r with
          | inl e => Return EmptyString (Some (StdErr e))
          | inr resp =>
              if replyMismatch L resp then Return EmptyString (Some unrecognizedReply)
              else if bufio.Buffered reader <=? 0
                   then Return (bufio.buf reader) None
                   else Panic "slice bounds out of range"
          end,
          mkConnRF (bufio.rd reader) (Req connRF) false).
Proof.
  cbv zeta.
  destruct (Read_first_full L (written pconn dest streamSettings) emptySlice eq_refl)
    as (r & reader & HP & _ & Hlater & HR).
  exists r, reader. split; [exact HP |]. split; [exact Hlater | exact HR].
Qed.

(** What [dialhttpUpgrade] returns when it returns.  Its errors are the
    library's, as they are, or the unrecognized-reply error. *)
Lemma dialhttpUpgrade_returned
    (L : GoLib) (DialSystem : liberr + net.Conn) (dest : string)
    (streamSettings : MemoryStreamConfig)
    (conn : option ConnRF) (err : option error) :
  dialhttpUpgrade L DialSystem dest streamSettings = Return conn err ->
  (exists c,
     conn = Some c /\ err = None
     /\ First c = negb (Ed (ProtocolSettings streamSettings) =? 0)%N
     /\ Req c = buildRequest (schemeOf streamSettings) dest (ProtocolSettings streamSettings))
  \/ (exists e,
        conn = None /\ err = Some e
        /\ (e = unrecognizedReply \/ exists le, e = StdErr le)).
Proof.
  rewrite dialhttpUpgrade_cases.
  destruct DialSystem as [e | pconn]; [intros [= <- <-]; right; eauto 6 |].
  destruct (handshakeError streamSettings) as [e |]; [intros [= <- <-]; right; eauto 6 |].
  destruct (writeError L pconn dest streamSettings) as [e |];
    [intros [= <- <-]; right; eauto 6 |].
  destruct (Ed (ProtocolSettings streamSettings) =? 0)%N.
  - destruct (probe_read L pconn dest streamSettings) as (r & reader & _ & _ & HR).
    cbv zeta in HR. rewrite HR.
    destruct r as [e | resp]; [intros [= <- <-]; right; eauto 6 |].
    destruct (replyMismatch L resp); [intros [= <- <-]; right; eauto 6 |].
    destruct (bufio.Buffered reader <=? 0); [| discriminate].
    intros [= <- <-]. left. eexists. repeat split.
  - intros [= <- <-]. left. eexists. repeat split.
Qed.

(** X13: [dialhttpUpgrade] returns a connection with a nil error, or no
    connection with an error, never both and never neither.  The
    connection it returns carries the request built from the
    configuration (method GET, the configured host, the URL host of the
    destination, scheme https exactly when TLS is configured) and is
    still pending exactly when early data is enabled. *)
Theorem X13_dialhttpUpgrade_returns_connection_or_error
    (L : GoLib) (DialSystem : liberr + net.Conn) (dest : string)
    (streamSettings : MemoryStreamConfig)
    (conn : option ConnRF) (err : option error) :
  dialhttpUpgrade L DialSystem dest streamSettings = Return conn err ->
  (exists c,
     conn = Some c /\ err = None
     /\ First c = negb (Ed (ProtocolSettings streamSettings) =? 0)%N
     /\ Req c = buildRequest (schemeOf streamSettings) dest (ProtocolSettings streamSettings)
     /\ http.Method (Req c) = "GET"
     /\ http.Host (Req c) = Host (ProtocolSettings streamSettings)
     /\ url.Host (http.URL (Req c)) = dest
     /\ url.Scheme (http.URL (Req c))
        = match SecuritySettings streamSettings with Some _ => "https" | None => "http" end)
  \/ (exists e, conn = None /\ err = Some e).
Proof.
  intros HD.
  destruct (dialhttpUpgrade_returned L DialSystem dest streamSettings conn err HD)
    as [(c & -> & -> & HF & HR) | (e & -> & -> & _)]; [left | right; eauto].
  exists c. split; [reflexivity |]. split; [reflexivity |].
  split; [exact HF |]. split; [exact HR |].
  rewrite HR. unfold buildRequest. cbn [http.Method http.Host http.URL].
  destruct (encodePath_scheme_host
              (url.mkURL (schemeOf streamSettings) EmptyString dest
                 (GetNormalizedPath (ProtocolSettings streamSettings)))) as [Hs Hh].
  rewrite Hs, Hh. repeat split.
Qed.

(** X13 at a dial with early data over TLS. *)
Lemma X13_dialhttpUpgrade_returns_witness :
  let streamSettings :=
    mkStream (mkConfig "example.com" "/" [] 1%N) (Some (mkTLS false None)) in
  let pconn := scripted [] in
  (exists c,
     Some (written pconn "example.com:443" streamSettings) = Some c /\ @None error = None
     /\ First c = negb (Ed (ProtocolSettings streamSettings) =? 0)%N
     /\ Req c = buildRequest (schemeOf streamSettings) "example.com:443"
                  (ProtocolSettings streamSettings)
     /\ http.Method (Req c) = "GET"
     /\ http.Host (Req c) = Host (ProtocolSettings streamSettings)
     /\ url.Host (http.URL (Req c)) = "example.com:443"
     /\ url.Scheme (http.URL (Req c))
        = match SecuritySettings streamSettings with Some _ => "https" | None => "http" end)
  \/ (exists e, Some (written pconn "example.com:443" streamSettings) = None
                /\ @None error = Some e).
Proof.
  apply (X13_dialhttpUpgrade_returns_connection_or_error plainLib
           (inr (scripted [])) "example.com:443"
           (mkStream (mkConfig "example.com" "/" [] 1%N) (Some (mkTLS false None)))).
  reflexivity.
Defined.

(** X14: [Dial] returns what [dialhttpUpgrade] returns when that is a
    connection (with a nil error).  When it is an error, [Dial] returns no
    connection and the error ["failed to dial request to "] followed by
    the destination as [errors.New] prints it, whose base is the error of
    [dialhttpUpgrade]: a library error as it was returned, or the
    unrecognized-reply error.  [Dial] never returns both a connection and
    an error, nor neither. *)
Theorem X14_Dial_wraps_the_error
    (L : GoLib) (DialSystem : liberr + net.Conn) (dest : Destination)
    (streamSettings : MemoryStreamConfig)
    (conn : option ConnRF) (err : option error) :
  Dial L DialSystem dest streamSettings = Return conn err ->
  (exists c,
     conn = Some c /\ err = None
     /\ dialhttpUpgrade L DialSystem (NetAddr dest) streamSettings = Return (Some c) None)
  \/ (exists e,
        conn = None
        /\ err = Some (NewErrBase ("failed to dial request to " ++ String_ dest) e)
        /\ dialhttpUpgrade L DialSystem (NetAddr dest) streamSettings
           = Return None (Some e)
        /\ (e = unrecognizedReply \/ exists le, e = StdErr le)).
Proof.
  unfold Dial.
  destruct (dialhttpUpgrade L DialSystem (NetAddr dest) streamSettings)
    as [oc oe | msg |] eqn:HD; [| discriminate | discriminate].
  destruct (dialhttpUpgrade_returned L DialSystem (NetAddr dest) streamSettings oc oe HD)
    as [(c & -> & -> & _) | (e & -> & -> & He)].
  - intros [= <- <-]. left. eauto.
  - intros [= <- <-]. right. exists e. repeat split. exact He.
Qed.

(** X14 at a dial whose system dial is refused. *)
Lemma X14_Dial_wraps_witness :
  let dest := mkDestination "example.com:80" "tcp:example.com:80" in
  let streamSettings := mkStream (mkConfig "example.com" "/" [] 0%N) None in
  (exists c,
     @None ConnRF = Some c
     /\ Some (NewErrBase "failed to dial request to tcp:example.com:80"
                (StdErr (net_OpError 111))) = None
     /\ dialhttpUpgrade plainLib (inl (net_OpError 111)) (NetAddr dest) streamSettings
        = Return (Some c) None)
  \/ (exists e,
        @None ConnRF = None
        /\ Some (NewErrBase "failed to dial request to tcp:example.com:80"
                   (StdErr (net_OpError 111)))
           = Some (NewErrBase ("failed to dial request to " ++ String_ dest) e)
        /\ dialhttpUpgrade plainLib (inl (net_OpError 111)) (NetAddr dest) streamSettings
           = Return None (Some e)
        /\ (e = unrecognizedReply \/ exists le, e = StdErr le)).
Proof.
  apply (X14_Dial_wraps_the_error plainLib (inl (net_OpError 111))
           (mkDestination "example.com:80" "tcp:example.com:80")
           (mkStream (mkConfig "example.com" "/" [] 0%N) None)).
  reflexivity.
Defined.

(** X15: [dialhttpUpgrade] never runs out of steps, and it panics in one
    situation only: early data is disabled, the reply was parsed and
    passed the handshake check, and the reader still holds bytes behind
    the reply, which the empty slice of the probe read cannot take. *)
Theorem X15_dialhttpUpgrade_panics_only_in_the_probe
    (L : GoLib) (DialSystem : liberr + net.Conn) (dest : string)
    (streamSettings : MemoryStreamConfig) :
  dialhttpUpgrade L DialSystem dest streamSettings <> NoFuel
  /\ forall msg,
       dialhttpUpgrade L DialSystem dest streamSettings = Panic msg ->
       msg = "slice bounds out of range"
       /\ Ed (ProtocolSettings streamSettings) = 0%N
       /\ exists pconn resp reader,
            DialSystem = inr pconn
            /\ firstParse L (written pconn dest streamSettings) emptySlice
               = Done (inr resp) reader
            /\ replyMismatch L resp = false
            /\ 0 < bufio.Buffered reader.
Proof.
  rewrite dialhttpUpgrade_cases.
  destruct DialSystem as [e | pconn]; [split; [discriminate | intros msg H; discriminate H] |].
  destruct (handshakeError streamSettings) as [e |];
    [split; [discriminate | intros msg H; discriminate H] |].
  destruct (writeError L pconn dest streamSettings) as [e |];
    [split; [discriminate | intros msg H; discriminate H] |].
  destruct (Ed (ProtocolSettings streamSettings) =? 0)%N eqn:HE;
    [| split; [discriminate | intros msg H; discriminate H]].
  apply N.eqb_eq in HE.
  destruct (probe_read L pconn dest streamSettings) as (r & reader & HP & _ & HR).
  cbv zeta in HP, HR. rewrite HR.
  destruct r as [e | resp]; [split; [discriminate | intros msg H; discriminate H] |].
  destruct (replyMismatch L resp) eqn:HM;
    [split; [discriminate | intros msg H; discriminate H] |].
  destruct (bufio.Buffered reader <=? 0) eqn:HB;
    [split; [discriminate | intros msg H; discriminate H] |].
  apply Nat.leb_gt in HB.
  split; [discriminate |]. intros msg [= <-].
  split; [reflexivity |]. split; [exact HE |].
  exists pconn, resp, reader. repeat split; assumption.
Qed.

(** X15 at a reply with one payload byte in the same segment. *)
Lemma X15_dialhttpUpgrade_panics_witness :
  let pconn := scripted [net.Seg (switchingProtocols ++ "X")] in
  let streamSettings := mkStream (mkConfig "example.com" "/" [] 0%N) None in
  "slice bounds out of range" = "slice bounds out of range"
  /\ Ed (ProtocolSettings streamSettings) = 0%N
  /\ exists pconn' resp reader,
       @inr liberr net.Conn pconn = inr pconn'
       /\ firstParse plainLib (written pconn' "example.com:80" streamSettings) emptySlice
          = Done (inr resp) reader
       /\ replyMismatch plainLib resp = false
       /\ 0 < bufio.Buffered reader.
Proof.
  apply (proj2 (X15_dialhttpUpgrade_panics_only_in_the_probe plainLib
                  (inr (scripted [net.Seg (switchingProtocols ++ "X")])) "example.com:80"
                  (mkStream (mkConfig "example.com" "/" [] 0%N) None))
           "slice bounds out of range").
  vm_compute. reflexivity.
Defined.

(** X16: on the connection that [dialhttpUpgrade] returns, the request
    was written once, before anything was read, and every call after that
    write is a read.  With early data enabled there is no such read; with
    early data disabled there is at least one. *)
Theorem X16_dialhttpUpgrade_writes_once_then_reads
    (L : GoLib) (pconn : net.Conn) (dest : string)
    (streamSettings : MemoryStreamConfig) (c : ConnRF) :
  dialhttpUpgrade L (inr pconn) dest streamSettings = Return (Some c) None ->
  net.werr (Conn c) = None
  /\ exists t,
       net.trace (Conn c) = (t ++ net.OpWrite :: net.trace pconn)%list
       /\ forallb net.isRead t = true
       /\ (t = [] <-> Ed (ProtocolSettings streamSettings) <> 0%N).
Proof.
  rewrite dialhttpUpgrade_cases.
  destruct (handshakeError streamSettings) as [e |]; [discriminate |].
  destruct (writeError L pconn dest streamSettings) as [e |] eqn:HW; [discriminate |].
  apply writeError_None in HW as [_ HW].
  destruct (Ed (ProtocolSettings streamSettings) =? 0)%N eqn:HE.
  - apply N.eqb_eq in HE.
    destruct (probe_read L pconn dest streamSettings) as (r & reader & HP & Hlater & HR).
    cbv zeta in HP, Hlater, HR. rewrite HR.
    destruct r as [e | resp]; [discriminate |].
    destruct (replyMismatch L resp); [discriminate |].
    destruct (bufio.Buffered reader <=? 0); [| discriminate].
    intros [= <-]. cbn [Conn].
    destruct Hlater as (_ & _ & _ & Hw & t & Ht & Hreads & Hsame).
    cbn [written Conn bufio.NewReaderSize bufio.rd net.logged net.werr net.trace]
      in Hw, Ht.
    split; [congruence |]. exists t. split; [exact Ht |]. split; [exact Hreads |].
    split; [| intros E; contradiction].
    intros ->. specialize (Hsame eq_refl).
    pose proof (firstParse_reads L _ _ _ _ HP) as Hn.
    rewrite Hsame in Hn. cbn [bufio.NewReaderSize bufio.rd] in Hn. lia.
  - apply N.eqb_neq in HE. intros [= <-]. cbn [written Conn net.logged net.werr net.trace].
    split; [exact HW |]. exists []. repeat split; auto.
Qed.

(** X16 at a dial without early data. *)
Lemma X16_dialhttpUpgrade_writes_witness :
  let pconn := scripted [net.Seg switchingProtocols] in
  let c := mkConnRF (net.mkConn [] None
                       [net.OpRead 16; net.OpRead 4; net.OpRead 16; net.OpRead 2;
                        net.OpRead 16; net.OpRead 16; net.OpRead 16; net.OpWrite])
             sampleRequest false in
  net.werr (Conn c) = None
  /\ exists t,
       net.trace (Conn c) = (t ++ net.OpWrite :: net.trace pconn)%list
       /\ forallb net.isRead t = true
       /\ (t = [] <-> 0%N <> 0%N).
Proof.
  apply (X16_dialhttpUpgrade_writes_once_then_reads plainLib
           (scripted [net.Seg switchingProtocols]) "example.com:80"
           (mkStream (mkConfig "example.com" "/" [] 0%N) None)).
  vm_compute. reflexivity.
Defined.

(** X17: an error of one of the three set-up steps (the system dial, the
    TLS handshake with a fingerprint, writing the request) is returned by
    [dialhttpUpgrade] as it is, with no connection, whatever the early
    data setting and whatever the server would have sent; [Dial] returns
    it as the base of its own error.  The error of writing the request is
    the refusal of the request when [req.Write] refuses it (a control byte
    in the request target, or a host that cannot be converted), whatever
    the state of the connection, and the connection's write error
    otherwise. *)
Theorem X17_setup_errors_are_returned_unchanged
    (L : GoLib) (DialSystem : liberr + net.Conn) (dest : Destination)
    (streamSettings : MemoryStreamConfig) (e : liberr) :
  DialSystem = inl e
  \/ (exists pconn,
        DialSystem = inr pconn
        /\ (handshakeError streamSettings = Some e
            \/ (handshakeError streamSettings = None
                /\ writeError L pconn (NetAddr dest) streamSettings = Some e))) ->
  dialhttpUpgrade L DialSystem (NetAddr dest) streamSettings
  = Return None (Some (StdErr e))
  /\ Dial L DialSystem dest streamSettings
     = Return None
         (Some (NewErrBase ("failed to dial request to " ++ String_ dest) (StdErr e)))
  /\ forall pconn,
       writeError L pconn (NetAddr dest) streamSettings
       = match http.requestError (punycode L)
                 (buildRequest (schemeOf streamSettings) (NetAddr dest)
                    (ProtocolSettings streamSettings)) with
         | Some refused => Some refused
         | None => net.werr pconn
         end.
Proof.
  intros H.
  assert (HD : dialhttpUpgrade L DialSystem (NetAddr dest) streamSettings
               = Return None (Some (StdErr e))).
  { rewrite dialhttpUpgrade_cases.
    destruct H as [-> | (pconn & -> & [HT | [HT HW]])].
    - reflexivity.
    - rewrite HT. reflexivity.
    - rewrite HT, HW. reflexivity. }
  split; [exact HD |]. split; [unfold Dial; rewrite HD; reflexivity |].
  intros pconn. unfold writeError, http.Write.
  destruct (http.requestError _ _); reflexivity.
Qed.

(** X17 at a request that [req.Write] refuses: the configured path puts a
    line feed into the opaque component. *)
Lemma X17_setup_errors_witness :
  let pconn := scripted [net.Seg switchingProtocols] in
  let dest := mkDestination "example.com:80" "tcp:example.com:80" in
  let streamSettings := mkStream (mkConfig "example.com" "/a%0A b" [] 0%N) None in
  dialhttpUpgrade plainLib (inr pconn) (NetAddr dest) streamSettings
  = Return None (Some (StdErr http.errControlCharacter))
  /\ Dial plainLib (inr pconn) dest streamSettings
     = Return None
         (Some (NewErrBase ("failed to dial request to " ++ String_ dest)
                  (StdErr http.errControlCharacter)))
  /\ forall pconn',
       writeError plainLib pconn' (NetAddr dest) streamSettings
       = match http.requestError (punycode plainLib)
                 (buildRequest (schemeOf streamSettings) (NetAddr dest)
                    (ProtocolSettings streamSettings)) with
         | Some refused => Some refused
         | None => net.werr pconn'
         end.
Proof.
  apply (X17_setup_errors_are_returned_unchanged plainLib
           (inr (scripted [net.Seg switchingProtocols]))
           (mkDestination "example.com:80" "tcp:example.com:80")
           (mkStream (mkConfig "example.com" "/a%0A b" [] 0%N) None)
           http.errControlCharacter).
  right. eexists. split; [reflexivity |]. right. split; vm_compute; reflexivity.
Defined.

(** ** The handshake check on header values *)

Lemma lowered_eq_tokenEqual (u : string) :
  forall t : string,
    strings.isASCII u = true ->
    strings.mapBytes lowerASCII t = t ->
    (strings.mapBytes lowerASCII u = t <-> http.tokenEqual u t = true).
Proof.
  induction u as [| a u IH]; intros t Hu Ht.
  - destruct t; cbn [strings.mapBytes http.tokenEqual]; split; auto; discriminate.
  - cbn [strings.isASCII] in Hu. apply andb_true_iff in Hu as [Ha Hu].
    destruct t as [| b t]; cbn [strings.mapBytes http.tokenEqual] in *;
      [split; discriminate |].
    injection Ht as Hb Ht. rewrite Ha, Hb. cbn [andb].
    split.
    + intros [= -> E]. rewrite Ascii.eqb_refl. cbn [andb]. apply (IH t Hu Ht), E.
    + intros E. apply andb_true_iff in E as [E1 E2].
      apply Ascii.eqb_eq in E1. rewrite E1. f_equal. apply (IH t Hu Ht), E2.
Qed.

(** X18: for ASCII header values the handshake check of lines 34-36
    compares the status text exactly and the two header values without
    regard to ASCII case: the reply is accepted exactly when its status is
    ["101 Switching Protocols"], the first [Upgrade] value equals
    ["websocket"] and the first [Connection] value equals ["upgrade"], both
    up to ASCII case. *)
Theorem X18_handshake_check_ignores_ascii_case (L : GoLib) (resp : http.Response) :
  strings.isASCII (textproto.Get (http.RespHeader resp) "Upgrade") = true ->
  strings.isASCII (textproto.Get (http.RespHeader resp) "Connection") = true ->
  (replyMismatch L resp = false
   <-> http.Status resp = "101 Switching Protocols"
       /\ http.tokenEqual (textproto.Get (http.RespHeader resp) "Upgrade") "websocket" = true
       /\ http.tokenEqual (textproto.Get (http.RespHeader resp) "Connection") "upgrade"
          = true).
Proof.
  intros HU HC. unfold replyMismatch, strings.ToLower. rewrite HU, HC.
  rewrite !orb_false_iff, !negb_false_iff, !String.eqb_eq.
  rewrite (lowered_eq_tokenEqual _ "websocket" HU eq_refl).
  rewrite (lowered_eq_tokenEqual _ "upgrade" HC eq_refl).
  tauto.
Qed.

(** X18 at a reply that spells the values with capitals. *)
Lemma X18_handshake_check_witness :
  let resp :=
    http.mkResponse "101 Switching Protocols" 101 "HTTP/1.1" 1 1
      (<["Upgrade" := ["WebSocket"]]> (<["Connection" := ["Upgrade"]]> ∅)) in
  replyMismatch plainLib resp = false
  <-> http.Status resp = "101 Switching Protocols"
      /\ http.tokenEqual (textproto.Get (http.RespHeader resp) "Upgrade") "websocket" = true
      /\ http.tokenEqual (textproto.Get (http.RespHeader resp) "Connection") "upgrade"
         = true.
Proof.
  apply (X18_handshake_check_ignores_ascii_case plainLib
           (http.mkResponse "101 Switching Protocols" 101 "HTTP/1.1" 1 1
              (<["Upgrade" := ["WebSocket"]]> (<["Connection" := ["Upgrade"]]> ∅))));
    vm_compute; reflexivity.
Defined.

(** X19: how many bytes a [Read] can store.  A later read stores at most
    [len(b)] bytes.  A first read stores what its reader holds behind the
    reply, which is at most [cap(b)] bytes and at most the reader's size,
    the larger of [len(b)] and 16: into a slice shorter than 16 bytes with
    spare capacity it can store more than [len(b)] bytes. *)
Theorem X19_Read_stores_at_most_the_reader_size
    (L : GoLib) (c c' : ConnRF) (b : ByteSlice) (data : string) (e : option error) :
  Read L c b = (Return data e, c') ->
  String.length data <= Nat.max (len b) (Nat.min (cap b) bufio.minReadBufferSize).
Proof.
  intros HR. destruct (First c) eqn:HF.
  - destruct (Read_first_full L c b HF) as (r & reader & HP & Hok & Hlater & HR').
    rewrite HR' in HR.
    pose proof (later_size _ _ Hlater) as Hsz.
    cbn [bufio.NewReaderSize bufio.size] in Hsz.
    destruct Hok as (_ & Hfit & _).
    destruct r as [err | resp]; [injection HR as <- _ _; cbn; lia |].
    destruct (replyMismatch L resp); [injection HR as <- _ _; cbn; lia |].
    destruct (bufio.Buffered reader <=? cap b) eqn:Hcap; [| discriminate HR].
    apply Nat.leb_le in Hcap. injection HR as <- _ _.
    unfold bufio.Buffered, bufio.minReadBufferSize in *. lia.
  - rewrite (Read_passthrough L c b HF) in HR.
    destruct (net.Read (Conn c) (len b)) as [[d e'] conn] eqn:HN.
    destruct (net_Read_spec _ _ _ _ _ HN) as (_ & _ & _ & _ & Hlen & _).
    cbn [fst snd] in HR. injection HR as <- _ _. lia.
Qed.

(** X19 at a first read into a slice of length 4 and capacity 64: nine
    bytes are stored. *)
Lemma X19_Read_stores_witness :
  let c := pending [net.Seg (switchingProtocols ++ "0123456789abcdef")] in
  let b := mkSlice 4 64 in
  String.length "012345678" <= Nat.max (len b) (Nat.min (cap b) bufio.minReadBufferSize)
  /\ fst (Read plainLib c b) = Return "012345678" None
  /\ len b < String.length "012345678".
Proof.
  split; [| split; [vm_compute; reflexivity | vm_compute; lia]].
  apply (X19_Read_stores_at_most_the_reader_size plainLib
           (pending [net.Seg (switchingProtocols ++ "0123456789abcdef")])
           (snd (Read plainLib
                   (pending [net.Seg (switchingProtocols ++ "0123456789abcdef")])
                   (mkSlice 4 64)))
           (mkSlice 4 64) "012345678" None).
  vm_compute. reflexivity.
Defined.

(** ** The standard reply *)

(** The parse of the standard reply from a reader that holds it, whatever
    follows it in the buffer. *)
Lemma ReadResponse_switchingProtocols
    (framing : http.Framing) (req : http.Request) (conn : net.Conn) (payload : string)
    (k : nat) :
  exists resp,
    http.ReadResponse framing req
      (bufio.mkReader conn (switchingProtocols ++ payload) (16 + k) None)
    = Done (inr resp) (bufio.mkReader conn payload (16 + k) None)
    /\ forall L, replyMismatch L resp = false.
Proof.
  eexists. split.
  - vm_compute. reflexivity.
  - intros L. vm_compute. reflexivity.
Qed.

(** X20: when the first segment from the server is the standard reply
    (status line ["HTTP/1.1 101 Switching Protocols"], [Upgrade: websocket],
    [Connection: upgrade], blank line) followed by any payload, and the
    caller's slice is at least as long as that segment, the first read
    accepts the reply and returns exactly the payload, with a nil error,
    after one read of the connection. *)
Theorem X20_standard_reply_is_accepted
    (L : GoLib) (c : ConnRF) (b : ByteSlice) (payload : string) (rest : list net.event) :
  First c = true ->
  net.incoming (Conn c) = net.Seg (switchingProtocols ++ payload) :: rest ->
  String.length (switchingProtocols ++ payload) <= len b ->
  len b <= cap b ->
  Read L c b
  = (Return payload None,
     mkConnRF (afterFirstRead (Conn c) (len b) rest) (Req c) false).
Proof.
  intros HF Hin Hlen Hcap.
  assert (H77 : String.length (switchingProtocols ++ payload) = 77 + String.length payload)
    by (rewrite length_append; reflexivity).
  assert (Hmax : Nat.max (len b) bufio.minReadBufferSize = 16 + (len b - 16))
    by (unfold bufio.minReadBufferSize; lia).
  unfold Read. rewrite HF.
  rewrite (ReadResponse_first_fill (framing L) (Req c) (Conn c) (len b)
             (switchingProtocols ++ payload) rest Hin);
    [| discriminate | lia].
  rewrite Hmax.
  destruct (ReadResponse_switchingProtocols (framing L) (Req c)
              (afterFirstRead (Conn c) (len b) rest) payload (len b - 16))
    as (resp & Hrun & Hcheck).
  rewrite Hrun, (Hcheck L).
  assert (Hok : ok (bufio.mkReader (afterFirstRead (Conn c) (len b) rest) payload
                      (16 + (len b - 16)) None)).
  { unfold ok, bufio.Buffered. cbn [bufio.err bufio.buf bufio.size].
    repeat split; lia. }
  destruct (drain_spec _ Hok) as (reader' & Hdrain & Hrd).
  assert (Hfit : (bufio.Buffered
                    (bufio.mkReader (afterFirstRead (Conn c) (len b) rest) payload
                       (16 + (len b - 16)) None) <=? cap b) = true).
  { apply Nat.leb_le. unfold bufio.Buffered. cbn [bufio.buf]. lia. }
  rewrite Hfit, Hdrain, Hrd. reflexivity.
Qed.

(** X20 at five payload bytes. *)
Lemma X20_standard_reply_witness :
  let c := pending [net.Seg (switchingProtocols ++ "hello"); net.Seg "world"] in
  let b := mkSlice 128 128 in
  Read plainLib c b
  = (Return "hello" None,
     mkConnRF (afterFirstRead (Conn c) (len b) [net.Seg "world"]) (Req c) false).
Proof.
  apply (X20_standard_reply_is_accepted plainLib
           (pending [net.Seg (switchingProtocols ++ "hello"); net.Seg "world"])
           (mkSlice 128 128) "hello" [net.Seg "world"]).
  - reflexivity.
  - reflexivity.
  - vm_compute. lia.
  - vm_compute. lia.
Defined.

(** The parse of the probe read when the standard reply is a segment of
    its own. *)
Lemma probe_parse_switchingProtocols
    (framing : http.Framing) (req : http.Request) (rest : list net.event)
    (w : option liberr) (tr : list net.op) :
  exists resp reads,
    http.ReadResponse framing req
      (bufio.NewReaderSize (net.mkConn (net.Seg switchingProtocols :: rest) w tr) 0)
    = Done (inr resp)
        (bufio.mkReader (net.mkConn rest w (reads ++ tr)%list) EmptyString 16 None)
    /\ forall L, replyMismatch L resp = false.
Proof.
  do 2 eexists. split.
  - vm_compute.
    match goal with
    | |- Done _ (bufio.mkReader (net.mkConn _ _ ?t) _ _ _) = _ =>
        let l := constr:([net.OpRead 16; net.OpRead 4; net.OpRead 16; net.OpRead 2;
                          net.OpRead 16; net.OpRead 16; net.OpRead 16]) in
        change t with (l ++ tr)%list
    end.
    reflexivity.
  - intros L. vm_compute. reflexivity.
Qed.

(** X21: without early data, once the connection is set up and the
    request is written without error, against a server whose next segment
    is the standard reply and nothing else, [dialhttpUpgrade] succeeds: it
    returns a connection that is no longer pending, holds the request that
    was built, and has the server's following segments still unread. *)
Theorem X21_dial_succeeds_on_the_standard_reply
    (L : GoLib) (pconn : net.Conn) (dest : string) (streamSettings : MemoryStreamConfig)
    (rest : list net.event) :
  handshakeError streamSettings = None ->
  writeError L pconn dest streamSettings = None ->
  Ed (ProtocolSettings streamSettings) = 0%N ->
  net.incoming pconn = net.Seg switchingProtocols :: rest ->
  exists c,
    dialhttpUpgrade L (inr pconn) dest streamSettings = Return (Some c) None
    /\ First c = false
    /\ net.incoming (Conn c) = rest
    /\ Req c = buildRequest (schemeOf streamSettings) dest (ProtocolSettings streamSettings).
Proof.
  intros HT HW HE Hin.
  rewrite (dialhttpUpgrade_established L pconn dest streamSettings HT HW), HE.
  change (0 =? 0)%N with true. cbv iota.
  destruct pconn as [inc w tr]. cbn [net.incoming net.werr] in Hin, HW. subst inc.
  unfold Read, written, net.logged.
  cbn [First Conn Req net.incoming net.werr net.trace].
  destruct (probe_parse_switchingProtocols (framing L)
              (buildRequest (schemeOf streamSettings) dest (ProtocolSettings streamSettings))
              rest w (net.OpWrite :: tr)) as (resp & reads & Hrun & Hcheck).
  change (len emptySlice) with 0.
  rewrite Hrun, (Hcheck L).
  eexists. split; [reflexivity |]. repeat split.
Qed.

(** X21 at a server that sends the reply and then a greeting. *)
Lemma X21_dial_succeeds_witness :
  exists c,
    dialhttpUpgrade plainLib
      (inr (scripted [net.Seg switchingProtocols; net.Seg "hello"])) "example.com:80"
      (mkStream (mkConfig "example.com" "/" [] 0%N) None)
    = Return (Some c) None
    /\ First c = false
    /\ net.incoming (Conn c) = [net.Seg "hello"]
    /\ Req c = buildRequest "http" "example.com:80" (mkConfig "example.com" "/" [] 0%N).
Proof.
  apply (X21_dial_succeeds_on_the_standard_reply plainLib
           (scripted [net.Seg switchingProtocols; net.Seg "hello"]) "example.com:80"
           (mkStream (mkConfig "example.com" "/" [] 0%N) None) [net.Seg "hello"]);
    reflexivity.
Defined.

(** ** What [req.Write] refuses *)

Lemma CTL_app (x y : string) :
  http.stringContainsCTLByte (x ++ y)
  = http.stringContainsCTLByte x || http.stringContainsCTLByte y.
Proof.
  induction x as [| c x IH]; cbn [String.append http.stringContainsCTLByte];
    [reflexivity |].
  rewrite IH, orb_assoc. reflexivity.
Qed.

Lemma escape_byte (c : ascii) :
  (url.shouldEscape c = false ->
   (byteval c <? 32) || (byteval c =? 127) = false)
  /\ (byteval (url.upperhex (byteval c / 16)) <? 32)
     || (byteval (url.upperhex (byteval c / 16)) =? 127) = false
  /\ (byteval (url.upperhex (byteval c mod 16)) <? 32)
     || (byteval (url.upperhex (byteval c mod 16)) =? 127) = false.
Proof.
  destruct c as [[] [] [] [] [] [] [] []]; vm_compute;
    (split; [intros H; first [reflexivity | discriminate H] | split; reflexivity]).
Qed.

(** An escaped path holds no control byte. *)
Lemma escape_no_CTL (s : string) : http.stringContainsCTLByte (url.escape s) = false.
Proof.
  induction s as [| c s IH]; [reflexivity |].
  destruct (escape_byte c) as (Hkeep & Hhi & Hlo).
  cbn [url.escape]. destruct (url.shouldEscape c) eqn:Hc.
  - cbn [http.stringContainsCTLByte]. rewrite Hhi, Hlo, IH. reflexivity.
  - cbn [http.stringContainsCTLByte]. rewrite (Hkeep eq_refl), IH. reflexivity.
Qed.

(** X22: with an all-ASCII configured host and destination address,
    [req.Write] refuses the request of a dial exactly when the opaque
    component that the path steps gave the URL holds a control byte, and
    the error is then the control-character error of [net/http]; a request
    whose URL has no opaque component is never refused. *)
Theorem X22_request_refused_for_control_byte_in_opaque
    (L : GoLib) (dest : string) (streamSettings : MemoryStreamConfig) :
  strings.isASCII (Host (ProtocolSettings streamSettings)) = true ->
  strings.isASCII dest = true ->
  let req :=
    buildRequest (schemeOf streamSettings) dest (ProtocolSettings streamSettings) in
  http.requestError (punycode L) req
  = if http.stringContainsCTLByte (url.Opaque (http.URL req))
    then Some http.errControlCharacter
    else None.
Proof.
  intros HH HD req. unfold http.requestError.
  assert (Hhost : http.Host req = Host (ProtocolSettings streamSettings)) by reflexivity.
  assert (Hurl : url.Host (http.URL req) = dest /\
                 url.Scheme (http.URL req) = schemeOf streamSettings).
  { subst req. unfold buildRequest. cbn [http.URL].
    destruct (encodePath_scheme_host
                (url.mkURL (schemeOf streamSettings) EmptyString dest
                   (GetNormalizedPath (ProtocolSettings streamSettings)))) as [Hs Hh].
    rewrite Hs, Hh. split; reflexivity. }
  destruct Hurl as [Hu Hs]. rewrite Hhost, Hu.
  assert (Hascii : strings.isASCII
                     (if String.eqb (Host (ProtocolSettings streamSettings)) EmptyString
                      then dest else Host (ProtocolSettings streamSettings)) = true)
    by (destruct (String.eqb _ _); assumption).
  rewrite Hascii.
  assert (Huri : http.stringContainsCTLByte (url.RequestURI (http.URL req))
                 = http.stringContainsCTLByte (url.Opaque (http.URL req))).
  { unfold url.RequestURI. destruct (url.Opaque (http.URL req)) as [| c o] eqn:Ho.
    - unfold url.EscapedPath.
      destruct (String.eqb (url.Path (http.URL req)) "*"); [reflexivity |].
      pose proof (escape_no_CTL (url.Path (http.URL req))) as He.
      destruct (url.escape (url.Path (http.URL req))); [reflexivity | exact He].
    - destruct (strings.HasPrefix (String c o) "//"); [| reflexivity].
      rewrite !CTL_app, Hs.
      unfold schemeOf. destruct (SecuritySettings streamSettings); reflexivity. }
  rewrite Huri. reflexivity.
Qed.

(** X22 at a configured path that puts a line feed into the opaque
    component. *)
Lemma X22_request_refused_witness :
  http.requestError (punycode plainLib)
    (buildRequest "http" "example.com:80" (mkConfig "example.com" "/a%0A b" [] 0%N))
  = Some http.errControlCharacter.
Proof.
  apply (X22_request_refused_for_control_byte_in_opaque plainLib "example.com:80"
           (mkStream (mkConfig "example.com" "/a%0A b" [] 0%N) None));
    reflexivity.
Defined.
